(** * SymbiosisCareer: the aggregation, deduplication and ranking engine

    A shallow embedding of the engine of [backend/app.py]
    ([JobSearchEngine], the parts of [InterviewQuestionAPI] it drives, and
    the two HTTP routes that start a search), with the properties of the
    design document stated and settled against it.

    Python values are modelled as follows.
    - [str] is [string]; the text handled here is ASCII (code points below
      128), for which [str.lower], [str.strip], [str.split] and the regular
      expression classes [\w] and [\s] are given character by character.
    - [int] is [Z]; a list is a [list]; a [set] of digests is a [gset];
      the [results['sources']] dictionary is a [gmap].
    - a dictionary with a fixed set of keys (a job, a question) is a record
      of optional fields, [None] standing for an absent key.
    - the clock, the adapters, the search provider, the solution generator
      and the event sink are inputs of the functions that use them. *)

From Stdlib Require Import ZArith Lia Ascii String List Sorting.Sorted Permutation.
From stdpp Require Import base option list sorting strings gmap pretty.

Open Scope string_scope.
Open Scope Z_scope.

(** ** Python strings *)

Module PyStr.

Definition code (c : ascii) : Z := Z.of_N (N_of_ascii c).

(** [str.isspace] on one ASCII character, which is also the class [\s]. *)
Definition is_space (c : ascii) : bool :=
  let n := code c in
  ((9 <=? n) && (n <=? 13)) || ((28 <=? n) && (n <=? 32)).

Definition is_digit (c : ascii) : bool :=
  let n := code c in (48 <=? n) && (n <=? 57).

Definition is_upper (c : ascii) : bool :=
  let n := code c in (65 <=? n) && (n <=? 90).

Definition is_lower (c : ascii) : bool :=
  let n := code c in (97 <=? n) && (n <=? 122).

(** The class [\w]: letters, digits and the underscore. *)
Definition is_word (c : ascii) : bool :=
  is_digit c || is_upper c || is_lower c || (code c =? 95).

Definition lower_char (c : ascii) : ascii :=
  if is_upper c then ascii_of_N (N_of_ascii c + 32) else c.

(** [s.lower()] *)
Fixpoint lower (s : string) : string :=
  match s with
  | EmptyString => EmptyString
  | String c r => String (lower_char c) (lower r)
  end.

(** [s.lstrip()] *)
Fixpoint lstrip (s : string) : string :=
  match s with
  | EmptyString => EmptyString
  | String c r => if is_space c then lstrip r else s
  end.

(** [s.rstrip()]: a character is dropped when it is a space and
    everything after it has been dropped. *)
Fixpoint rstrip (s : string) : string :=
  match s with
  | EmptyString => EmptyString
  | String c r =>
      match rstrip r with
      | EmptyString => if is_space c then EmptyString else String c EmptyString
      | r' => String c r'
      end
  end.

(** [s.strip()] *)
Definition strip (s : string) : string := rstrip (lstrip s).

(** [re.sub(r'[^\w\s]', '', s)] *)
Fixpoint drop_punctuation (s : string) : string :=
  match s with
  | EmptyString => EmptyString
  | String c r =>
      if is_word c || is_space c then String c (drop_punctuation r)
      else drop_punctuation r
  end.

(** [re.sub(r'\s+', ' ', s)]: every maximal run of spaces becomes one
    blank. [in_run] tells that the previous character was a space. *)
Fixpoint collapse_from (in_run : bool) (s : string) : string :=
  match s with
  | EmptyString => EmptyString
  | String c r =>
      if is_space c
      then (if in_run then collapse_from true r
            else String " " (collapse_from true r))
      else String c (collapse_from false r)
  end.

Definition collapse_spaces (s : string) : string := collapse_from false s.

Fixpoint starts_with (p s : string) : bool :=
  match p, s with
  | EmptyString, _ => true
  | String _ _, EmptyString => false
  | String a p', String b s' => if Ascii.eqb a b then starts_with p' s' else false
  end.

(** [needle in hay] on strings; the empty needle is in every string. *)
Fixpoint contains (needle hay : string) : bool :=
  starts_with needle hay ||
  match hay with
  | EmptyString => false
  | String _ r => contains needle r
  end.

(** [s.split()]: the maximal runs of characters that are not spaces.
    [cur] is the word being read, in reverse. *)
Fixpoint split_from (cur : list ascii) (s : string) : list string :=
  let flush (k : list string) :=
    match cur with
    | [] => k
    | _ => string_of_list_ascii (rev cur) :: k
    end in
  match s with
  | EmptyString => flush []
  | String c r =>
      if is_space c then flush (split_from [] r)
      else split_from (c :: cur) r
  end.

Definition split (s : string) : list string := split_from [] s.

(** Truth value of a string: [bool(s)]. *)
Definition truthy (s : string) : bool :=
  match s with EmptyString => false | _ => true end.

(** [len(s)] *)
Definition len (s : string) : Z := Z.of_nat (String.length s).

End PyStr.

(** ** Python slices [l[:n]] *)

(** [l[:n]] keeps the first [n] items when [n] is not negative and drops
    the last [-n] items when it is. *)
Definition slice_to {A} (n : Z) (l : list A) : list A :=
  if 0 <=? n then take (Z.to_nat n) l
  else take (Z.to_nat (Z.of_nat (length l) + n)) l.

(** ** [hashlib.md5]

    The digest of RFC 1321 on the bytes of an ASCII string, as
    [hashlib.md5(s.encode()).hexdigest()] returns it. *)

Module MD5.

Definition mask32 : Z := 4294967295.

Definition add32 (a b : Z) : Z := Z.land (a + b) mask32.

Definition not32 (a : Z) : Z := Z.lxor a mask32.

Definition rotl32 (x n : Z) : Z :=
  Z.lor (Z.land (Z.shiftl x n) mask32) (Z.shiftr x (32 - n)).

(** [K[i] = floor(2^32 * abs(sin(i + 1)))] *)
Definition K : list Z :=
  [ 3614090360; 3905402710; 606105819; 3250441966;
    4118548399; 1200080426; 2821735955; 4249261313;
    1770035416; 2336552879; 4294925233; 2304563134;
    1804603682; 4254626195; 2792965006; 1236535329;
    4129170786; 3225465664; 643717713; 3921069994;
    3593408605; 38016083; 3634488961; 3889429448;
    568446438; 3275163606; 4107603335; 1163531501;
    2850285829; 4243563512; 1735328473; 2368359562;
    4294588738; 2272392833; 1839030562; 4259657740;
    2763975236; 1272893353; 4139469664; 3200236656;
    681279174; 3936430074; 3572445317; 76029189;
    3654602809; 3873151461; 530742520; 3299628645;
    4096336452; 1126891415; 2878612391; 4237533241;
    1700485571; 2399980690; 4293915773; 2240044497;
    1873313359; 4264355552; 2734768916; 1309151649;
    4149444226; 3174756917; 718787259; 3951481745 ].

(** The per-round left rotations. *)
Definition S : list Z :=
  [ 7; 12; 17; 22; 7; 12; 17; 22; 7; 12; 17; 22; 7; 12; 17; 22;
    5; 9; 14; 20; 5; 9; 14; 20; 5; 9; 14; 20; 5; 9; 14; 20;
    4; 11; 16; 23; 4; 11; 16; 23; 4; 11; 16; 23; 4; 11; 16; 23;
    6; 10; 15; 21; 6; 10; 15; 21; 6; 10; 15; 21; 6; 10; 15; 21 ].

Definition bytes_of_string (s : string) : list Z :=
  map PyStr.code (list_ascii_of_string s).

(** The [n] low bytes of [x], least significant first. *)
Fixpoint le_bytes (n : nat) (x : Z) : list Z :=
  match n with
  | O => []
  | Datatypes.S n' => Z.land x 255 :: le_bytes n' (Z.shiftr x 8)
  end.

Fixpoint le_word (bs : list Z) : Z :=
  match bs with
  | [] => 0
  | b :: r => Z.lor b (Z.shiftl (le_word r) 8)
  end.

(** The message, one [0x80] byte, zero bytes up to 56 modulo 64, and
    the length of the message in bits on eight bytes. *)
Definition pad (msg : list Z) : list Z :=
  let n := Z.of_nat (length msg) in
  msg ++ [128] ++ repeat 0 (Z.to_nat ((55 - n) mod 64)) ++ le_bytes 8 (8 * n).

(** The sixteen words of a 64-byte block. *)
Fixpoint words (k : nat) (block : list Z) : list Z :=
  match k with
  | O => []
  | Datatypes.S k' => le_word (take 4 block) :: words k' (drop 4 block)
  end.

Record state := State { sa : Z; sb : Z; sc : Z; sd : Z }.

Definition init : state :=
  State 1732584193 4023233417 2562383102 271733878.

Definition step (M : list Z) (st : state) (i : nat) : state :=
  let '(State A B C D) := st in
  let iz := Z.of_nat i in
  let '(F, g) :=
    if iz <? 16 then (Z.lor (Z.land B C) (Z.land (not32 B) D), iz)
    else if iz <? 32 then (Z.lor (Z.land D B) (Z.land (not32 D) C), (5 * iz + 1) mod 16)
    else if iz <? 48 then (Z.lxor (Z.lxor B C) D, (3 * iz + 5) mod 16)
    else (Z.lxor C (Z.lor B (not32 D)), (7 * iz) mod 16) in
  let F' := add32 (add32 (add32 F A) (nth i K 0)) (nth (Z.to_nat g) M 0) in
  State D (add32 B (rotl32 F' (nth i S 0))) B C.

Definition block (st : state) (bl : list Z) : state :=
  let M := words 16 bl in
  let '(State A B C D) := fold_left (step M) (seq 0 64) st in
  State (add32 (sa st) A) (add32 (sb st) B) (add32 (sc st) C) (add32 (sd st) D).

Fixpoint blocks (k : nat) (st : state) (bs : list Z) : state :=
  match k with
  | O => st
  | Datatypes.S k' => blocks k' (block st (take 64 bs)) (drop 64 bs)
  end.

Definition hex_digit (n : Z) : ascii :=
  if n <? 10 then ascii_of_N (Z.to_N (48 + n)) else ascii_of_N (Z.to_N (87 + n)).

Fixpoint hex (bs : list Z) : string :=
  match bs with
  | [] => EmptyString
  | b :: r => String (hex_digit (Z.shiftr b 4)) (String (hex_digit (Z.land b 15)) (hex r))
  end.

Definition hexdigest (s : string) : string :=
  let bs := pad (bytes_of_string s) in
  let st := blocks (length bs / 64) init bs in
  hex (le_bytes 4 (sa st) ++ le_bytes 4 (sb st) ++ le_bytes 4 (sc st) ++ le_bytes 4 (sd st)).

End MD5.

(** ** [datetime] *)

Module PyDate.

Record datetime := DateTime {
  year : Z; month : Z; day : Z;
  hour : Z; minute : Z; second : Z; microsecond : Z }.

Definition is_leap (y : Z) : bool :=
  (y mod 4 =? 0) && (negb (y mod 100 =? 0) || (y mod 400 =? 0)).

Definition days_in_month (y m : Z) : Z :=
  if m =? 2 then (if is_leap y then 29 else 28)
  else if (m =? 4) || (m =? 6) || (m =? 9) || (m =? 11) then 30
  else 31.

Definition days_before_year (y : Z) : Z :=
  let p := y - 1 in p * 365 + p / 4 - p / 100 + p / 400.

Definition days_before_month (y m : Z) : Z :=
  fold_right Z.add 0
    (map (days_in_month y) (filter (fun k => k <? m) [1; 2; 3; 4; 5; 6; 7; 8; 9; 10; 11])).

(** [date.toordinal()]: day 1 is the first of January of year 1. *)
Definition toordinal (t : datetime) : Z :=
  days_before_year (year t) + days_before_month (year t) (month t) + day t.

Definition microseconds (t : datetime) : Z :=
  (((toordinal t * 24 + hour t) * 60 + minute t) * 60 + second t) * 1000000
  + microsecond t.

(** [(a - b).days]: a [timedelta] keeps its seconds and microseconds
    non-negative, so its days are rounded down. *)
Definition days_between (a b : datetime) : Z :=
  (microseconds a - microseconds b) / 86400000000.

(** A clock reading: a date of the calendar and a time of the day. *)
Definition wf (t : datetime) : Prop :=
  1 <= year t <= 9999 /\ 1 <= month t <= 12 /\
  1 <= day t <= days_in_month (year t) (month t) /\
  0 <= hour t < 24 /\ 0 <= minute t < 60 /\ 0 <= second t < 60 /\
  0 <= microsecond t < 1000000.

Definition digit (c : ascii) : option Z :=
  if PyStr.is_digit c then Some (PyStr.code c - 48) else None.

Definition digit_in (lo hi : Z) (c : ascii) : option Z :=
  match digit c with
  | Some d => if (lo <=? d) && (d <=? hi) then Some d else None
  | None => None
  end.

(** The directive [%Y] is the pattern [\d\d\d\d]. *)
Definition match_Y (s : string) : option (Z * string) :=
  match s with
  | String a (String b (String c (String d r))) =>
      match digit a, digit b, digit c, digit d with
      | Some a, Some b, Some c, Some d => Some (((a * 10 + b) * 10 + c) * 10 + d, r)
      | _, _, _, _ => None
      end
  | _ => None
  end.

(** The directive [%m] is [1[0-2]|0[1-9]|[1-9]]: the ways it matches a
    prefix of [s], in the order the alternatives are tried. *)
Definition match_m (s : string) : list (Z * string) :=
  match s with
  | String a r =>
      match r with
      | String b r' =>
          (if Ascii.eqb a "1" then
             match digit_in 0 2 b with Some d => [(10 + d, r')] | None => [] end
           else []) ++
          (if Ascii.eqb a "0" then
             match digit_in 1 9 b with Some d => [(d, r')] | None => [] end
           else [])
      | EmptyString => []
      end ++
      match digit_in 1 9 a with Some d => [(d, r)] | None => [] end
  | EmptyString => []
  end.

(** The directive [%d] is [3[0-1]|[1-2]\d|0[1-9]|[1-9]| [1-9]]. *)
Definition match_d (s : string) : list (Z * string) :=
  match s with
  | String a r =>
      match r with
      | String b r' =>
          (if Ascii.eqb a "3" then
             match digit_in 0 1 b with Some d => [(30 + d, r')] | None => [] end
           else []) ++
          match digit_in 1 2 a, digit b with
          | Some t, Some d => [(t * 10 + d, r')]
          | _, _ => []
          end ++
          (if Ascii.eqb a "0" then
             match digit_in 1 9 b with Some d => [(d, r')] | None => [] end
           else [])
      | EmptyString => []
      end ++
      match digit_in 1 9 a with Some d => [(d, r)] | None => [] end ++
      match r with
      | String b r' =>
          if Ascii.eqb a " " then
            match digit_in 1 9 b with Some d => [(d, r')] | None => [] end
          else []
      | EmptyString => []
      end
  | EmptyString => []
  end.

(** The match of [%Y-%m-%d] at the start of [s]: the first way, in the
    order of the alternatives, in which the whole pattern matches. *)
Definition match_Ymd (s : string) : option (Z * Z * Z * string) :=
  match match_Y s with
  | Some (y, String "-" r) =>
      head (flat_map (fun '(m, r1) =>
              match r1 with
              | String "-" r2 => map (fun '(d, r3) => (y, m, d, r3)) (match_d r2)
              | _ => []
              end) (match_m r))
  | _ => None
  end.

(** [datetime.strptime(s, '%Y-%m-%d')], [None] when it raises
    [ValueError]: no match, text left after the match, or a date that
    is not in the calendar. *)
Definition strptime_Ymd (s : string) : option datetime :=
  match match_Ymd s with
  | Some (y, m, d, EmptyString) =>
      if (1 <=? y) && (d <=? days_in_month y m)
      then Some (DateTime y m d 0 0 0 0)
      else None
  | _ => None
  end.

End PyDate.

(** ** [list.sort(key=..., reverse=True)]

    Python's sort is stable, also with [reverse=True]: items with equal
    keys keep the order they had. The model inserts the items one by one,
    from the last to the first, each in front of the first item whose key
    is not larger. *)

Section Sort.
Context {A : Type} (key : A -> Z).

Fixpoint insert_desc (x : A) (l : list A) : list A :=
  match l with
  | [] => [x]
  | y :: r => if key y <=? key x then x :: y :: r else y :: insert_desc x r
  end.

Definition sort_desc (l : list A) : list A := fold_right insert_desc [] l.

End Sort.

(** ** Jobs *)

(** A job dictionary, with the keys the engine reads. [relevance_score]
    is the key the ranking writes. *)
Record job := Job {
  title : option string;
  company : option string;
  url : option string;
  description : option string;
  source : option string;
  experience_level : option string;
  job_type : option string;
  posted_date : option string;
  relevance_score : option Z }.

(** [d.get(k, '')] on an optional field. *)
Definition get_str (field : option string) : string := default EmptyString field.

(** [job['relevance_score'] = score] *)
Definition set_relevance_score (j : job) (score : Z) : job :=
  Job (title j) (company j) (url j) (description j) (source j)
      (experience_level j) (job_type j) (posted_date j) (Some score).

(** The job dictionary without its [relevance_score] key. *)
Definition raw (j : job) : job :=
  Job (title j) (company j) (url j) (description j) (source j)
      (experience_level j) (job_type j) (posted_date j) None.

(** ** Interview questions *)

(** A question dictionary, with the keys the engine reads or writes. *)
Record question := Question {
  q_question : option string;
  q_domain : option string;
  q_company : option string;
  q_difficulty : option string;
  q_question_type : option string;
  q_credibility_score : option Z;
  q_year : option Z;
  q_solution : option string;
  q_relevance_score : option Z }.

(** [question['relevance_score'] = score] *)
Definition set_q_relevance_score (q : question) (score : Z) : question :=
  Question (q_question q) (q_domain q) (q_company q) (q_difficulty q)
           (q_question_type q) (q_credibility_score q) (q_year q)
           (q_solution q) (Some score).

(** [question['solution'] = text] *)
Definition set_q_solution (q : question) (text : string) : question :=
  Question (q_question q) (q_domain q) (q_company q) (q_difficulty q)
           (q_question_type q) (q_credibility_score q) (q_year q)
           (Some text) (q_relevance_score q).

(** What the search provider answers to one query: the call raises, or it
    returns a dictionary that has organic results or not. An organic
    result is given by what the two extractors find in it: the questions
    of its title and snippet, and the questions of its page. *)
Inductive query_response :=
  | SearchRaised
  | SearchReturned (organic_results : option (list (list question * list question))).

Module InterviewQuestionAPI.

Section API.
(** [_generate_comprehensive_solution question domain company
    difficulty question_type]: the text, or [None] when it raises. *)
Variable solve : string -> string -> option string -> string -> string -> option string.
(** [_get_fallback_solution question domain] *)
Variable fallback : string -> string -> string.

(** The digest that [_remove_duplicate_questions] takes of a question. *)
Definition question_hash (q : question) : string :=
  let question_text := PyStr.strip (PyStr.lower (get_str (q_question q))) in
  let normalized := PyStr.drop_punctuation question_text in
  let normalized := PyStr.collapse_spaces normalized in
  MD5.hexdigest normalized.

(** The loop of [_remove_duplicate_questions]; [seen] is [seen_hashes]. *)
Fixpoint unique_questions (seen : gset string) (questions : list question) : list question :=
  match questions with
  | [] => []
  | q :: rest =>
      let h := question_hash q in
      if bool_decide (h ∉ seen)
      then q :: unique_questions ({[ h ]} ∪ seen) rest
      else unique_questions seen rest
  end.

(** [InterviewQuestionAPI._remove_duplicate_questions] *)
Definition _remove_duplicate_questions (questions : list question) : list question :=
  match questions with
  | [] => []
  | _ => unique_questions ∅ questions
  end.

(** [InterviewQuestionAPI._calculate_relevance_score] *)
Definition _calculate_relevance_score (q : question) (domain : string)
    (company : option string) : Z :=
  let score := 0 in
  let question_text := PyStr.lower (get_str (q_question q)) in
  let question_domain := PyStr.lower (get_str (q_domain q)) in
  let question_company := PyStr.lower (get_str (q_company q)) in
  let score :=
    if PyStr.contains (PyStr.lower domain) question_text
       || PyStr.contains (PyStr.lower domain) question_domain
    then score + 5 else score in
  let score :=
    match company with
    | Some c =>
        if PyStr.truthy c && PyStr.contains (PyStr.lower c) question_company
        then score + 8 else score
    | None => score
    end in
  let score := score + default 0 (q_credibility_score q) in
  let score :=
    match q_year q with
    | Some year =>
        if negb (year =? 0) && (2023 <=? year) then score + 3
        else if negb (year =? 0) && (2020 <=? year) then score + 1
        else score
    | None => score
    end in
  let question_type := get_str (q_question_type q) in
  let score :=
    if existsb (String.eqb question_type) ["Coding"; "System Design"]
    then score + 2 else score in
  let difficulty := get_str (q_difficulty q) in
  let score :=
    if String.eqb difficulty "Medium" then score + 2
    else if String.eqb difficulty "Hard" then score + 1
    else score in
  score.

(** The loop of [_filter_relevant_questions]: [scored_questions]. *)
Fixpoint scored_questions (questions : list question) (domain : string)
    (company : option string) : list question :=
  match questions with
  | [] => []
  | q :: rest =>
      let score := _calculate_relevance_score q domain company in
      if 3 <? score
      then set_q_relevance_score q score :: scored_questions rest domain company
      else scored_questions rest domain company
  end.

(** [x['relevance_score']]; the key is set on every scored question. *)
Definition q_score_key (q : question) : Z := default 0 (q_relevance_score q).

(** [InterviewQuestionAPI._filter_relevant_questions] *)
Definition _filter_relevant_questions (questions : list question) (domain : string)
    (company : option string) : list question :=
  match questions with
  | [] => []
  | _ => sort_desc q_score_key (scored_questions questions domain company)
  end.

(** One question of [_enhance_questions_with_detailed_solutions]:
    [question['question']] raises [KeyError] when the key is absent,
    first in the [try] block and then in its handler, and the error
    leaves the function. *)
Definition enhance_one (domain : string) (company : option string)
    (q : question) : option question :=
  match q_question q with
  | None => None
  | Some text =>
      let difficulty := default "Medium" (q_difficulty q) in
      let question_type := default "General" (q_question_type q) in
      match solve text domain company difficulty question_type with
      | Some solution => Some (set_q_solution q solution)
      | None => Some (set_q_solution q (fallback text domain))
      end
  end.

(** [InterviewQuestionAPI._enhance_questions_with_detailed_solutions],
    [None] when it raises. The batches of five only space the calls in
    time. *)
Fixpoint _enhance_questions_with_detailed_solutions (questions : list question)
    (domain : string) (company : option string) : option (list question) :=
  match questions with
  | [] => Some []
  | q :: rest =>
      match enhance_one domain company q with
      | Some q' =>
          match _enhance_questions_with_detailed_solutions rest domain company with
          | Some rest' => Some (q' :: rest')
          | None => None
          end
      | None => None
      end
  end.

(** [len(l)] *)
Definition len {A} (l : list A) : Z := Z.of_nat (length l).

(** The inner loop of [search_interview_questions], over the organic
    results of one query. *)
Fixpoint gather_results (question_count : Z) (all_questions : list question)
    (organic_results : list (list question * list question)) : list question :=
  match organic_results with
  | [] => all_questions
  | (questions, page_questions) :: rest =>
      if question_count <=? len all_questions then all_questions
      else
        let all_questions :=
          (all_questions ++ slice_to (question_count - len all_questions) questions)%list in
        let all_questions :=
          (all_questions ++ slice_to (question_count - len all_questions) page_questions)%list in
        gather_results question_count all_questions rest
  end.

(** The outer loop of [search_interview_questions], over the answers
    of the provider to the queries. *)
Fixpoint gather_queries (question_count : Z) (all_questions : list question)
    (responses : list query_response) : list question :=
  match responses with
  | [] => all_questions
  | response :: rest =>
      if question_count <=? len all_questions then all_questions
      else
        match response with
        | SearchReturned (Some organic_results) =>
            gather_queries question_count
              (gather_results question_count all_questions organic_results) rest
        | SearchReturned None | SearchRaised =>
            gather_queries question_count all_questions rest
        end
  end.

(** The default of the parameter [question_count]. *)
Definition default_question_count : Z := 10.

(** [InterviewQuestionAPI.search_interview_questions]. [responses]
    are the answers of the provider to the generated queries, in
    order. *)
Definition search_interview_questions (responses : list query_response)
    (domain : string) (company : option string) (difficulty : string)
    (question_count : Z) : list question :=
  let all_questions := gather_queries question_count [] (take 5 responses) in
  let unique_questions := _remove_duplicate_questions all_questions in
  let relevant_questions := _filter_relevant_questions unique_questions domain company in
  let relevant_questions := slice_to question_count relevant_questions in
  match _enhance_questions_with_detailed_solutions relevant_questions domain company with
  | Some enhanced_questions => enhanced_questions
  | None => []
  end.

End API.

End InterviewQuestionAPI.

(** ** JSON values *)

(** A JSON value as [request.get_json()] returns it; numbers that are
    not integers are not modelled. [json_null] is Python's [None]. *)
#[warnings="-register-all"]
Inductive json :=
  | json_null
  | json_bool (b : bool)
  | json_int (z : Z)
  | json_str (s : string)
  | json_list (items : list json)
  | json_dict (fields : gmap string json).

(** ** The engine *)

Inductive status := in_progress | completed | failed.

(** The five adapters of the engine, in the order in which
    [comprehensive_job_search] submits their tasks. *)
Inductive api := linkedin_api | naukri_api | indeed_api | freshers_api | monster_api.

(** What [api_instance.search_jobs] does in one session. *)
Inductive adapter_result :=
  | Returned (jobs : list job)
  | Raised.

(** What happens in a session between the submission of the five tasks
    and the end of the executor block, in the order in which it happens:
    an adapter, in its worker thread, calls [emit_status], or
    [as_completed] yields a task. [as_completed] is called without a
    timeout and yields a task when it has finished, so that
    [future.result(timeout=30)] returns at once what [_safe_search]
    returned; a task that never finishes is never yielded. *)
Inductive step :=
  | status_emitted (a : api) (message status : string)
  | task_done (a : api) (result : adapter_result).

(** The summary of a finished job search; the three frequency tables of
    the source (companies, job types, experience levels) are left out. *)
Record search_summary := SearchSummary {
  total_jobs_found : Z;
  sources_searched : Z;
  source_breakdown : gmap string Z;
  search_timestamp : PyDate.datetime }.

(** The [results] dictionary of [comprehensive_job_search], by value, as
    [socketio.emit] serializes it. The lists under [sources] and the
    list [all_jobs] of the collection hold the same job dictionaries:
    what the ranking writes to a job shows under [sources] too. *)
Record results := Results {
  r_job_role : string;
  r_location : string;
  r_timestamp : PyDate.datetime;
  total_jobs : Z;
  sources : gmap string (list job);
  all_jobs : list job;
  search_status : status;
  summary : option search_summary;
  error : option string }.

(** The [results] dictionary of the interview question search. *)
Record interview_results := InterviewResults {
  i_domain : string;
  i_company : option string;
  i_difficulty : string;
  questions : list question;
  total_questions : Z }.

(** The events that are pushed with [socketio.emit] during a search of
    the engine; the texts of the keys ['message'] of [search_started]
    and of the interview events and the keys ['timestamp'] are left out.
    A [thought] event comes from the engine, with the agent ['System']
    and no status, or from [emit_status] of an adapter. *)
Inductive event :=
  | search_started (job_role location : string)
  | source_completed (source : string) (job_count total_so_far : Z)
  | thought (agent message : string) (status : option string)
  | search_completed (r : results)
  | search_failed (r : results)
  | interview_search_started (domain : string) (company : option string)
      (difficulty : string) (target_count : Z)
  | interview_search_completed (r : interview_results)
  | interview_search_failed (domain : string) (company : option string).

(** What one call of [socketio.emit] does. *)
Inductive emit_result :=
  | Delivered
  | EmitRaised (message : string).

Module JobSearchEngine.

Definition ai_ml_keywords : list string :=
  [ "ai"; "ml"; "machine learning"; "artificial intelligence";
    "deep learning"; "neural network"; "nlp"; "computer vision";
    "data science"; "tensorflow"; "pytorch" ].

(** [JobSearchEngine._create_job_hash], before the digest is taken. *)
Definition hash_string (j : job) : string :=
  let title := PyStr.strip (PyStr.lower (get_str (title j))) in
  let company := PyStr.strip (PyStr.lower (get_str (company j))) in
  let title := PyStr.drop_punctuation title in
  let title := PyStr.collapse_spaces title in
  title ++ "_" ++ company.

(** [JobSearchEngine._create_job_hash] *)
Definition _create_job_hash (j : job) : string :=
  MD5.hexdigest (hash_string j).

(** [job.get(field) and job.get(field).strip()], as a truth value. *)
Definition present (field : option string) : bool :=
  match field with
  | Some s => PyStr.truthy s && PyStr.truthy (PyStr.strip s)
  | None => false
  end.

(** [JobSearchEngine._is_valid_job] *)
Definition _is_valid_job (j : job) : bool :=
  forallb present [title j; company j; url j].

(** The score of one keyword: [a] when it is in the title, [b] when it
    is in the description. *)
Definition keyword_score (a b : Z) (title description keyword : string) : Z :=
  (if PyStr.contains keyword title then a else 0)
  + (if PyStr.contains keyword description then b else 0).

(** The last block of [_calculate_relevance]: the age of the posting in
    days at the clock reading [now]; every exception is swallowed. *)
Definition recency (now : PyDate.datetime) (j : job) : Z :=
  let posted_date := get_str (posted_date j) in
  if PyStr.truthy posted_date then
    match PyDate.strptime_Ymd posted_date with
    | Some job_date =>
        let days_old := PyDate.days_between now job_date in
        if days_old <=? 7 then 8
        else if days_old <=? 30 then 4
        else 0
    | None => 0
    end
  else 0.

(** [JobSearchEngine._calculate_relevance]; [now] is what
    [datetime.now()] returns during the call. *)
Definition _calculate_relevance (now : PyDate.datetime) (j : job) (job_role : string) : Z :=
  let title := PyStr.lower (get_str (title j)) in
  let description := PyStr.lower (get_str (description j)) in
  let job_role_lower := PyStr.lower job_role in
  let score := 0 in
  let score := if PyStr.contains job_role_lower title then score + 20 else score in
  let keywords := PyStr.split job_role_lower in
  let score :=
    fold_left (fun score keyword => score + keyword_score 8 3 title description keyword)
              keywords score in
  let score :=
    fold_left (fun score keyword => score + keyword_score 10 5 title description keyword)
              ai_ml_keywords score in
  let source := PyStr.lower (get_str (source j)) in
  let score :=
    if PyStr.contains "linkedin" source then score + 8
    else if PyStr.contains "naukri" source then score + 6
    else if PyStr.contains "indeed" source then score + 4
    else score in
  let exp_level := PyStr.lower (get_str (experience_level j)) in
  let score :=
    if existsb (fun word => PyStr.contains word exp_level)
               ["entry"; "fresher"; "0-1"; "graduate"]
    then score + 10 else score in
  let job_type := PyStr.lower (get_str (job_type j)) in
  let score :=
    if String.eqb job_type "full-time" then score + 5
    else if String.eqb job_type "internship" then score + 3
    else score in
  score + recency now j.

(** The loop of [_remove_duplicates_and_rank]. [seen] is [seen_jobs];
    the result is [unique_jobs]. The clock is read once for each job
    that is scored: [clock i] is its reading for the job at position
    [i] of the input. *)
Fixpoint unique_jobs (clock : nat -> PyDate.datetime) (job_role : string)
    (i : nat) (seen : gset string) (jobs : list job) : list job :=
  match jobs with
  | [] => []
  | j :: rest =>
      let job_hash := _create_job_hash j in
      if bool_decide (job_hash ∉ seen) && _is_valid_job j
      then set_relevance_score j (_calculate_relevance (clock i) j job_role)
             :: unique_jobs clock job_role (S i) ({[ job_hash ]} ∪ seen) rest
      else unique_jobs clock job_role (S i) seen rest
  end.

(** [x.get('relevance_score', 0)] *)
Definition score_key (j : job) : Z := default 0 (relevance_score j).

(** [JobSearchEngine._remove_duplicates_and_rank] *)
Definition _remove_duplicates_and_rank (clock : nat -> PyDate.datetime)
    (jobs : list job) (job_role : string) : list job :=
  let unique := unique_jobs clock job_role 0 ∅ jobs in
  slice_to 50 (sort_desc score_key unique).

(** [JobSearchEngine._safe_search] *)
Definition _safe_search (r : adapter_result) : list job :=
  match r with
  | Returned jobs => jobs
  | Raised => []
  end.

(** [JobSearchEngine._generate_search_summary] *)
Definition _generate_search_summary (r : results) : search_summary :=
  SearchSummary (total_jobs r) (Z.of_nat (size (sources r)))
                (fmap (fun jobs : list job => Z.of_nat (length jobs)) (sources r))
                (r_timestamp r).

Definition source_names : list string :=
  ["linkedin"; "naukri"; "indeed"; "freshersworld"; "monster"].

(** [source_names[i] if i < len(source_names) else f'source_{i}'] *)
Definition source_name (i : nat) : string :=
  match source_names !! i with
  | Some name => name
  | None => "source_" +:+ pretty i
  end.

(** The tasks, in the order in which they are submitted. *)
Definition search_tasks : list api :=
  [linkedin_api; naukri_api; indeed_api; freshers_api; monster_api].

(** [self.source_name] of the adapters. *)
Definition adapter_name (a : api) : string :=
  match a with
  | linkedin_api => "LinkedIn"
  | naukri_api => "Naukri"
  | indeed_api => "Indeed"
  | freshers_api => "FreshersWorld"
  | monster_api => "Monster"
  end.

(** The two statements in front of the [try] block of
    [comprehensive_job_search]: [filters = filters or {}] and
    [experience_level = filters.get('experience_level', 'entry')]. A
    value that is true and is no dictionary has no method [get]: the
    error leaves the function, which is [None] here. *)
Definition requested_experience_level (filters : json) : option json :=
  match filters with
  | json_dict fields => Some (default (json_str "entry") (fields !! "experience_level"))
  | json_null | json_bool false | json_list [] => Some (json_str "entry")
  | json_bool true | json_list (_ :: _) => None
  | json_int z => if z =? 0 then Some (json_str "entry") else None
  | json_str s => if PyStr.truthy s then None else Some (json_str "entry")
  end.

(** [type(v).__name__] *)
Definition type_name (v : json) : string :=
  match v with
  | json_null => "NoneType"
  | json_bool _ => "bool"
  | json_int _ => "int"
  | json_str _ => "str"
  | json_list _ => "list"
  | json_dict _ => "dict"
  end.

(** The adapter of LinkedIn writes the [experience_level] of the caller
    to each of its jobs, the other adapters write a text. The record
    [job] shows the value when it is a text; when the caller's value is
    no text, [job.get('experience_level', '').lower()] raises in
    [_calculate_relevance] for a job of LinkedIn. *)
Definition lower_raises (experience_level : json) (a : api) : bool :=
  match a, experience_level with
  | linkedin_api, json_str _ => false
  | linkedin_api, _ => true
  | _, _ => false
  end.

(** [str(e)] of that error. *)
Definition no_attribute_lower (v : json) : string :=
  "'" +:+ type_name v +:+ "' object has no attribute 'lower'".

(** The tasks that [as_completed] yields, in order. *)
Definition completions (steps : list step) : list (api * adapter_result) :=
  omap (λ s, match s with
             | task_done a result => Some (a, result)
             | status_emitted _ _ _ => None
             end) steps.

(** [results['all_jobs']] at the end of the collection, each job with
    the adapter that made it. *)
Definition merged (steps : list step) : list (api * job) :=
  completions steps ≫= λ task, (λ j, (task.1, j)) <$> _safe_search task.2.

(** The loop of [_remove_duplicates_and_rank] on the job dictionaries of
    a session, which [jobs] lists with their adapters. The loop writes
    the score to the dictionary of each job that it keeps. The result
    is the dictionaries as the loop leaves them, in the order of [jobs],
    and [unique_jobs], or [None] when [_calculate_relevance] raises: the
    jobs that were kept before have their scores then. *)
Fixpoint score_in_place (clock : nat -> PyDate.datetime) (job_role : string)
    (experience_level : json) (i : nat) (seen : gset string) (jobs : list (api * job))
    : list job * option (list job) :=
  match jobs with
  | [] => ([], Some [])
  | (a, j) :: rest =>
      let job_hash := _create_job_hash j in
      if bool_decide (job_hash ∉ seen) && _is_valid_job j
      then
        if lower_raises experience_level a then (j :: rest.*2, None)
        else
          let j := set_relevance_score j (_calculate_relevance (clock i) j job_role) in
          let '(dicts, unique) :=
            score_in_place clock job_role experience_level (S i)
                           ({[ job_hash ]} ∪ seen) rest in
          (j :: dicts, cons j <$> unique)
      else
        let '(dicts, unique) :=
          score_in_place clock job_role experience_level (S i) seen rest in
        (j :: dicts, unique)
  end.

(** [results['sources']] when the job dictionaries of the session, in
    the order of the merged list, are [dicts]: the list of the task that
    completes at index [i] is filed under the name at index [i] and holds
    the dictionaries of that task. *)
Fixpoint filed (i : nat) (steps : list step) (dicts : list job)
    (sources : gmap string (list job)) : gmap string (list job) :=
  match steps with
  | [] => sources
  | status_emitted _ _ _ :: rest => filed i rest dicts sources
  | task_done _ result :: rest =>
      let n := length (_safe_search result) in
      filed (S i) rest (drop n dicts) (<[ source_name i := take n dicts ]> sources)
  end.

Section Session.
(** The event sink. *)
Variable sink : event -> emit_result.

(** The trace of the delivered events. *)
Definition push (trace : list event) (e : event) : list event :=
  match sink e with
  | Delivered => (trace ++ [e])%list
  | EmitRaised _ => trace
  end.

(** [results['sources'][source_name] = source_jobs] and
    [results['all_jobs'].extend(source_jobs)]: the two lists hold the
    dictionaries that the task returned, to which the ranking writes
    later; [filed] gives the lists under [sources] after that. *)
Definition set_sources (r : results) (name : string) (jobs : list job) : results :=
  Results (r_job_role r) (r_location r) (r_timestamp r) (total_jobs r)
          (<[ name := jobs ]> (sources r)) (all_jobs r ++ jobs)%list
          (search_status r) (summary r) (error r).

(** The executor block: [steps] is what happens in it, in order; [i]
    is the counter of [enumerate]. [emit_status] catches what
    [socketio.emit] raises. The handler of the loop body catches an
    exception of [socketio.emit] after the results of the task have
    been recorded, and the loop goes on with the next task. *)
Fixpoint collect (i : nat) (steps : list step) (r : results)
    (trace : list event) : results * list event :=
  match steps with
  | [] => (r, trace)
  | status_emitted a message status :: rest =>
      let trace := push trace (thought (adapter_name a +:+ " Agent") message (Some status)) in
      collect i rest r trace
  | task_done _ result :: rest =>
      let source_jobs := _safe_search result in
      let r := set_sources r (source_name i) source_jobs in
      let trace :=
        push trace (source_completed (source_name i)
                      (Z.of_nat (length source_jobs))
                      (Z.of_nat (length (all_jobs r)))) in
      collect (S i) rest r trace
  end.

(** The handler of the outer [try]. When [socketio.emit] raises in
    the handler too, the error leaves the function. *)
Definition fail (r : results) (trace : list event) (message : string)
    : results * list event :=
  let r := Results (r_job_role r) (r_location r) (r_timestamp r) (total_jobs r)
                   (sources r) (all_jobs r) failed (summary r) (Some message) in
  (r, push trace (search_failed r)).

(** [JobSearchEngine.comprehensive_job_search]: the [results]
    dictionary when the function ends and the delivered events. [now]
    is the clock reading at the start, [clock] the readings of the
    ranking, [steps] what happens in the executor block.

    When [filters.get] raises, in front of the [try] block, the error
    leaves the function: no event is pushed and the dictionary stays as
    it was made. When fewer than the five tasks finish, [as_completed]
    waits for the next task without end and the function does not go
    on: the dictionary and the events are those of that moment.

    The ranking reads [results['all_jobs']], which [merged steps] lists
    with the adapters. *)
Definition comprehensive_job_search (now : PyDate.datetime)
    (clock : nat -> PyDate.datetime) (steps : list step)
    (job_role location : string) (filters : json) : results * list event :=
  let r0 := Results job_role location now 0 ∅ [] in_progress None None in
  match requested_experience_level filters with
  | None => (r0, [])
  | Some experience_level =>
      match sink (search_started job_role location) with
      | EmitRaised message => fail r0 [] message
      | Delivered =>
          let trace := [search_started job_role location] in
          let '(r, trace) := collect 0 steps r0 trace in
          if (length (completions steps) <? length search_tasks)%nat then (r, trace)
          else
            let ranking := thought "System" "Processing and ranking results..." None in
            match sink ranking with
            | EmitRaised message => fail r trace message
            | Delivered =>
                let trace := (trace ++ [ranking])%list in
                let '(dicts, unique) :=
                  score_in_place clock job_role experience_level 0 ∅ (merged steps) in
                let r := Results (r_job_role r) (r_location r) (r_timestamp r)
                                 (total_jobs r) (filed 0 steps dicts (sources r0)) dicts
                                 (search_status r) (summary r) (error r) in
                match unique with
                | None => fail r trace (no_attribute_lower experience_level)
                | Some unique =>
                    let ranked := slice_to 50 (sort_desc score_key unique) in
                    let r := Results (r_job_role r) (r_location r) (r_timestamp r)
                                     (Z.of_nat (length ranked)) (sources r) ranked
                                     completed (summary r) (error r) in
                    let r := Results (r_job_role r) (r_location r) (r_timestamp r)
                                     (total_jobs r) (sources r) (all_jobs r)
                                     (search_status r) (Some (_generate_search_summary r))
                                     (error r) in
                    match sink (search_completed r) with
                    | EmitRaised message => fail r trace message
                    | Delivered => (r, (trace ++ [search_completed r])%list)
                    end
                end
            end
      end
  end.

(** [JobSearchEngine.search_interview_questions]: the events of the
    engine that are delivered; the [thought] events that the question
    search pushes with its own [emit_status] are not listed. The
    question search is called without [question_count]. *)
Definition search_interview_questions
    (solve : string -> string -> option string -> string -> string -> option string)
    (fallback : string -> string -> string)
    (responses : list query_response)
    (domain : string) (company : option string) (difficulty : string)
    (question_count : Z) : list event :=
  let started := interview_search_started domain company difficulty question_count in
  match sink started with
  | EmitRaised _ => push [] (interview_search_failed domain company)
  | Delivered =>
      let questions :=
        InterviewQuestionAPI.search_interview_questions solve fallback responses
          domain company difficulty InterviewQuestionAPI.default_question_count in
      let questions := slice_to question_count questions in
      let r := InterviewResults domain company difficulty questions
                                (Z.of_nat (length questions)) in
      match sink (interview_search_completed r) with
      | EmitRaised _ => push [started] (interview_search_failed domain company)
      | Delivered => [started; interview_search_completed r]
      end
  end.

End Session.

End JobSearchEngine.

(** ** The routes *)

(** A value of the JSON body of a request: a string, an integer, [null]
    or an object. Numbers that are not integers, booleans and arrays are
    not modelled. *)
Inductive jval :=
  | JStr (s : string)
  | JInt (z : Z)
  | JNull
  | JObject.

(** The thread that a route starts, with its arguments. *)
Inductive thread :=
  | job_search_thread (job_role location : string) (filters : option jval)
  | interview_search_thread (domain : string) (company : option string)
      (difficulty : string) (question_count : Z).

(** The answer of a route: the HTTP status, the message of the body
    (under the key [error] when the status is not 200) and the thread
    that was started, if any. *)
Record reply := Reply {
  status_code : Z;
  message : string;
  started : option thread }.

Module Routes.

(** A computation of a route body: a value, or an exception that the
    handler [except Exception] of the route turns into a status 500. *)
Inductive result (A : Type) :=
  | Ok (a : A)
  | Exn (e : string).
Arguments Ok {A} a.
Arguments Exn {A} e.

#[export] Instance result_bind : MBind result := fun A B k m =>
  match m with
  | Ok a => k a
  | Exn e => Exn e
  end.

(** [data.get(key, default)] *)
Definition get (data : gmap string jval) (key : string) (default : jval) : jval :=
  match data !! key with
  | Some v => v
  | None => default
  end.

(** The string methods [strip] and [lower] exist on strings only. *)
Definition as_str (v : jval) : result string :=
  match v with
  | JStr s => Ok s
  | _ => Exn "AttributeError"
  end.

(** [min(v, 20)]: an integer is compared, anything else raises. *)
Definition min_20 (v : jval) : result Z :=
  match v with
  | JInt z => Ok (Z.min z 20)
  | _ => Exn "TypeError"
  end.

Definition error (code : Z) (msg : string) : reply := Reply code msg None.

(** The handler of the route: [except Exception as e]. *)
Definition handle (prefix : string) (r : result reply) : reply :=
  match r with
  | Ok rep => rep
  | Exn e => error 500 (prefix +:+ e)
  end.

(** [if not data]: no JSON body, or an empty object. *)
Definition no_data (data : option (gmap string jval)) : bool :=
  match data with
  | None => true
  | Some d => bool_decide (d = ∅)
  end.

(** The route [/search-jobs]. *)
Definition search_jobs (request : option (gmap string jval)) : reply :=
  handle "Search failed: "
    (if no_data request then Ok (error 400 "No JSON data provided")
     else
       let data := default ∅ request in
       job_role ← as_str (get data "job_role" (JStr EmptyString));
       let job_role := PyStr.strip job_role in
       location ← as_str (get data "location" (JStr "Pune"));
       let location := PyStr.strip location in
       let filters := data !! "filters" in
       if negb (PyStr.truthy job_role) then Ok (error 400 "Job role is required")
       else if PyStr.len job_role <? 2
       then Ok (error 400 "Job role must be at least 2 characters")
       else Ok (Reply 200 "Job search initiated successfully"
                      (Some (job_search_thread job_role location filters)))).

Definition valid_domains : list string :=
  [ "DSA"; "SQL"; "OS"; "CN"; "DBMS"; "Machine Learning"; "Deep Learning";
    "Python"; "Java"; "System Design"; "JavaScript"; "React"; "Node.js";
    "Cloud Computing"; "DevOps"; "Cybersecurity"; "Blockchain" ].

(** [min(data.get('question_count', 10), 20)] *)
Definition question_count_of (data : gmap string jval) : result Z :=
  min_20 (get data "question_count" (JInt 10)).

(** The route [/interview-questions]. *)
Definition search_interview_questions (request : option (gmap string jval)) : reply :=
  handle "Interview question search failed: "
    (if no_data request then Ok (error 400 "No JSON data provided")
     else
       let data := default ∅ request in
       domain ← as_str (get data "domain" (JStr EmptyString));
       let domain := PyStr.strip domain in
       company ← as_str (get data "company" (JStr EmptyString));
       let company := PyStr.strip company in
       let company := if PyStr.truthy company then Some company else None in
       difficulty ← as_str (get data "difficulty" (JStr "all"));
       let difficulty := PyStr.lower difficulty in
       question_count ← question_count_of data;
       if negb (PyStr.truthy domain) then Ok (error 400 "Domain is required")
       else if PyStr.len domain <? 2
       then Ok (error 400 "Domain must be at least 2 characters")
       else if negb (bool_decide (domain ∈ valid_domains))
       then Ok (error 400 "Invalid domain")
       else Ok (Reply 200 "Enhanced interview question search initiated successfully"
                      (Some (interview_search_thread domain company difficulty
                               question_count)))).

End Routes.

(** ** [datetime.strftime] *)

Module PyStrftime.

(** The character of a decimal digit. *)
Definition digit_char (d : Z) : ascii := ascii_of_N (Z.to_N (48 + d)).

(** The directives [%m] and [%d]: two digits, with a leading zero. *)
Definition two_digits (n : Z) : string :=
  String (digit_char (n / 10)) (String (digit_char (n mod 10)) EmptyString).

(** The directive [%Y] as the C library prints it: the year in
    decimal, without leading zeros, for the years 1 to 9999 of a
    [datetime]. *)
Definition year_digits (y : Z) : string :=
  if y <? 10 then String (digit_char y) EmptyString
  else if y <? 100 then two_digits y
  else if y <? 1000 then String (digit_char (y / 100)) (two_digits (y mod 100))
  else String (digit_char (y / 1000))
         (String (digit_char (y / 100 mod 10)) (two_digits (y mod 100))).

(** [t.strftime('%Y-%m-%d')] *)
Definition strftime_Ymd (t : PyDate.datetime) : string :=
  year_digits (PyDate.year t) ++ "-" ++ two_digits (PyDate.month t)
    ++ "-" ++ two_digits (PyDate.day t).

End PyStrftime.

(** ** The adapters of FreshersWorld and Monster *)

(** An organic result of the search provider, with the keys that the
    adapters read. *)
Record organic_result := OrganicResult {
  o_title : option string;
  o_snippet : option string;
  o_link : option string }.

(** What the search provider does with the query of an adapter: the
    call raises, or it returns a dictionary that has organic results or
    not. *)
Inductive provider_answer :=
  | ProviderRaised
  | ProviderReturned (organic_results : option (list organic_result)).

Module FreshersWorldAPI.

(** The job dictionary built for one organic result; [now] is what
    [datetime.now()] returns when it is built. The keys [location],
    [salary] and [skills], which the engine does not read, are left
    out. *)
Definition job_of (now : PyDate.datetime) (result : organic_result) : job :=
  Job (Some (get_str (o_title result))) (Some "Various Companies")
      (Some (get_str (o_link result))) (Some (get_str (o_snippet result)))
      (Some "FreshersWorld") (Some "Fresher") (Some "Full-time")
      (Some (PyStrftime.strftime_Ymd now)) None.

(** The loop over the organic results; [clock i] is the clock reading
    at the result of position [i]. *)
Fixpoint jobs_of (clock : nat -> PyDate.datetime) (i : nat)
    (organic_results : list organic_result) : list job :=
  match organic_results with
  | [] => []
  | result :: rest =>
      if PyStr.contains "freshersworld.com" (get_str (o_link result))
      then job_of (clock i) result :: jobs_of clock (S i) rest
      else jobs_of clock (S i) rest
  end.

(** [FreshersWorldAPI.search_jobs]; the role and the location of the
    search are in the query that [answer] answers. An exception of the
    provider is caught and gives no jobs. *)
Definition search_jobs (clock : nat -> PyDate.datetime) (answer : provider_answer)
    : list job :=
  match answer with
  | ProviderRaised => []
  | ProviderReturned None => slice_to 8 []
  | ProviderReturned (Some organic_results) => slice_to 8 (jobs_of clock 0 organic_results)
  end.

End FreshersWorldAPI.

Module MonsterJobAPI.

(** [s.split(sep)] for a separator of one character. *)
Fixpoint split_on (sep : ascii) (s : string) : list string :=
  match s with
  | EmptyString => [EmptyString]
  | String c r =>
      if Ascii.eqb c sep then EmptyString :: split_on sep r
      else
        match split_on sep r with
        | first :: others => String c first :: others
        | [] => [String c EmptyString]
        end
  end.

(** [MonsterJobAPI._extract_company] *)
Definition _extract_company (snippet : string) : string :=
  match split_on "." snippet with
  | first :: _ => PyStr.strip first
  | [] => "Company Not Specified"
  end.

Definition job_of (now : PyDate.datetime) (result : organic_result) : job :=
  Job (Some (get_str (o_title result)))
      (Some (_extract_company (get_str (o_snippet result))))
      (Some (get_str (o_link result))) (Some (get_str (o_snippet result)))
      (Some "Monster") (Some "Entry Level") (Some "Full-time")
      (Some (PyStrftime.strftime_Ymd now)) None.

Fixpoint jobs_of (clock : nat -> PyDate.datetime) (i : nat)
    (organic_results : list organic_result) : list job :=
  match organic_results with
  | [] => []
  | result :: rest =>
      if PyStr.contains "monster.co.in" (get_str (o_link result))
      then job_of (clock i) result :: jobs_of clock (S i) rest
      else jobs_of clock (S i) rest
  end.

(** [MonsterJobAPI.search_jobs] *)
Definition search_jobs (clock : nat -> PyDate.datetime) (answer : provider_answer)
    : list job :=
  match answer with
  | ProviderRaised => []
  | ProviderReturned None => slice_to 8 []
  | ProviderReturned (Some organic_results) => slice_to 8 (jobs_of clock 0 organic_results)
  end.

End MonsterJobAPI.

(** ** The sources of interview questions *)

(** [any(x in text for x in words)] *)
Definition any_in (words : list string) (text : string) : bool :=
  existsb (λ word, PyStr.contains word text) words.

(** [sum(1 for x in words if x in text)] *)
Definition count_in (words : list string) (text : string) : Z :=
  Z.of_nat (length (filter (λ word, PyStr.contains word text = true) words)).

(** [s.endswith(c)] for one character [c]. *)
Fixpoint ends_with (c : ascii) (s : string) : bool :=
  match s with
  | EmptyString => false
  | String a EmptyString => Ascii.eqb a c
  | String _ r => ends_with c r
  end.

(** The dictionary that [_analyze_source_credibility] returns. *)
Record source_info := SourceInfo { source_type : string; score : Z }.

Module QuestionSources.

(** [InterviewQuestionAPI._analyze_source_credibility] *)
Definition _analyze_source_credibility (url title : string) : source_info :=
  let credibility_score := 0 in
  let source_type := "unknown" in
  if negb (PyStr.truthy url) then SourceInfo "unknown" 0
  else
    let url_lower := PyStr.lower url in
    let title_lower := PyStr.lower title in
    let '(credibility_score, source_type) :=
      if any_in ["leetcode.com"; "interviewbit.com"; "geeksforgeeks.org"] url_lower
      then (9, "coding_platform")
      else if any_in ["glassdoor.co.in"; "glassdoor.com"; "ambitionbox.com"] url_lower
      then (8, "job_review")
      else if any_in ["github.com"; "stackoverflow.com"] url_lower
      then (7, "developer_community")
      else if any_in ["medium.com"; "dev.to"; "hackernoon.com"] url_lower
      then (6, "tech_blog")
      else if any_in ["careercup.com"; "pramp.com"] url_lower
      then (8, "interview_prep")
      else if any_in ["interview experience"; "asked in interview"; "interview questions"]
                title_lower
      then (credibility_score + 3, "interview_experience")
      else (credibility_score, source_type) in
    let credibility_score :=
      if any_in ["2024"; "2023"; "2022"] title_lower
      then credibility_score + 1 else credibility_score in
    SourceInfo source_type credibility_score.

(** [InterviewQuestionAPI._is_safe_url] *)
Definition _is_safe_url (url : string) : bool :=
  if negb (PyStr.truthy url) then false
  else
    any_in [ "leetcode.com"; "interviewbit.com"; "geeksforgeeks.org";
             "glassdoor.co.in"; "glassdoor.com"; "ambitionbox.com";
             "careercup.com"; "github.com"; "stackoverflow.com";
             "medium.com"; "dev.to"; "hackernoon.com" ]
           (PyStr.lower url).

(** [InterviewQuestionAPI._determine_question_difficulty] *)
Definition _determine_question_difficulty (question_text domain : string) : string :=
  let question_lower := PyStr.lower question_text in
  let easy_count :=
    count_in [ "what is"; "define"; "explain"; "basic"; "introduction";
               "difference between"; "types of"; "advantages"; "disadvantages";
               "simple"; "basic concept"; "fundamental" ] question_lower in
  let medium_count :=
    count_in [ "implement"; "design"; "algorithm"; "optimize"; "efficient";
               "time complexity"; "space complexity"; "approach"; "solution";
               "strategy"; "method" ] question_lower in
  let hard_count :=
    count_in [ "advanced"; "complex"; "distributed"; "scalable"; "architecture";
               "system design"; "optimization"; "performance"; "large scale";
               "trade-offs"; "design patterns"; "microservices" ] question_lower in
  if (0 <? hard_count) || (200 <? PyStr.len question_text) then "Hard"
  else if (easy_count <? medium_count)
          || any_in ["implement"; "algorithm"; "code"] question_lower
  then "Medium"
  else "Easy".

(** [InterviewQuestionAPI._classify_question_type] *)
Definition _classify_question_type (question_text domain : string) : string :=
  let question_lower := PyStr.lower question_text in
  if any_in ["implement"; "write"; "code"; "program"; "function"] question_lower
  then "Coding"
  else if any_in ["design"; "architecture"; "system"; "scalable"] question_lower
  then "System Design"
  else if any_in ["what is"; "define"; "explain"; "describe"] question_lower
  then "Conceptual"
  else if any_in ["difference"; "compare"; "vs"; "versus"] question_lower
  then "Comparison"
  else if any_in ["optimize"; "improve"; "efficient"; "better"] question_lower
  then "Optimization"
  else "General".

(** The pattern [\b(202[0-5]|201[5-9])\b] at the start of [s], when the
    character before [s] is not a word character. *)
Definition year_at (s : string) : option Z :=
  match s with
  | String a (String b (String c (String d r))) =>
      let after_is_boundary :=
        match r with
        | EmptyString => true
        | String e _ => negb (PyStr.is_word e)
        end in
      match PyDate.digit d with
      | Some n =>
          if Ascii.eqb a "2" && Ascii.eqb b "0" && after_is_boundary
             && ((Ascii.eqb c "2" && (n <=? 5)) || (Ascii.eqb c "1" && (5 <=? n)))
          then Some (if Ascii.eqb c "2" then 2020 + n else 2010 + n)
          else None
      | None => None
      end
  | _ => None
  end.

(** The first match of the pattern in [s]; [after_word] tells that the
    character before [s] is a word character. *)
Fixpoint first_year (after_word : bool) (s : string) : option Z :=
  match s with
  | EmptyString => None
  | String c r =>
      match (if after_word then None else year_at s) with
      | Some year => Some year
      | None => first_year (PyStr.is_word c) r
      end
  end.

(** [InterviewQuestionAPI._extract_year_from_text] *)
Definition _extract_year_from_text (text : string) : option Z := first_year false text.

(** [InterviewQuestionAPI._is_valid_interview_question] *)
Definition _is_valid_interview_question (text : string) : bool :=
  if negb (PyStr.truthy text) || (PyStr.len (PyStr.strip text) <? 10)
     || (1000 <? PyStr.len (PyStr.strip text))
  then false
  else
    let text_lower := PyStr.strip (PyStr.lower text) in
    if negb (ends_with "?" text) then false
    else
      let has_question_word :=
        any_in [ "what"; "how"; "why"; "when"; "where"; "which"; "who"; "whose";
                 "can"; "could"; "would"; "should"; "will"; "do"; "does"; "did";
                 "is"; "are"; "was"; "were"; "has"; "have"; "had";
                 "explain"; "describe"; "define"; "list"; "name"; "tell";
                 "write"; "implement"; "design"; "create"; "build"; "solve";
                 "find"; "calculate"; "compare"; "analyze"; "discuss"; "evaluate" ]
               text_lower in
      let has_excluded :=
        any_in [ "click here"; "read more"; "see also"; "related articles";
                 "advertisement"; "subscribe"; "follow us"; "share this";
                 "comments"; "reply"; "like this"; "vote up" ] text_lower in
      has_question_word && negb has_excluded.

Section Extraction.
(** [_extract_questions_from_text]: the texts that the question patterns
    find, in the order in which the set that holds them is listed. *)
Variable _extract_questions_from_text : string -> list string.
(** [_extract_company_from_text] *)
Variable _extract_company_from_text : string -> string.

(** [company or self._extract_company_from_text(text)] *)
Definition company_or (company : option string) (text : string) : string :=
  match company with
  | Some name => if PyStr.truthy name then name else _extract_company_from_text text
  | None => _extract_company_from_text text
  end.

(** The question dictionary built for one extracted text. *)
Definition question_of (question_text domain : string) (company : option string)
    (url title text : string) : question :=
  let source_info := _analyze_source_credibility url title in
  Question (Some (PyStr.strip question_text)) (Some domain)
           (Some (company_or company text))
           (Some (_determine_question_difficulty question_text domain))
           (Some (_classify_question_type question_text domain))
           (Some (score source_info)) (_extract_year_from_text text)
           (Some EmptyString) None.

(** [InterviewQuestionAPI._extract_questions_from_result] *)
Definition _extract_questions_from_result (result : organic_result) (domain : string)
    (company : option string) : list question :=
  let title := get_str (o_title result) in
  let snippet := get_str (o_snippet result) in
  let url := get_str (o_link result) in
  let text := title ++ " " ++ snippet in
  (λ question_text, question_of question_text domain company url title text)
    <$> List.filter _is_valid_interview_question (_extract_questions_from_text text).

End Extraction.

End QuestionSources.

(** ** The frequency tables of the summary *)

Module JobStatistics.

(** A dictionary of counts, in the order in which its keys were
    inserted. *)
Definition counts := list (string * Z).

(** [d[key] = d.get(key, 0) + 1] *)
Fixpoint increment (key : string) (d : counts) : counts :=
  match d with
  | [] => [(key, 1)]
  | (k, n) :: rest =>
      if String.eqb k key then (k, n + 1) :: rest
      else (k, n) :: increment key rest
  end.

(** [JobSearchEngine._get_job_type_distribution] *)
Definition _get_job_type_distribution (jobs : list job) : counts :=
  fold_left (λ job_types j, increment (default "Unknown" (job_type j)) job_types) jobs [].

(** [JobSearchEngine._get_experience_distribution] *)
Definition _get_experience_distribution (jobs : list job) : counts :=
  fold_left (λ exp_levels j, increment (default "Unknown" (experience_level j)) exp_levels)
            jobs [].

(** The loop of [_get_top_companies]: [company_count]. *)
Definition company_count (jobs : list job) : counts :=
  fold_left (λ company_count j,
      let company := default "Unknown" (company j) in
      if negb (String.eqb company "Company Not Specified")
         && negb (String.eqb company "Unknown")
      then increment company company_count
      else company_count)
    jobs [].

(** [JobSearchEngine._get_top_companies]: the pairs of [company] and
    [job_count]. *)
Definition _get_top_companies (jobs : list job) (limit : Z) : counts :=
  slice_to limit (sort_desc snd (company_count jobs)).

End JobStatistics.

(** ** The relevance check of the LinkedIn adapter *)

Module LinkedInJobAPI.

(** [LinkedInJobAPI._is_relevant_job] *)
Definition _is_relevant_job (j : job) (job_role : string) : bool :=
  let title := PyStr.lower (get_str (title j)) in
  let description := PyStr.lower (get_str (description j)) in
  let job_role_lower := PyStr.lower job_role in
  let ai_ml_keywords :=
    [ "ai"; "ml"; "machine learning"; "artificial intelligence";
      "data science"; "nlp"; "computer vision"; "deep learning" ] in
  let has_ai_ml :=
    existsb (λ keyword, PyStr.contains keyword title || PyStr.contains keyword description)
            ai_ml_keywords in
  let has_job_role :=
    PyStr.contains job_role_lower title
    || existsb (λ word, PyStr.contains word title) (PyStr.split job_role_lower) in
  has_ai_ml || has_job_role.

End LinkedInJobAPI.

(** ** The queries of the question search *)

Module PyCase.

Definition upper_char (c : ascii) : ascii :=
  if PyStr.is_lower c then ascii_of_N (N_of_ascii c - 32) else c.

(** [s.upper()] *)
Fixpoint upper (s : string) : string :=
  match s with
  | EmptyString => EmptyString
  | String c r => String (upper_char c) (upper r)
  end.

(** [s.title()]: a letter that follows a letter is made lower case,
    every other letter upper case. *)
Fixpoint title_from (after_letter : bool) (s : string) : string :=
  match s with
  | EmptyString => EmptyString
  | String c r =>
      let letter := PyStr.is_upper c || PyStr.is_lower c in
      String (if letter
              then (if after_letter then PyStr.lower_char c else upper_char c)
              else c)
             (title_from letter r)
  end.

Definition title (s : string) : string := title_from false s.

End PyCase.

Module QuestionQueries.

(** [self.interview_sources] *)
Definition interview_sources : list string :=
  [ "site:leetcode.com"; "site:interviewbit.com"; "site:geeksforgeeks.org";
    "site:glassdoor.co.in"; "site:ambitionbox.com"; "site:careercup.com";
    "site:stackoverflow.com"; "site:github.com"; "site:medium.com"; "site:dev.to";
    "site:hackernoon.com"; "site:towardsdatascience.com" ].

(** The dictionaries of the source, in the order of their keys. *)
Definition domain_terms : list (string * list string) :=
  [ ("DSA", ["data structures"; "algorithms"; "coding"; "programming"]);
    ("SQL", ["sql"; "database"; "mysql"; "postgresql"; "queries"]);
    ("OS", ["operating system"; "os"; "processes"; "threads"; "memory management"]);
    ("CN", ["computer networks"; "networking"; "tcp"; "ip"; "http"]);
    ("DBMS", ["database management"; "dbms"; "sql"; "normalization"; "transactions"]);
    ("Machine Learning", ["machine learning"; "ml"; "ai"; "algorithms"; "models"]);
    ("Deep Learning", ["deep learning"; "neural networks"; "tensorflow"; "pytorch"]);
    ("Python", ["python"; "programming"; "coding"; "scripting"]);
    ("Java", ["java"; "programming"; "coding"; "oop"]);
    ("System Design",
     ["system design"; "architecture"; "scalability"; "distributed systems"]) ].

Definition company_map : list (string * list string) :=
  [
    ("google", ["Google"; "Google India"; "Alphabet"]);
    ("microsoft", ["Microsoft"; "Microsoft India"; "MSFT"]);
    ("amazon", ["Amazon"; "Amazon India"; "AWS"]);
    ("meta", ["Meta"; "Facebook"; "FB"; "Meta India"]);
    ("apple", ["Apple"; "Apple India"]);
    ("netflix", ["Netflix"; "Netflix India"]);
    ("uber", ["Uber"; "Uber India"; "Uber Technologies"]);
    ("airbnb", ["Airbnb"; "Airbnb India"]);
    ("linkedin", ["LinkedIn"; "LinkedIn India"]);
    ("twitter", ["Twitter"; "X Corp"]);
    ("salesforce", ["Salesforce"; "Salesforce India"]);
    ("oracle", ["Oracle"; "Oracle India"; "Oracle Corporation"]);
    ("adobe", ["Adobe"; "Adobe India"; "Adobe Systems"]);
    ("intel", ["Intel"; "Intel India"; "Intel Corporation"]);
    ("nvidia", ["NVIDIA"; "Nvidia India"]);
    ("qualcomm", ["Qualcomm"; "Qualcomm India"]);
    ("ibm", ["IBM"; "IBM India"; "International Business Machines"]);
    ("cisco", ["Cisco"; "Cisco Systems"; "Cisco India"]);
    ("vmware", ["VMware"; "VMWare India"]);
    ("servicenow", ["ServiceNow"; "ServiceNow India"]);
    ("snowflake", ["Snowflake"; "Snowflake Computing"]);
    ("databricks", ["Databricks"]);
    ("palantir", ["Palantir"; "Palantir Technologies"]);
    ("stripe", ["Stripe"; "Stripe India"]);
    ("shopify", ["Shopify"]);
    ("zoom", ["Zoom"; "Zoom Video Communications"]);
    ("slack", ["Slack"; "Slack Technologies"]);
    ("atlassian", ["Atlassian"]);
    ("gitlab", ["GitLab"]);
    ("github", ["GitHub"]);
    ("docker", ["Docker"; "Docker Inc"]);
    ("kubernetes", ["Kubernetes"]);
    ("tcs", ["TCS"; "Tata Consultancy Services"; "TATA"]);
    ("infosys", ["Infosys"; "Infosys Limited"]);
    ("wipro", ["Wipro"; "Wipro Limited"; "Wipro Technologies"]);
    ("hcl", ["HCL"; "HCL Technologies"; "HCLTech"]);
    ("accenture", ["Accenture"; "Accenture India"]);
    ("cognizant", ["Cognizant"; "CTS"; "Cognizant Technology Solutions"]);
    ("capgemini", ["Capgemini"; "Cap Gemini India"]);
    ("deloitte", ["Deloitte"; "Deloitte India"]);
    ("pwc", ["PwC"; "PricewaterhouseCoopers"]);
    ("ey", ["EY"; "Ernst & Young"]);
    ("kpmg", ["KPMG"; "KPMG India"]);
    ("flipkart", ["Flipkart"; "Flipkart India"]);
    ("paytm", ["Paytm"; "PayTM"; "One97 Communications"]);
    ("ola", ["Ola"; "Ola Cabs"; "Ola Electric"]);
    ("zomato", ["Zomato"; "Zomato India"]);
    ("swiggy", ["Swiggy"]);
    ("byju", ["BYJU'S"; "Byjus"; "Think and Learn"]);
    ("unacademy", ["Unacademy"]);
    ("phonepe", ["PhonePe"; "Phone Pe"]);
    ("razorpay", ["Razorpay"]);
    ("freshworks", ["Freshworks"; "Freshdesk"]);
    ("zoho", ["Zoho"; "Zoho Corporation"]);
    ("mindtree", ["Mindtree"; "LTI Mindtree"]) ].

(** [domain_terms.get(domain, [domain.lower()])] *)
Definition domain_keywords (domain : string) : list string :=
  match List.find (λ entry, String.eqb entry.1 domain) domain_terms with
  | Some entry => entry.2
  | None => [PyStr.lower domain]
  end.

(** [InterviewQuestionAPI._get_company_variations] *)
Definition _get_company_variations (company : string) : list string :=
  let company_lower := PyStr.lower company in
  match List.find (λ entry, PyStr.contains entry.1 company_lower
                            || PyStr.contains company_lower entry.1) company_map with
  | Some entry => entry.2
  | None => [company; PyCase.upper company; PyCase.title company; company ++ " India"]
  end.

(** The text of an integer in an f-string. *)
Definition str (n : Z) : string := pretty n.

(** The eight queries for one name of the company and one keyword. *)
Definition company_queries (current_year : Z) (comp_name keyword : string) : list string :=
  let q := String (ascii_of_nat 34) EmptyString in
  [ q ++ comp_name ++ q ++ " interview questions " ++ keyword ++ " " ++ str current_year
      ++ " " ++ str (current_year - 1);
    comp_name ++ " " ++ keyword ++ " interview experience " ++ str current_year;
    comp_name ++ " technical interview " ++ keyword ++ " questions recent";
    q ++ comp_name ++ q ++ " coding interview " ++ keyword ++ " asked questions";
    comp_name ++ " " ++ keyword ++ " interview questions asked site:leetcode.com";
    comp_name ++ " " ++ keyword ++ " interview questions site:geeksforgeeks.org";
    comp_name ++ " " ++ keyword ++ " interview experience site:glassdoor.co.in";
    q ++ comp_name ++ q ++ " " ++ keyword ++ " interview questions site:interviewbit.com" ].

(** The six general queries for one keyword. *)
Definition general_queries (current_year : Z) (keyword : string) : list string :=
  [ keyword ++ " interview questions " ++ str current_year ++ " "
      ++ str (current_year - 1) ++ " india";
    keyword ++ " coding interview questions asked recently";
    keyword ++ " technical interview questions and answers " ++ str current_year;
    "recent " ++ keyword ++ " interview questions indian companies";
    keyword ++ " interview preparation questions " ++ str current_year;
    keyword ++ " interview questions asked in top companies" ].

(** The query for one source and one keyword. *)
Definition source_query (current_year : Z) (source keyword : string) : string :=
  keyword ++ " interview questions " ++ source ++ " " ++ str current_year.

(** [InterviewQuestionAPI._generate_dynamic_search_queries];
    [current_year] is [datetime.now().year]. *)
Definition _generate_dynamic_search_queries (current_year : Z) (domain : string)
    (company : option string) (difficulty : string) : list string :=
  let queries : list string := [] in
  let domain_keywords := domain_keywords domain in
  let queries :=
    match company with
    | Some name =>
        if PyStr.truthy name then
          let company_variations := _get_company_variations name in
          (queries ++
             (slice_to 3 company_variations ≫= λ comp_name,
                slice_to 2 domain_keywords ≫= λ keyword,
                  company_queries current_year comp_name keyword))%list
        else queries
    | None => queries
    end in
  let queries :=
    (queries ++ (domain_keywords ≫= λ keyword, general_queries current_year keyword))%list in
  let queries :=
    (queries ++
       (slice_to 6 interview_sources ≫= λ source,
          slice_to 1 domain_keywords ≫= λ keyword,
            [source_query current_year source keyword]))%list in
  slice_to 15 queries.

(** [search_queries[:5]]: the queries that the question search sends. *)
Definition sent_queries (current_year : Z) (domain : string) (company : option string)
    (difficulty : string) : list string :=
  slice_to 5 (_generate_dynamic_search_queries current_year domain company difficulty).

End QuestionQueries.

(** ** The route that generates the PDF *)

(** The arguments of [generate_enhanced_pdf]. *)
Record pdf_request := PdfRequest {
  pdf_domain : string;
  pdf_questions : list json;
  pdf_company : option string;
  pdf_include_solutions : json;
  pdf_difficulty_filter : json }.

(** The answer of the route: an error with its status, or the file. *)
Inductive pdf_reply :=
  | pdf_error (code : Z) (message : string)
  | pdf_file (call : pdf_request) (filename : string).

Module PdfRoute.

#[local] Existing Instance Routes.result_bind.

(** [bool(v)] *)
Definition truthy (v : json) : bool :=
  match v with
  | json_null => false
  | json_bool b => b
  | json_int z => negb (z =? 0)
  | json_str s => PyStr.truthy s
  | json_list items => negb (Nat.eqb (length items) 0)
  | json_dict fields => negb (Nat.eqb (size fields) 0)
  end.

(** [d.get(key, fallback)] *)
Definition get (fields : gmap string json) (key : string) (fallback : json) : json :=
  default fallback (fields !! key).

(** The method [get] exists on dictionaries only, and the methods
    [strip] and [lower] on strings only. *)
Definition as_dict (v : json) : Routes.result (gmap string json) :=
  match v with
  | json_dict fields => Routes.Ok fields
  | _ => Routes.Exn "AttributeError"
  end.

Definition as_str (v : json) : Routes.result string :=
  match v with
  | json_str s => Routes.Ok s
  | _ => Routes.Exn "AttributeError"
  end.

(** The items that a loop over [v] visits: the items of a list, the
    characters of a string, the keys of a dictionary (in an order that
    the model leaves open); anything else is not iterable. *)
Definition iterate (v : json) : Routes.result (list json) :=
  match v with
  | json_list items => Routes.Ok items
  | json_str s => Routes.Ok ((λ c, json_str (String c EmptyString)) <$> list_ascii_of_string s)
  | json_dict fields => Routes.Ok ((λ entry, json_str entry.1) <$> map_to_list fields)
  | _ => Routes.Exn "TypeError"
  end.

(** [difficulty_filter != 'all'] *)
Definition is_all (v : json) : bool :=
  match v with
  | json_str s => String.eqb s "all"
  | _ => false
  end.

(** [q.get('difficulty', '').lower() == difficulty_filter.lower()] *)
Definition matches_difficulty (difficulty_filter q : json) : Routes.result bool :=
  fields ← as_dict q;
  difficulty ← as_str (get fields "difficulty" (json_str EmptyString));
  wanted ← as_str difficulty_filter;
  Routes.Ok (String.eqb (PyStr.lower difficulty) (PyStr.lower wanted)).

(** The list comprehension that filters the questions. *)
Fixpoint filter_by_difficulty (difficulty_filter : json) (questions : list json)
    : Routes.result (list json) :=
  match questions with
  | [] => Routes.Ok []
  | q :: rest =>
      keep ← matches_difficulty difficulty_filter q;
      kept ← filter_by_difficulty difficulty_filter rest;
      Routes.Ok (if (keep : bool) then q :: kept else kept)
  end.

(** The loop that validates the questions: the message of the first
    error, if any. [i] is the counter of [enumerate]. *)
Fixpoint validate (i : nat) (questions : list json) : option string :=
  match questions with
  | [] => None
  | json_dict fields :: rest =>
      if negb (truthy (get fields "question" json_null))
      then Some ("Question " ++ pretty (S i) ++ " missing required field: question")
      else if negb (truthy (get fields "domain" json_null))
      then Some ("Question " ++ pretty (S i) ++ " missing required field: domain")
      else validate (S i) rest
  | _ :: _ => Some ("Question " ++ pretty (S i) ++ " must be a dictionary")
  end.

(** [s.replace(' ', '_')] *)
Fixpoint replace_blanks (s : string) : string :=
  match s with
  | EmptyString => EmptyString
  | String c r => String (if Ascii.eqb c " " then "_"%char else c) (replace_blanks r)
  end.

(** [t.strftime('%Y%m%d_%H%M%S')] *)
Definition strftime_stamp (t : PyDate.datetime) : string :=
  PyStrftime.year_digits (PyDate.year t) ++ PyStrftime.two_digits (PyDate.month t)
    ++ PyStrftime.two_digits (PyDate.day t) ++ "_"
    ++ PyStrftime.two_digits (PyDate.hour t) ++ PyStrftime.two_digits (PyDate.minute t)
    ++ PyStrftime.two_digits (PyDate.second t).

(** The body of the route up to the call of the generator: an early
    answer, or the arguments of the call. *)
Definition prepare (request : option json) : Routes.result (pdf_reply + pdf_request) :=
  match request with
  | None => Routes.Ok (inl (pdf_error 400 "No JSON data provided"))
  | Some data =>
      if negb (truthy data) then Routes.Ok (inl (pdf_error 400 "No JSON data provided"))
      else
        fields ← as_dict data;
        domain ← as_str (get fields "domain" (json_str EmptyString));
        let domain := PyStr.strip domain in
        let questions := get fields "questions" (json_list []) in
        company ← as_str (get fields "company" (json_str EmptyString));
        let company := PyStr.strip company in
        let company := if PyStr.truthy company then Some company else None in
        let include_solutions := get fields "include_solutions" (json_bool true) in
        let difficulty_filter := get fields "difficulty_filter" (json_str "all") in
        if negb (PyStr.truthy domain) then Routes.Ok (inl (pdf_error 400 "Domain is required"))
        else if negb (truthy questions)
        then Routes.Ok (inl (pdf_error 400 "Questions list is required"))
        else
          questions ← iterate questions;
          questions ←
            (if is_all difficulty_filter then Routes.Ok questions
             else filter_by_difficulty difficulty_filter questions);
          match validate 0 questions with
          | Some message => Routes.Ok (inl (pdf_error 400 message))
          | None =>
              Routes.Ok (inr (PdfRequest domain questions company include_solutions
                                difficulty_filter))
          end
  end.

Section Route.
(** [generate_enhanced_pdf] returns a buffer, or it raises. *)
Variable generate_enhanced_pdf : pdf_request -> bool.
(** The text of a value that is not a string, in an f-string. *)
Variable format : json -> string.
(** The clock reading after the PDF has been generated. *)
Variable now : PyDate.datetime.

Definition filename (call : pdf_request) : string :=
  let filename := "interview_prep_" ++ replace_blanks (PyStr.lower (pdf_domain call)) in
  let filename :=
    match pdf_company call with
    | Some company => filename ++ "_" ++ replace_blanks (PyStr.lower company)
    | None => filename
    end in
  let filename :=
    if is_all (pdf_difficulty_filter call) then filename
    else filename ++ "_" ++ match pdf_difficulty_filter call with
                             | json_str s => s
                             | v => format v
                             end in
  filename ++ "_" ++ strftime_stamp now ++ ".pdf".

(** The route [/generate-interview-pdf]. *)
Definition generate_interview_pdf (request : option json) : pdf_reply :=
  match
    (prepared ← prepare request;
     match prepared with
     | inl reply => Routes.Ok reply
     | inr call =>
         if generate_enhanced_pdf call then Routes.Ok (pdf_file call (filename call))
         else Routes.Exn "Exception"
     end)
  with
  | Routes.Ok reply => reply
  | Routes.Exn e => pdf_error 500 ("PDF generation failed: " ++ e)
  end.

End Route.

End PdfRoute.

(** ** The adapter of Indeed *)

Module IndeedJobAPI.

(** [s.replace(old, '')] for a text [old] that is not empty: the
    matches are taken from the left; [skip] counts the characters of a
    match that are still to be passed. *)
Fixpoint remove_from (old : string) (skip : nat) (s : string) : string :=
  match s with
  | EmptyString => EmptyString
  | String c r =>
      match skip with
      | S k => remove_from old k r
      | O =>
          if PyStr.starts_with old s then remove_from old (String.length old - 1) r
          else String c (remove_from old 0 r)
      end
  end.

(** [s.split(sep)] for a separator of several characters. *)
Fixpoint split_from (sep : string) (skip : nat) (s : string) : list string :=
  match s with
  | EmptyString => [EmptyString]
  | String c r =>
      match skip with
      | S k => split_from sep k r
      | O =>
          if PyStr.starts_with sep s
          then EmptyString :: split_from sep (String.length sep - 1) r
          else
            match split_from sep 0 r with
            | first :: others => String c first :: others
            | [] => [String c EmptyString]
            end
      end
  end.

(** [IndeedJobAPI._extract_company_from_title] *)
Definition _extract_company_from_title (title : string) : string :=
  if PyStr.contains " - " title then
    let parts := split_from " - " 0 title in
    if (1 <? Z.of_nat (length parts))%Z
    then PyStr.strip (List.last parts EmptyString)
    else "Company Not Specified"
  else "Company Not Specified".

(** [IndeedJobAPI._parse_indeed_result]; [now] is the clock reading
    when the dictionary is built. *)
Definition _parse_indeed_result (now : PyDate.datetime) (result : organic_result)
    : option job :=
  let title := PyStr.strip (remove_from " - Indeed" 0 (get_str (o_title result))) in
  let snippet := get_str (o_snippet result) in
  if negb (PyStr.truthy title) then None
  else
    Some (Job (Some title) (Some (_extract_company_from_title title))
              (Some (get_str (o_link result))) (Some snippet)
              (Some "Indeed") (Some "Entry Level") (Some "Full-time")
              (Some (PyStrftime.strftime_Ymd now)) None).

(** The loop over the organic results of one query. *)
Fixpoint jobs_of (clock : nat -> PyDate.datetime) (i : nat)
    (organic_results : list organic_result) : list job :=
  match organic_results with
  | [] => []
  | result :: rest =>
      let link := get_str (o_link result) in
      if PyStr.contains "indeed.co.in" link || PyStr.contains "indeed.com" link then
        match _parse_indeed_result (clock i) result with
        | Some j => j :: jobs_of clock (S i) rest
        | None => jobs_of clock (S i) rest
        end
      else jobs_of clock (S i) rest
  end.

(** The jobs of one query; a query whose call raises is passed over. *)
Definition jobs_of_query (clock : nat -> PyDate.datetime) (answer : provider_answer)
    : list job :=
  match answer with
  | ProviderReturned (Some organic_results) => jobs_of clock 0 organic_results
  | ProviderReturned None | ProviderRaised => []
  end.

(** [IndeedJobAPI.search_jobs]: the answers of the provider to the two
    queries that are sent, each with the clock readings at its
    results. *)
Definition search_jobs (clock1 clock2 : nat -> PyDate.datetime)
    (answer1 answer2 : provider_answer) : list job :=
  slice_to 10 (jobs_of_query clock1 answer1 ++ jobs_of_query clock2 answer2).

End IndeedJobAPI.

(** * The vocabulary of the properties *)

(** [x] is not ranked after [y]. *)
Definition desc {A : Type} (key : A -> Z) (x y : A) : Prop := key y <= key x.

(** Two clock readings of the same calendar day. *)
Definition same_day (a b : PyDate.datetime) : Prop :=
  PyDate.year a = PyDate.year b /\ PyDate.month a = PyDate.month b /\
  PyDate.day a = PyDate.day b.

(** A request is rejected: an error status and no thread. *)
Definition rejected (r : reply) : Prop :=
  started r = None /\ (status_code r = 400 \/ status_code r = 500).

(** The question dictionary without its [solution] key. *)
Definition unsolved (q : question) : question :=
  Question (q_question q) (q_domain q) (q_company q) (q_difficulty q)
           (q_question_type q) (q_credibility_score q) (q_year q)
           None (q_relevance_score q).

(** The ranked questions of a search: what [search_interview_questions]
    has before it cuts and enhances. *)
Definition ranked_questions (responses : list query_response) (domain : string)
    (company : option string) (question_count : Z) : list question :=
  InterviewQuestionAPI._filter_relevant_questions
    (InterviewQuestionAPI._remove_duplicate_questions
       (InterviewQuestionAPI.gather_queries question_count [] (take 5 responses)))
    domain company.

(** The jobs that the tasks return, in the order of completion. *)
Definition arrived (steps : list step) : list job := (JobSearchEngine.merged steps).*2.

(** The name under which the engine means to file an adapter: the name
    at the position of its task in the order of submission. *)
Definition api_name (a : api) : string :=
  match a with
  | linkedin_api => "linkedin"
  | naukri_api => "naukri"
  | indeed_api => "indeed"
  | freshers_api => "freshersworld"
  | monster_api => "monster"
  end.

(** A job that the loop has scored at the clock reading [now]. *)
Definition scored_at (now : PyDate.datetime) (job_role : string) (j : job) : Prop :=
  relevance_score j = Some (JobSearchEngine._calculate_relevance now j job_role).

(** ** Keeping the first arrival of every key *)

Section FirstSeen.
Context {A : Type} (key : A -> string) (ok : A -> bool).
Implicit Types (x : A) (l : list A) (seen : gset string).

(** The loop shared by the two deduplicators: an item is kept when its
    key has not been seen and it passes the check [ok]; only the keys of
    the kept items are recorded. *)
Fixpoint first_seen seen l : list A :=
  match l with
  | [] => []
  | x :: r =>
      if bool_decide (key x ∉ seen) && ok x
      then x :: first_seen ({[ key x ]} ∪ seen) r
      else first_seen seen r
  end.

(** The item at position [i] passes the check, and no item before it
    that passes the check has its key. *)
Definition first_arrival l (i : nat) : Prop :=
  ∃ x, l !! i = Some x ∧ ok x ∧
       ∀ i' y, (i' < i)%nat -> l !! i' = Some y -> ok y -> key y ≠ key x.

Definition first_arrival_b l (i : nat) : bool :=
  match l !! i with
  | Some x => ok x && forallb (λ y, negb (ok y && String.eqb (key y) (key x))) (take i l)
  | None => false
  end.

(** The items of [l] at the positions of the first arrivals. *)
Definition first_arrivals_from (start : nat) l (n : nat) : list A :=
  omap (λ i, l !! i) (filter (λ i, first_arrival_b l i) (seq start n)).

End FirstSeen.

(** ** The questions that a search finds *)

(** Everything that the extractors find in the answers of the provider,
    in the order in which the question search reads it: query by query,
    result by result, the questions of the title and snippet before the
    questions of the page. *)
Definition extracted (responses : list query_response) : list question :=
  responses ≫= λ response,
    match response with
    | SearchReturned (Some organic_results) =>
        organic_results ≫= λ found, (found.1 ++ found.2)%list
    | SearchReturned None | SearchRaised => []
    end.

(** ** Sessions *)

(** The five tasks of the session finish. *)
Definition all_tasks_finish (steps : list step) : Prop :=
  length (JobSearchEngine.completions steps) = length JobSearchEngine.search_tasks.

(** The event of the step at position [p]: the status of an adapter
    under the name of its agent; for a task that completes, the name at
    its index of completion, the number of its jobs and the number of
    jobs that have arrived so far. *)
Definition step_event (steps : list step) (p : nat) : option event :=
  match steps !! p with
  | Some (status_emitted a message status) =>
      Some (thought (JobSearchEngine.adapter_name a +:+ " Agent") message (Some status))
  | Some (task_done _ result) =>
      Some (source_completed
              (JobSearchEngine.source_name (length (JobSearchEngine.completions (take p steps))))
              (Z.of_nat (length (JobSearchEngine._safe_search result)))
              (Z.of_nat (length (arrived (take (S p) steps)))))
  | None => None
  end.

(** The event that the engine pushes in front of the ranking. *)
Definition ranking_starts : event :=
  thought "System" "Processing and ranking results..." None.

(** The jobs of the merged list that the loop of the ranking keeps, with
    their adapters: the first valid arrival of every digest. *)
Definition kept_jobs (steps : list step) : list (api * job) :=
  first_seen (λ t : api * job, JobSearchEngine._create_job_hash t.2)
             (λ t : api * job, JobSearchEngine._is_valid_job t.2) ∅
             (JobSearchEngine.merged steps).

(** The ranking of a session raises: the experience level of the caller
    is no text and the loop keeps a job of LinkedIn. *)
Definition ranking_raises (experience_level : json) (steps : list step) : bool :=
  existsb (λ t : api * job, JobSearchEngine.lower_raises experience_level t.1)
          (kept_jobs steps).

(** A job with the score that the ranking gives it at the clock reading
    [now]. *)
Definition scored (now : PyDate.datetime) (job_role : string) (j : job) : job :=
  set_relevance_score j (JobSearchEngine._calculate_relevance now j job_role).

(** ** Postings *)

(** The age in days of a posting of the day of [posted], at the clock
    reading [now]. *)
Definition age_in_days (now posted : PyDate.datetime) : Z :=
  PyDate.toordinal now - PyDate.toordinal posted.

(** The day of a clock reading, at midnight. *)
Definition midnight (t : PyDate.datetime) : PyDate.datetime :=
  PyDate.DateTime (PyDate.year t) (PyDate.month t) (PyDate.day t) 0 0 0 0.

(** The text of [s] before the first occurrence of the character [sep]. *)
Fixpoint before (sep : ascii) (s : string) : string :=
  match s with
  | EmptyString => EmptyString
  | String c r => if Ascii.eqb c sep then EmptyString else String c (before sep r)
  end.

(** ** Frequency tables *)

(** The number of items of [l] whose key is [k]. *)
Definition occurrences {A} (key : A -> string) (k : string) (l : list A) : Z :=
  Z.of_nat (length (filter (λ x, key x = k) l)).

(** The sum of the counts of a table. *)
Definition total (d : JobStatistics.counts) : Z := foldr Z.add 0 d.*2.

(** The keys of the three tables. *)
Definition job_type_of (j : job) : string := default "Unknown" (job_type j).
Definition experience_of (j : job) : string := default "Unknown" (experience_level j).
Definition company_of (j : job) : string := default "Unknown" (company j).

(** A company that the table of the top companies counts. *)
Definition named_company (j : job) : Prop :=
  company_of j ≠ "Company Not Specified" ∧ company_of j ≠ "Unknown".

(** [d.get(key, 0)] on a table of counts. *)
Fixpoint count_of (d : JobStatistics.counts) (key : string) : Z :=
  match d with
  | [] => 0
  | (k, n) :: rest => if String.eqb k key then n else count_of rest key
  end.

(** The distinct texts of [l], in the order of their first occurrence. *)
Definition first_occurrences (l : list string) : list string :=
  first_seen id (λ _, true) ∅ l.

(** * The data of the examples *)

(** The first job of the scenario, posted on the first of January 2024. *)
Definition acme_job : job :=
  Job (Some "ML Engineer - Acme") (Some "Acme") (Some "https://jobs.example/1")
      (Some "machine learning role") (Some "LinkedIn") (Some "Fresher")
      (Some "Full-time") (Some "2024-01-01") None.

(** The second job of the scenario: the same posting in other words. *)
Definition acme_job_2 : job :=
  Job (Some "ml engineer @ acme") (Some "Acme") (Some "https://jobs.example/2")
      (Some "ml") (Some "Naukri") (Some "Fresher") (Some "Full-time")
      (Some "2024-01-03") None.

(** A job of the same key with a blank link. *)
Definition acme_job_no_url : job :=
  Job (Some "ML Engineer - Acme") (Some "Acme") (Some EmptyString)
      (Some "machine learning role") (Some "FreshersWorld") (Some "Fresher")
      (Some "Full-time") (Some "2024-01-01") None.

(** Three clock readings: two of one day and one of a later day. *)
Definition jan_5 : PyDate.datetime := PyDate.DateTime 2024 1 5 10 0 0 0.
Definition jan_5_evening : PyDate.datetime := PyDate.DateTime 2024 1 5 21 30 0 0.
Definition mar_1 : PyDate.datetime := PyDate.DateTime 2024 3 1 10 0 0 0.

Definition evening_question : question :=
  Question (Some "What is a heap?") (Some "DSA") (Some "Acme") (Some "Easy")
           (Some "Conceptual") (Some 9) (Some 2024) (Some EmptyString) None.

(** A sink that accepts every event, and a solution generator. *)
Definition every_event_delivered (_ : event) : emit_result := Delivered.

Definition one_solution (_ _ : string) (_ : option string) (_ _ : string) : option string :=
  Some "solution".

Definition one_fallback (_ _ : string) : string := "fallback".

(** The five questions of the scenario: a question of the domain has the
    score of its credibility plus 5. *)
Definition scenario_question (text domain : string) (credibility : Z) : question :=
  Question (Some text) (Some domain) (Some "Acme") (Some "Easy") (Some "Conceptual")
           (Some credibility) None (Some EmptyString) None.

Definition q_8_first := scenario_question "What is a binary heap?" "DSA" 3.
Definition q_2 := scenario_question "What is a primary key?" "SQL" 2.
Definition q_10 := scenario_question "What is a hash table?" "DSA" 5.
Definition q_5 := scenario_question "What is a linked list?" "DSA" 0.
Definition q_8_second := scenario_question "What is a trie?" "DSA" 3.

(** A question of another domain that passes the threshold of the
    relevance filter, with the score 4. *)
Definition q_4 := scenario_question "What is a foreign key?" "SQL" 4.

(** Five jobs for the role of an analyst, with the scores 8, 3, 10, 5
    and 8. *)
Definition plain_job (title : string) (description source level job_type : option string)
    : job :=
  Job (Some title) (Some "Acme") (Some "https://jobs.example/9") description source level
      job_type None None.

Definition j_8_first := plain_job "Porter" None (Some "LinkedIn") None None.
Definition j_3 := plain_job "Guard" (Some "works with an analyst") None None None.
Definition j_10 := plain_job "Clerk" None None (Some "Fresher") None.
Definition j_5 := plain_job "Cook" None None None (Some "Full-time").
Definition j_8_second := plain_job "Driver" None (Some "LinkedIn") None None.

(** A delivered question: scored and with its solution. *)
Definition delivered (q : question) (score : Z) : question :=
  set_q_solution (set_q_relevance_score q score) "solution".

(** Twelve questions of the domain, of distinct texts. *)
Definition twelve_questions : list question :=
  (λ text, scenario_question text "DSA" 5) <$>
    [ "What is a stack?"; "What is a queue?"; "What is a deque?"; "What is a heap?";
      "What is a trie?"; "What is a graph?"; "What is a tree?"; "What is a set?";
      "What is a map?"; "What is a list?"; "What is an array?"; "What is a string?" ].

(** The provider answers the first query with two organic results of
    six questions each. *)
Definition twelve_responses : list query_response :=
  [SearchReturned (Some [(take 6 twelve_questions, []); (drop 6 twelve_questions, [])])].

Definition ten_results : interview_results :=
  InterviewResults "DSA" None "all"
    ((λ q, delivered q 10) <$> take 10 twelve_questions) 10.

Definition three_results : interview_results :=
  InterviewResults "DSA" None "all"
    [delivered q_10 10; delivered q_8_first 8; delivered q_8_second 8] 3.

(** The filters of a request for the jobs of freshers, and filters
    whose experience level is [null]. *)
Definition fresher_filters : json :=
  json_dict {[ "experience_level" := json_str "Fresher" ]}.


(** Two adapters of five raise; the adapters push their status
    messages while they run. *)
Definition two_of_five_fail : list step :=
  [ status_emitted linkedin_api "Starting LinkedIn job search..." "info";
    status_emitted indeed_api "Starting Indeed job search..." "info";
    status_emitted indeed_api "Indeed search failed: timeout" "error";
    task_done indeed_api Raised;
    status_emitted linkedin_api "LinkedIn search completed - 1 jobs found" "info";
    task_done linkedin_api (Returned [acme_job]);
    task_done monster_api Raised;
    task_done naukri_api (Returned [acme_job_2]);
    task_done freshers_api (Returned [acme_job_no_url]) ].




(** The task of Naukri completes before the task of LinkedIn. *)
Definition naukri_first : list step :=
  [ task_done naukri_api (Returned [acme_job_2; acme_job_no_url]);
    task_done linkedin_api (Returned [acme_job]);
    task_done indeed_api (Returned []);
    task_done freshers_api (Returned []);
    task_done monster_api (Returned []) ].


(** A sink that raises on every progress event of a source and accepts
    the other events. *)
Definition progress_events_raise (e : event) : emit_result :=
  match e with
  | source_completed _ _ _ => EmitRaised "connection lost"
  | _ => Delivered
  end.


(** An answer of the provider to the query of an adapter: a result of
    FreshersWorld, a result of Monster whose snippet starts with a dot,
    and a result of another site. *)
Definition three_organic_results : provider_answer :=
  ProviderReturned (Some
    [ OrganicResult (Some "ML Trainee") (Some "Apply now.")
        (Some "https://www.freshersworld.com/jobs/1");
      OrganicResult (Some "AI Engineer") (Some ". Acme Labs is hiring")
        (Some "https://www.monster.co.in/jobs/2");
      OrganicResult (Some "Data Analyst") (Some "Other site") (Some "https://example.com/3") ]).

(** An organic result of a coding platform, and extractors that find
    one question in it. *)
Definition heap_result : organic_result :=
  OrganicResult (Some "Heap questions 2023") (Some "What is a binary heap?")
    (Some "https://leetcode.com/discuss/1").

Definition one_question_found (_ : string) : list string :=
  ["What is a binary heap?"; "Read more?"].

Definition no_company_found (_ : string) : string := "Various Companies".

Definition heap_question : question :=
  Question (Some "What is a binary heap?") (Some "DSA") (Some "Various Companies")
    (Some "Easy") (Some "Conceptual") (Some 10) (Some 2023) (Some EmptyString) None.

(** Four jobs of three companies, one of them without a name. *)
Definition four_jobs : list job :=
  [ acme_job; FreshersWorldAPI.job_of jan_5 (OrganicResult (Some "ML Trainee") None None);
    acme_job_2;
    Job (Some "AI Intern") (Some "Company Not Specified") (Some "https://jobs.example/4")
        None (Some "Indeed") (Some "Entry Level") (Some "Internship") None None ].

(** A job whose title has a word of the role, without an AI keyword. *)
Definition analyst_job : job :=
  Job (Some "Senior Analyst") (Some "Acme") (Some "https://www.linkedin.com/jobs/5")
      (Some "Reporting") (Some "LinkedIn") (Some "mid") (Some "Contract") None None.

(** A request for a PDF of the hard questions: one question is hard,
    one is easy. *)
Definition hard_question : json :=
  json_dict (list_to_map [ ("question", json_str "What is a trie?"); ("domain", json_str "DSA");
                           ("difficulty", json_str "Hard") ]).

Definition easy_question : json :=
  json_dict (list_to_map [ ("question", json_str "What is a stack?"); ("domain", json_str "DSA");
                           ("difficulty", json_str "Easy") ]).

Definition hard_questions_request : json :=
  json_dict (list_to_map [ ("domain", json_str " DSA ");
                           ("questions", json_list [easy_question; hard_question]);
                           ("difficulty_filter", json_str "hard") ]).

(** A request whose first question is a text, for a filter. *)
Definition text_question_fields (difficulty_filter : string) : gmap string json :=
  list_to_map [ ("domain", json_str "DSA");
                ("questions", json_list [json_str "What is a trie?"; hard_question]);
                ("difficulty_filter", json_str difficulty_filter) ].

Definition pdf_is_built (_ : pdf_request) : bool := true.

Definition no_format (_ : json) : string := EmptyString.

(** The answers of the provider to the two queries of Indeed. *)
Definition indeed_answer : provider_answer :=
  ProviderReturned (Some
    [ OrganicResult (Some "ML Engineer - Acme Labs - Indeed") (Some "Machine learning role")
        (Some "https://in.indeed.com/viewjob?jk=1");
      OrganicResult (Some " - Indeed") (Some "No title") (Some "https://www.indeed.co.in/2");
      OrganicResult (Some "Data Analyst") (Some "Other site") (Some "https://example.com/3") ]).

(** * Properties *)

(** ** The models of the Python library on known values *)

Example md5_of_the_empty_string :
  MD5.hexdigest EmptyString = "d41d8cd98f00b204e9800998ecf8427e".
Proof. vm_compute. reflexivity. Qed.

Example md5_of_abc : MD5.hexdigest "abc" = "900150983cd24fb0d6963f7d28e17f72".
Proof. vm_compute. reflexivity. Qed.

Example md5_of_two_blocks :
  MD5.hexdigest "xxxxxxxxxxxxxxxxxxxxxxxxxxxxxxxxxxxxxxxxxxxxxxxxxxxxxxxx"
  = "668a72d5ba17f08e62dabcafad6db14b".
Proof. vm_compute. reflexivity. Qed.

Example md5_of_a_job_key :
  MD5.hexdigest "ml engineer acme_acme" = "1a62dc6ef4497ef217589b185b100fca".
Proof. vm_compute. reflexivity. Qed.

Example strptime_reads_dates :
  option_map PyDate.toordinal <$>
    (PyDate.strptime_Ymd <$> ["2024-01-05"; "2024-1-5"; "2024-1- 5"; "2024-2-29";
                              "9999-12-31"; "0001-01-01"])
  = [Some 738890; Some 738890; Some 738890; Some 738945; Some 3652059; Some 1].
Proof. vm_compute. reflexivity. Qed.

Example strptime_raises :
  PyDate.strptime_Ymd <$> ["2024-1-32"; "0000-01-01"; "2024-02-30"; "2023-2-29";
                           "2024-13-01"; "02024-01-01"; "2024-01-05 "; "2024-00-10";
                           " 2024-01-01"; "2024/01/05"; EmptyString]
  = replicate 11 None.
Proof. vm_compute. reflexivity. Qed.

Example days_are_rounded_down :
  PyDate.days_between (PyDate.DateTime 2024 1 1 12 0 0 0) (PyDate.DateTime 2024 1 2 0 0 0 0)
  = -1
  ∧ PyDate.days_between (PyDate.DateTime 2024 1 3 23 59 59 0)
      (PyDate.DateTime 2024 1 2 0 0 0 0) = 1.
Proof. split; vm_compute; reflexivity. Qed.

Example strings_are_normalized :
  PyStr.strip "  a b  " = "a b"
  ∧ PyStr.split " ml   engineer " = ["ml"; "engineer"]
  ∧ PyStr.collapse_spaces (PyStr.drop_punctuation "ml engineer - acme_@x")
    = "ml engineer acme_x"
  ∧ PyStr.contains EmptyString "abc" = true
  ∧ PyStr.contains "ml" "html" = true
  ∧ PyStr.contains "ml" "lm" = false.
Proof. repeat split. Qed.

Example slices_with_negative_bounds :
  slice_to (-1) [1; 2; 3] = [1; 2] ∧ slice_to (-5) [1; 2; 3] = []
  ∧ slice_to 0 [1; 2; 3] = [] ∧ slice_to 2 [1; 2; 3] = [1; 2]
  ∧ slice_to 7 [1; 2; 3] = [1; 2; 3].
Proof. repeat split. Qed.

Example sort_keeps_the_order_of_ties :
  sort_desc snd [("a", 8); ("b", 2); ("c", 10); ("d", 5); ("e", 8)]
  = [("c", 10); ("a", 8); ("e", 8); ("d", 5); ("b", 2)].
Proof. reflexivity. Qed.

(** ** Slices *)

Section SliceFacts.
Context {A : Type}.
Implicit Types l : list A.

Lemma slice_to_prefix n l : slice_to n l `prefix_of` l.
Proof. unfold slice_to. destruct (0 <=? n); apply prefix_take. Qed.

Lemma slice_to_length_le n l : (length (slice_to n l) ≤ length l)%nat.
Proof. apply prefix_length, slice_to_prefix. Qed.

Lemma slice_to_length_nonneg n l :
  0 <= n -> Z.of_nat (length (slice_to n l)) <= n.
Proof.
  intros Hn. unfold slice_to.
  destruct (Z.leb_spec 0 n) as [_|?]; [|lia].
  rewrite length_take. lia.
Qed.

Lemma slice_to_ge n l :
  Z.of_nat (length l) <= n -> slice_to n l = l.
Proof.
  intros Hn. unfold slice_to.
  destruct (Z.leb_spec 0 n) as [_|?]; [|lia].
  apply take_ge. lia.
Qed.

Lemma slice_to_subseteq n l : slice_to n l ⊆ l.
Proof. unfold slice_to. destruct (0 <=? n); apply subseteq_take. Qed.

Lemma slice_to_take n l : 0 <= n -> slice_to n l = take (Z.to_nat n) l.
Proof. intros Hn. unfold slice_to. by rewrite (proj2 (Z.leb_le 0 n) Hn). Qed.

Lemma slice_to_nil n : slice_to n ([] : list A) = [].
Proof. unfold slice_to. by destruct (0 <=? n); rewrite take_nil. Qed.

End SliceFacts.

Lemma slice_to_fmap {A B} (f : A -> B) n (l : list A) :
  slice_to n (f <$> l) = f <$> slice_to n l.
Proof. unfold slice_to. rewrite length_fmap. by destruct (0 <=? n); rewrite fmap_take. Qed.

(** ** The stable descending sort *)

Section SortFacts.
Context {A : Type} (key : A -> Z).
Implicit Types (x : A) (l : list A).

Lemma insert_desc_perm x l : insert_desc key x l ≡ₚ x :: l.
Proof.
  induction l as [|y r IH]; simpl; [done|].
  destruct (key y <=? key x); [done|].
  rewrite IH. apply Permutation_swap.
Qed.

Lemma sort_desc_perm l : sort_desc key l ≡ₚ l.
Proof.
  induction l as [|x r IH]; simpl; [done|].
  rewrite insert_desc_perm. by f_equiv.
Qed.

Lemma sort_desc_length l : length (sort_desc key l) = length l.
Proof. apply Permutation_length, sort_desc_perm. Qed.

Lemma insert_desc_sorted x l :
  StronglySorted (desc key) l -> StronglySorted (desc key) (insert_desc key x l).
Proof.
  induction 1 as [|y r Hr IH Hy]; simpl.
  - repeat constructor.
  - destruct (Z.leb_spec (key y) (key x)) as [Hle|Hlt].
    + constructor; [by constructor|].
      constructor; [done|].
      eapply Forall_impl; [exact Hy|]. unfold desc. intros z Hz. lia.
    + constructor; [done|].
      rewrite insert_desc_perm. constructor; [unfold desc; lia|done].
Qed.

Lemma sort_desc_sorted l : StronglySorted (desc key) (sort_desc key l).
Proof.
  induction l as [|x r IH]; simpl; [constructor|].
  by apply insert_desc_sorted.
Qed.

(** Stability: the items of any one score are in the order of the input. *)
Lemma insert_desc_stable s x l :
  filter (λ y, key y = s) (insert_desc key x l) = filter (λ y, key y = s) (x :: l).
Proof.
  induction l as [|y r IH]; simpl; [done|].
  destruct (Z.leb_spec (key y) (key x)) as [Hle|Hlt]; [done|].
  rewrite (filter_cons _ y), IH, !(filter_cons _ x), (filter_cons _ y).
  repeat case_decide; try done; lia.
Qed.

Lemma sort_desc_stable s l :
  filter (λ y, key y = s) (sort_desc key l) = filter (λ y, key y = s) l.
Proof.
  induction l as [|x r IH]; simpl; [done|].
  rewrite insert_desc_stable, !filter_cons, IH. done.
Qed.

(** A list that is already in descending order is left as it is. *)
Lemma insert_desc_head x l :
  Forall (desc key x) l -> insert_desc key x l = x :: l.
Proof.
  destruct 1 as [|y r Hy _]; simpl; [done|].
  unfold desc in Hy. destruct (Z.leb_spec (key y) (key x)); [done|lia].
Qed.

Lemma sort_desc_sorted_id l : StronglySorted (desc key) l -> sort_desc key l = l.
Proof.
  induction 1 as [|x r Hr IH Hx]; simpl; [done|].
  rewrite IH. by apply insert_desc_head.
Qed.

Lemma sorted_prefix l1 l2 :
  l1 `prefix_of` l2 -> StronglySorted (desc key) l2 -> StronglySorted (desc key) l1.
Proof. intros [k ->] H. by apply StronglySorted_app_1_l in H. Qed.

Lemma filter_prefix (P : A -> Prop) `{!∀ x, Decision (P x)} l1 l2 :
  l1 `prefix_of` l2 -> filter P l1 `prefix_of` filter P l2.
Proof. intros [k ->]. rewrite filter_app. by apply prefix_app_r. Qed.

(** What is cut from the end of a ranked list is ranked no higher than
    what is kept. *)
Lemma sorted_cut l1 k :
  StronglySorted (desc key) (l1 ++ k) -> ∀ x y, x ∈ l1 -> y ∈ k -> desc key x y.
Proof. intros H x y Hx Hy. eapply StronglySorted_app_1_elem_of; eauto. Qed.

End SortFacts.

(** ** The relevance scores *)

Lemma strptime_midnight s t :
  PyDate.strptime_Ymd s = Some t ->
  PyDate.hour t = 0 /\ PyDate.minute t = 0 /\ PyDate.second t = 0 /\
  PyDate.microsecond t = 0.
Proof.
  unfold PyDate.strptime_Ymd. intros H.
  destruct (PyDate.match_Ymd s) as [[[[y m] d] [|? ?]]|]; try discriminate.
  destruct (_ && _); [|discriminate].
  by injection H as <-.
Qed.

(** The age of a date in days is the difference of the day numbers,
    whatever the time of the day of the reading. *)
Lemma days_between_midnight now t :
  PyDate.wf now ->
  PyDate.hour t = 0 -> PyDate.minute t = 0 -> PyDate.second t = 0 ->
  PyDate.microsecond t = 0 ->
  PyDate.days_between now t = PyDate.toordinal now - PyDate.toordinal t.
Proof.
  intros (_ & _ & _ & Hh & Hm & Hs & Hu) Eh Em Es Eu.
  unfold PyDate.days_between, PyDate.microseconds.
  rewrite Eh, Em, Es, Eu.
  symmetry. apply (Z.div_unique_pos _ _ _
    (((PyDate.hour now * 60 + PyDate.minute now) * 60 + PyDate.second now) * 1000000
     + PyDate.microsecond now)); lia.
Qed.

Lemma toordinal_same_day a b : same_day a b -> PyDate.toordinal a = PyDate.toordinal b.
Proof. intros (Hy & Hm & Hd). unfold PyDate.toordinal. by rewrite Hy, Hm, Hd. Qed.

Lemma recency_same_day now1 now2 j :
  PyDate.wf now1 -> PyDate.wf now2 -> same_day now1 now2 ->
  JobSearchEngine.recency now1 j = JobSearchEngine.recency now2 j.
Proof.
  intros W1 W2 Hd. unfold JobSearchEngine.recency.
  destruct (PyStr.truthy _); [|done].
  destruct (PyDate.strptime_Ymd _) as [t|] eqn:Ht; [|done].
  destruct (strptime_midnight _ _ Ht) as (Eh & Em & Es & Eu).
  rewrite !days_between_midnight by done.
  by rewrite (toordinal_same_day _ _ Hd).
Qed.

Lemma recency_range now j :
  JobSearchEngine.recency now j = 0 \/ JobSearchEngine.recency now j = 4 \/
  JobSearchEngine.recency now j = 8.
Proof.
  unfold JobSearchEngine.recency.
  repeat (case_match; auto).
Qed.

Lemma fold_left_add_le {B} (f : B -> Z) (l : list B) (s : Z) :
  (forall k, 0 <= f k) -> s <= fold_left (fun score k => score + f k) l s.
Proof.
  intros Hf. revert s. induction l as [|k r IH]; intros s; simpl; [lia|].
  specialize (IH (s + f k)). specialize (Hf k). lia.
Qed.

Lemma keyword_score_nonneg a b t d k :
  0 <= a -> 0 <= b -> 0 <= JobSearchEngine.keyword_score a b t d k.
Proof. intros. unfold JobSearchEngine.keyword_score. repeat case_match; lia. Qed.

Lemma calculate_relevance_nonneg now j job_role :
  0 <= JobSearchEngine._calculate_relevance now j job_role.
Proof.
  unfold JobSearchEngine._calculate_relevance.
  set (t := PyStr.lower (get_str (title j))).
  set (d := PyStr.lower (get_str (description j))).
  pose proof (recency_range now j) as Hr.
  match goal with
  | |- context [fold_left ?f JobSearchEngine.ai_ml_keywords ?s] =>
      pose proof (fold_left_add_le (JobSearchEngine.keyword_score 10 5 t d)
                    JobSearchEngine.ai_ml_keywords s
                    (fun k => keyword_score_nonneg 10 5 t d k ltac:(lia) ltac:(lia))) as H2;
      set (s2 := fold_left f JobSearchEngine.ai_ml_keywords s) in *
  end.
  match type of H2 with
  | fold_left ?f ?l ?s <= _ =>
      pose proof (fold_left_add_le (JobSearchEngine.keyword_score 8 3 t d) l s
                    (fun k => keyword_score_nonneg 8 3 t d k ltac:(lia) ltac:(lia))) as H1;
      set (s1 := fold_left f l s) in *
  end.
  repeat case_match; lia.
Qed.

Lemma calculate_relevance_score_nonneg q domain company :
  0 <= default 0 (q_credibility_score q) ->
  0 <= InterviewQuestionAPI._calculate_relevance_score q domain company.
Proof.
  intros Hc. unfold InterviewQuestionAPI._calculate_relevance_score.
  repeat case_match; lia.
Qed.

(** C1, as stated, fails: the score of one job for one query is 82 when
    the clock reads the fifth of January 2024 and 74 when it reads the
    first of March, because the recency bonus is taken from
    [datetime.now()]. *)
Lemma relevance_changes_with_the_clock :
  JobSearchEngine._calculate_relevance jan_5 acme_job "ML Engineer" = 82 /\
  JobSearchEngine._calculate_relevance mar_1 acme_job "ML Engineer" = 74.
Proof. split; vm_compute; reflexivity. Qed.

(** C1, amended: the score of a job is a non-negative integer that is
    determined by the job, the query and the calendar day of the clock:
    two readings of the same day give the same score, and two readings
    of any two days give scores that differ by the recency bonus, so by
    8 at most. The score of a question takes no clock reading at all,
    being a function of the question, the domain and the company, and is
    not negative when the credibility score of the question is not. *)
Theorem relevance_reproducible_per_day now1 now2 now3 j job_role q domain company :
  PyDate.wf now1 -> PyDate.wf now2 -> same_day now1 now2 ->
  JobSearchEngine._calculate_relevance now1 j job_role
    = JobSearchEngine._calculate_relevance now2 j job_role
  /\ 0 <= JobSearchEngine._calculate_relevance now1 j job_role
  /\ Z.abs (JobSearchEngine._calculate_relevance now1 j job_role
            - JobSearchEngine._calculate_relevance now3 j job_role) <= 8
  /\ (0 <= default 0 (q_credibility_score q) ->
      0 <= InterviewQuestionAPI._calculate_relevance_score q domain company).
Proof.
  intros W1 W2 Hd. split; [|split; [|split]].
  - unfold JobSearchEngine._calculate_relevance.
    by rewrite (recency_same_day now1 now2 j W1 W2 Hd).
  - apply calculate_relevance_nonneg.
  - unfold JobSearchEngine._calculate_relevance.
    pose proof (recency_range now1 j). pose proof (recency_range now3 j). lia.
  - apply calculate_relevance_score_nonneg.
Qed.

Lemma jan_5_wf : PyDate.wf jan_5.
Proof. unfold PyDate.wf; cbn; lia. Defined.

Lemma jan_5_evening_wf : PyDate.wf jan_5_evening.
Proof. unfold PyDate.wf; cbn; lia. Defined.

Lemma relevance_reproducible_per_day_witness :
  PyDate.wf jan_5 /\ PyDate.wf jan_5_evening /\ same_day jan_5 jan_5_evening /\
  JobSearchEngine._calculate_relevance jan_5 acme_job "ML Engineer"
    = JobSearchEngine._calculate_relevance jan_5_evening acme_job "ML Engineer"
  /\ 0 <= JobSearchEngine._calculate_relevance jan_5 acme_job "ML Engineer"
  /\ Z.abs (JobSearchEngine._calculate_relevance jan_5 acme_job "ML Engineer"
            - JobSearchEngine._calculate_relevance mar_1 acme_job "ML Engineer") <= 8
  /\ (0 <= default 0 (q_credibility_score evening_question) ->
      0 <= InterviewQuestionAPI._calculate_relevance_score evening_question "DSA" None).
Proof.
  split; [exact jan_5_wf|]. split; [exact jan_5_evening_wf|].
  split; [repeat split|].
  apply (relevance_reproducible_per_day jan_5 jan_5_evening mar_1 acme_job "ML Engineer"
           evening_question "DSA" None jan_5_wf jan_5_evening_wf).
  repeat split.
Defined.

(** ** The routes *)

Lemma lstrip_length s : (String.length (PyStr.lstrip s) ≤ String.length s)%nat.
Proof. induction s as [|c r IH]; simpl; [done|]. destruct (PyStr.is_space c); simpl; lia. Qed.

Lemma rstrip_length s : (String.length (PyStr.rstrip s) ≤ String.length s)%nat.
Proof.
  induction s as [|c r IH]; simpl; [done|].
  destruct (PyStr.rstrip r); [destruct (PyStr.is_space c)|]; simpl in *; lia.
Qed.

(** Trimming does not make a string longer. *)
Lemma strip_len s : PyStr.len (PyStr.strip s) <= PyStr.len s.
Proof.
  unfold PyStr.len, PyStr.strip.
  pose proof (rstrip_length (PyStr.lstrip s)). pose proof (lstrip_length s). lia.
Qed.

Lemma error_rejected code msg :
  code = 400 \/ code = 500 -> rejected (Routes.error code msg).
Proof. by split. Qed.

Local Hint Resolve error_rejected : core.

(** The steps of a route body, one exception check after the other. *)
Ltac route_unfold := unfold Routes.handle, mbind, Routes.result_bind.

(** C2, as stated, fails: a request for zero questions, or for a negative
    number of them, is accepted with that count, which is below 1. *)
Lemma question_count_not_raised_to_1 :
  Routes.question_count_of {[ "question_count" := JInt 0 ]} = Routes.Ok 0 /\
  Routes.question_count_of {[ "question_count" := JInt (-3) ]} = Routes.Ok (-3) /\
  started (Routes.search_interview_questions
             (Some (list_to_map [("domain", JStr "DSA"); ("question_count", JInt 0)])))
    = Some (interview_search_thread "DSA" None "all" 0).
Proof. repeat split. Qed.

(** C2, amended: the question count that the route hands to the engine is
    [min(question_count, 20)], with 10 for an absent value. It is at
    most 20 for every integer, and at least 1 when the value supplied is
    at least 1 or absent; zero and the negative values are passed on as
    they are. *)
Theorem question_count_capped_at_20 (data : gmap string jval) (z : Z) d c f n :
  data !! "question_count" = Some (JInt z)
    \/ (data !! "question_count" = None /\ z = 10) ->
  Routes.question_count_of data = Routes.Ok (Z.min z 20)
  /\ Z.min z 20 <= 20
  /\ (1 <= z -> 1 <= Z.min z 20)
  /\ (z <= 0 -> Z.min z 20 = z)
  /\ (started (Routes.search_interview_questions (Some data))
        = Some (interview_search_thread d c f n) -> n = Z.min z 20).
Proof.
  intros Hz.
  assert (Routes.question_count_of data = Routes.Ok (Z.min z 20)) as Hq.
  { unfold Routes.question_count_of, Routes.get.
    destruct Hz as [->|[-> ->]]; done. }
  split; [done|]. repeat split; try lia.
  unfold Routes.search_interview_questions.
  cbn [default from_option id]. rewrite Hq. route_unfold.
  destruct (Routes.no_data _); [discriminate|].
  repeat (destruct (Routes.as_str _); [|discriminate]).
  destruct (negb (PyStr.truthy _)); [discriminate|].
  destruct (_ <? 2); [discriminate|].
  destruct (negb (bool_decide _)); [discriminate|].
  by intros [= _ _ _ <-].
Qed.

Lemma question_count_capped_at_20_witness :
  (({[ "domain" := JStr "DSA"; "question_count" := JInt 35 ]} : gmap string jval)
     !! "question_count" = Some (JInt 35)
   \/ (({[ "domain" := JStr "DSA"; "question_count" := JInt 35 ]} : gmap string jval)
         !! "question_count" = None /\ 35 = 10)) /\
  Routes.question_count_of {[ "domain" := JStr "DSA"; "question_count" := JInt 35 ]}
    = Routes.Ok (Z.min 35 20).
Proof.
  split; [left; reflexivity|].
  apply (question_count_capped_at_20
           {[ "domain" := JStr "DSA"; "question_count" := JInt 35 ]} 35
           "DSA" None "all" 20).
  left; reflexivity.
Defined.

(** C9, as stated, fails: the text [" DSA"] is not one of the supported
    domains, yet a request with this domain is accepted and its search
    is started, because the route trims the domain before it looks it
    up. *)
Lemma padded_domain_is_accepted :
  (" DSA" ∉ Routes.valid_domains) /\
  Routes.search_interview_questions (Some {[ "domain" := JStr " DSA" ]})
    = Reply 200 "Enhanced interview question search initiated successfully"
            (Some (interview_search_thread "DSA" None "all" 10)).
Proof.
  split; [|reflexivity].
  unfold Routes.valid_domains. rewrite !elem_of_cons, elem_of_nil.
  intros H. repeat (destruct H as [H|H]; [discriminate|]). done.
Qed.

(** C9, amended: a request whose subject, once the surrounding blanks are
    trimmed, is empty or shorter than 2 characters (so every subject that
    is itself shorter than 2 characters), and an interview question
    request whose trimmed domain is not a supported domain, is answered
    with an error status and starts no thread: no search runs and no
    adapter is called. The status is 400, or 500 when another field of
    the body is not of its type. *)
Theorem invalid_subject_rejected (request : option (gmap string jval)) (s : string) :
  (Routes.get (default ∅ request) "job_role" (JStr EmptyString) = JStr s ->
   PyStr.len s < 2 \/ PyStr.len (PyStr.strip s) < 2 ->
   rejected (Routes.search_jobs request))
  /\
  (Routes.get (default ∅ request) "domain" (JStr EmptyString) = JStr s ->
   PyStr.len s < 2 \/ PyStr.len (PyStr.strip s) < 2
     \/ PyStr.strip s ∉ Routes.valid_domains ->
   rejected (Routes.search_interview_questions request)).
Proof.
  split; intros Hs Hshort.
  - assert (PyStr.len (PyStr.strip s) < 2) as Hlen
      by (pose proof (strip_len s); lia).
    unfold Routes.search_jobs. route_unfold.
    destruct (Routes.no_data request); [auto|].
    rewrite Hs. cbn [Routes.as_str].
    destruct (Routes.as_str _); [|auto].
    destruct (negb _); [auto|].
    destruct (Z.ltb_spec (PyStr.len (PyStr.strip s)) 2); [auto|lia].
  - unfold Routes.search_interview_questions. route_unfold.
    destruct (Routes.no_data request); [auto|].
    rewrite Hs. cbn [Routes.as_str].
    repeat (destruct (Routes.as_str _); [|auto]).
    destruct (Routes.question_count_of _); [|auto].
    destruct (negb (PyStr.truthy _)); [auto|].
    destruct (Z.ltb_spec (PyStr.len (PyStr.strip s)) 2); [auto|].
    destruct Hshort as [?|[?|Hd]]; [pose proof (strip_len s); lia|lia|].
    rewrite bool_decide_eq_false_2 by done. cbn [negb]. auto.
Qed.

Lemma invalid_subject_rejected_witness :
  (Routes.get (default ∅ (Some {[ "job_role" := JStr "a" ]})) "job_role" (JStr EmptyString)
     = JStr "a"
   /\ (PyStr.len "a" < 2 \/ PyStr.len (PyStr.strip "a") < 2)
   /\ rejected (Routes.search_jobs (Some {[ "job_role" := JStr "a" ]})))
  /\
  (Routes.get (default ∅ (Some {[ "domain" := JStr "Rust" ]})) "domain" (JStr EmptyString)
     = JStr "Rust"
   /\ (PyStr.strip "Rust" ∉ Routes.valid_domains)
   /\ rejected (Routes.search_interview_questions (Some {[ "domain" := JStr "Rust" ]}))).
Proof.
  assert (PyStr.strip "Rust" ∉ Routes.valid_domains) as Hrust.
  { unfold Routes.valid_domains. rewrite !elem_of_cons, elem_of_nil.
    intros H. repeat (destruct H as [H|H]; [discriminate|]). done. }
  split.
  - split; [reflexivity|]. split; [left; reflexivity|].
    apply (invalid_subject_rejected (Some {[ "job_role" := JStr "a" ]}) "a");
      [reflexivity|left; reflexivity].
  - split; [reflexivity|]. split; [exact Hrust|].
    apply (invalid_subject_rejected (Some {[ "domain" := JStr "Rust" ]}) "Rust");
      [reflexivity|right; right; exact Hrust].
Defined.

(** ** Keeping the first arrival of every key *)

Section FirstSeenFacts.
Context {A : Type} (key : A -> string) (ok : A -> bool).
Implicit Types (x : A) (l : list A) (seen : gset string).

Lemma first_arrival_b_spec l i : first_arrival_b key ok l i ↔ first_arrival key ok l i.
Proof.
  unfold first_arrival_b, first_arrival.
  destruct (l !! i) as [x|] eqn:Hx.
  - rewrite andb_True, forallb_True, Forall_forall. split.
    + intros [Hok Hall]. exists x. split; [done|]. split; [done|].
      intros i' y Hi' Hy Hoky Heq.
      assert (y ∈ take i l) as Hin by (apply elem_of_take; eauto).
      specialize (Hall y Hin). rewrite Heq, String.eqb_refl in Hall.
      destruct (ok y); simpl in *; done.
    + intros (x' & [= <-] & Hok & Hfirst). split; [done|].
      intros y (i' & Hy & Hi')%elem_of_take.
      destruct (ok y) eqn:Hoky; [|done]. simpl.
      destruct (String.eqb_spec (key y) (key x)) as [Heq|]; [|done].
      destruct (Hfirst i' y Hi' Hy); [by rewrite Hoky|done].
  - split; [done|]. by intros (x & [=] & _).
Qed.

Lemma first_seen_positions pre rest seen :
  (∀ h, h ∈ seen ↔ ∃ y, y ∈ pre ∧ ok y ∧ key y = h) ->
  first_seen key ok seen rest = first_arrivals_from key ok (length pre) (pre ++ rest) (length rest).
Proof.
  revert pre seen. induction rest as [|x r IH]; intros pre seen Hseen; [done|].
  unfold first_arrivals_from. cbn [length seq first_seen]. rewrite filter_cons.
  assert (first_arrival_b key ok (pre ++ x :: r) (length pre)
          = bool_decide (key x ∉ seen) && ok x) as Hhead.
  { unfold first_arrival_b. rewrite list_lookup_middle, take_app_length by done.
    rewrite andb_comm. f_equal.
    apply eq_true_iff_eq. rewrite <-!Is_true_true.
    rewrite forallb_True, Forall_forall, bool_decide_spec, Hseen. split.
    - intros Hall (y & Hy & Hoky & Heq). specialize (Hall y Hy).
      rewrite Heq, String.eqb_refl in Hall. destruct (ok y); done.
    - intros Hnot y Hy. destruct (ok y) eqn:Hoky; [|done]. simpl.
      destruct (String.eqb_spec (key y) (key x)) as [Heq|]; [|done].
      destruct Hnot. exists y. by rewrite Hoky. }
  rewrite Hhead.
  replace (pre ++ x :: r)%list with ((pre ++ [x]) ++ r)%list by by rewrite <-app_assoc.
  replace (S (length pre)) with (length (pre ++ [x])%list)
    by (rewrite length_app; simpl; lia).
  destruct (bool_decide (key x ∉ seen) && ok x) eqn:Hkeep.
  - rewrite decide_True by done. cbn [omap list_omap].
    rewrite <-app_assoc at 1. cbn [app]. rewrite list_lookup_middle by done.
    f_equal. apply IH. intros h. rewrite elem_of_union, elem_of_singleton, Hseen.
    apply andb_prop in Hkeep as [_ Hok]. split.
    + intros [->|(y & Hy & Hoky & Heq)].
      * exists x. rewrite elem_of_app, list_elem_of_singleton, Hok. by auto.
      * exists y. rewrite elem_of_app. by auto.
    + intros (y & [Hy| ->%list_elem_of_singleton]%elem_of_app & Hoky & Heq).
      * right. by exists y.
      * by left.
  - rewrite decide_False by (cbn; tauto). apply IH. intros h. rewrite Hseen. split.
    + intros (y & Hy & Hoky & Heq). exists y. rewrite elem_of_app. by auto.
    + intros (y & [Hy| ->%list_elem_of_singleton]%elem_of_app & Hoky & Heq).
      * by exists y.
      * apply andb_false_iff in Hkeep as [Hk|Hk]; [|by rewrite Hk in Hoky].
        apply bool_decide_eq_false in Hk. apply dec_stable in Hk.
        apply Hseen in Hk. by rewrite <-Heq.
Qed.

(** From the empty set, the loop keeps the first arrivals, in order. *)
Lemma first_seen_first_arrivals l :
  first_seen key ok ∅ l = first_arrivals_from key ok 0 l (length l).
Proof.
  apply (first_seen_positions [] l ∅). intros h. split; [by intros ?%elem_of_empty|].
  by intros (y & ?%elem_of_nil & _).
Qed.

(** What the loop keeps passes the check and has fresh, distinct keys. *)
Lemma first_seen_kept seen l :
  Forall (λ x, ok x ∧ key x ∉ seen) (first_seen key ok seen l)
  ∧ NoDup (key <$> first_seen key ok seen l).
Proof.
  revert seen. induction l as [|x r IH]; intros seen; simpl.
  { split; constructor. }
  destruct (bool_decide (key x ∉ seen) && ok x) eqn:Hkeep; [|apply IH].
  apply andb_prop in Hkeep as [Hk%bool_decide_eq_true Hok].
  destruct (IH ({[ key x ]} ∪ seen)) as [Hall Hnd]. split.
  - constructor; [by rewrite Hok|].
    eapply Forall_impl; [exact Hall|].
    intros y [Hoky Hy%not_elem_of_union]. by destruct Hy.
  - rewrite fmap_cons. constructor; [|done].
    intros (y & Heq & Hy)%list_elem_of_fmap.
    rewrite Forall_forall in Hall. destruct (Hall y Hy) as [_ Hn].
    apply Hn, elem_of_union. left. by apply elem_of_singleton.
Qed.

(** A list of checked items with fresh, distinct keys is kept whole. *)
Lemma first_seen_fixed seen l :
  Forall (λ x, ok x ∧ key x ∉ seen) l -> NoDup (key <$> l) ->
  first_seen key ok seen l = l.
Proof.
  revert seen. induction l as [|x r IH]; intros seen Hall Hnd; [done|].
  apply Forall_cons in Hall as [[Hok Hk] Hall].
  rewrite fmap_cons in Hnd. apply NoDup_cons in Hnd as [Hx Hnd].
  simpl. rewrite bool_decide_eq_true_2 by done.
  destruct (ok x); [|done]. simpl. f_equal. apply IH; [|done].
  rewrite Forall_forall in Hall |- *. intros y Hy.
  destruct (Hall y Hy) as [Hoky Hky]. split; [done|].
  rewrite not_elem_of_union, not_elem_of_singleton. split; [|done].
  intros Heq. apply Hx. rewrite <-Heq. by apply list_elem_of_fmap_2.
Qed.

(** Running the loop on what it has kept changes nothing. *)
Lemma first_seen_idempotent l : first_seen key ok ∅ (first_seen key ok ∅ l) = first_seen key ok ∅ l.
Proof.
  destruct (first_seen_kept ∅ l) as [Hall Hnd]. by apply first_seen_fixed.
Qed.

End FirstSeenFacts.

Lemma first_seen_fmap {A} (key : A -> string) (ok : A -> bool) (f : A -> A) seen l :
  (∀ x, key (f x) = key x) -> (∀ x, ok (f x) = ok x) ->
  first_seen key ok seen (f <$> l) = f <$> first_seen key ok seen l.
Proof.
  intros Hkey Hok. revert seen. induction l as [|x r IH]; intros seen; [done|].
  cbn [fmap list_fmap first_seen]. rewrite Hkey, Hok.
  destruct (_ && _); [rewrite fmap_cons; f_equal|]; apply IH.
Qed.

Lemma seq_increasing a n : StronglySorted lt (seq a n).
Proof.
  revert a. induction n as [|n IH]; intros a; simpl; constructor; [apply IH|].
  apply Forall_forall. intros k Hk%elem_of_seq. lia.
Qed.

Lemma filter_increasing (P : nat -> Prop) `{!∀ i, Decision (P i)} l :
  StronglySorted lt l -> StronglySorted lt (filter P l).
Proof.
  induction 1 as [|i r Hr IH Hi]; [constructor|].
  rewrite filter_cons. case_decide; [|done].
  constructor; [done|].
  apply Forall_forall. intros k [_ Hk]%list_elem_of_filter.
  rewrite Forall_forall in Hi. auto.
Qed.

(** The positions of the first arrivals, in increasing order. *)
Lemma first_arrival_positions {A} (key : A -> string) (ok : A -> bool) l :
  ∃ positions : list nat,
    StronglySorted lt positions ∧
    (∀ i, i ∈ positions ↔ first_arrival key ok l i) ∧
    first_seen key ok ∅ l = omap (λ i, l !! i) positions.
Proof.
  exists (filter (λ i, first_arrival_b key ok l i) (seq 0 (length l))).
  split; [apply filter_increasing, seq_increasing|]. split.
  - intros i. rewrite list_elem_of_filter, first_arrival_b_spec, elem_of_seq.
    split; [tauto|]. intros Hi. split; [done|].
    destruct Hi as (x & Hx%lookup_lt_Some & _). lia.
  - apply first_seen_first_arrivals.
Qed.

(** ** The two deduplicators *)

Lemma unique_questions_first_seen seen l :
  InterviewQuestionAPI.unique_questions seen l
  = first_seen InterviewQuestionAPI.question_hash (λ _, true) seen l.
Proof.
  revert seen. induction l as [|q r IH]; intros seen; simpl; [done|].
  rewrite andb_true_r. destruct (bool_decide _); by rewrite IH.
Qed.

Lemma remove_duplicate_questions_first_seen l :
  InterviewQuestionAPI._remove_duplicate_questions l
  = first_seen InterviewQuestionAPI.question_hash (λ _, true) ∅ l.
Proof. destruct l; [done|]. apply unique_questions_first_seen. Qed.

Lemma unique_jobs_first_seen clock job_role i seen jobs :
  raw <$> JobSearchEngine.unique_jobs clock job_role i seen jobs
  = raw <$> first_seen JobSearchEngine._create_job_hash JobSearchEngine._is_valid_job
              seen jobs.
Proof.
  revert i seen. induction jobs as [|j r IH]; intros i seen; simpl; [done|].
  destruct (_ && _); [rewrite !fmap_cons; f_equal|]; apply IH.
Qed.

(** The key and the validity of a job do not read its score. *)
Lemma raw_first_seen seen jobs :
  raw <$> first_seen JobSearchEngine._create_job_hash JobSearchEngine._is_valid_job
            seen jobs
  = first_seen JobSearchEngine._create_job_hash JobSearchEngine._is_valid_job
      seen (raw <$> jobs).
Proof. symmetry. by apply first_seen_fmap. Qed.

(** What the loop keeps is valid and scored and has fresh, distinct keys. *)
Lemma unique_jobs_kept now job_role i seen jobs :
  let kept := JobSearchEngine.unique_jobs (λ _, now) job_role i seen jobs in
  Forall (λ j, JobSearchEngine._is_valid_job j ∧ scored_at now job_role j
               ∧ JobSearchEngine._create_job_hash j ∉ seen) kept
  ∧ NoDup (JobSearchEngine._create_job_hash <$> kept).
Proof.
  revert i seen. induction jobs as [|j r IH]; intros i seen; simpl.
  { split; constructor. }
  destruct (bool_decide _ && JobSearchEngine._is_valid_job j) eqn:Hkeep; [|apply IH].
  apply andb_prop in Hkeep as [Hk%bool_decide_eq_true Hok].
  destruct (IH (S i) ({[ JobSearchEngine._create_job_hash j ]} ∪ seen)) as [Hall Hnd].
  split.
  - constructor.
    + split; [|split; [reflexivity|exact Hk]].
      change (Is_true (JobSearchEngine._is_valid_job j)). by rewrite Hok.
    + eapply Forall_impl; [exact Hall|].
      intros y (? & ? & Hy%not_elem_of_union). by destruct Hy.
  - rewrite fmap_cons. constructor; [|done].
    intros (y & Heq & Hy)%list_elem_of_fmap.
    rewrite Forall_forall in Hall. destruct (Hall y Hy) as (_ & _ & Hn).
    apply Hn, elem_of_union. left. apply elem_of_singleton. by rewrite <-Heq.
Qed.

(** A list of valid, scored jobs with fresh, distinct keys is kept whole. *)
Lemma unique_jobs_fixed now job_role i seen jobs :
  Forall (λ j, JobSearchEngine._is_valid_job j ∧ scored_at now job_role j
               ∧ JobSearchEngine._create_job_hash j ∉ seen) jobs ->
  NoDup (JobSearchEngine._create_job_hash <$> jobs) ->
  JobSearchEngine.unique_jobs (λ _, now) job_role i seen jobs = jobs.
Proof.
  revert i seen. induction jobs as [|j r IH]; intros i seen Hall Hnd; [done|].
  apply Forall_cons in Hall as [(Hok & Hscore & Hk) Hall].
  rewrite fmap_cons in Hnd. apply NoDup_cons in Hnd as [Hj Hnd].
  simpl. rewrite bool_decide_eq_true_2 by done.
  destruct (JobSearchEngine._is_valid_job j); [|done]. simpl. f_equal.
  - destruct j. unfold scored_at in Hscore. simpl in Hscore.
    unfold set_relevance_score. simpl. by rewrite Hscore.
  - apply IH; [|done].
    rewrite Forall_forall in Hall |- *. intros y Hy.
    destruct (Hall y Hy) as (? & ? & ?). split; [done|]. split; [done|].
    rewrite not_elem_of_union, not_elem_of_singleton. split; [|done].
    intros Heq. apply Hj. rewrite <-Heq. by apply list_elem_of_fmap_2.
Qed.

(** While the clock stays on one reading, ranking the ranked jobs again
    returns them as they are. *)
Lemma rank_idempotent now jobs job_role :
  let ranked := JobSearchEngine._remove_duplicates_and_rank (λ _, now) jobs job_role in
  JobSearchEngine._remove_duplicates_and_rank (λ _, now) ranked job_role = ranked.
Proof.
  intros ranked.
  pose proof (unique_jobs_kept now job_role 0 ∅ jobs) as [Hall Hnd].
  set (kept := JobSearchEngine.unique_jobs (λ _, now) job_role 0 ∅ jobs) in *.
  assert (ranked = take 50 (sort_desc JobSearchEngine.score_key kept)) as Hranked
    by reflexivity.
  assert (JobSearchEngine.unique_jobs (λ _, now) job_role 0 ∅ ranked = ranked) as Hfix.
  { apply unique_jobs_fixed; rewrite Hranked.
    - apply Forall_take. by rewrite sort_desc_perm.
    - apply (sublist_NoDup _ (JobSearchEngine._create_job_hash
                                <$> sort_desc JobSearchEngine.score_key kept));
        [by rewrite sort_desc_perm|apply fmap_sublist, sublist_take]. }
  unfold JobSearchEngine._remove_duplicates_and_rank at 1. rewrite Hfix.
  rewrite sort_desc_sorted_id.
  - apply slice_to_ge. rewrite Hranked, length_take. lia.
  - rewrite Hranked. eapply sorted_prefix; [apply prefix_take|apply sort_desc_sorted].
Qed.

(** C8: the deduplication is idempotent. Applied to its own output,
    [_remove_duplicate_questions] returns that output, item for item and
    in the same order. So does the deduplication loop of the jobs, which
    keeps every job of its own output in place and only writes the score
    again; and while the clock stays on one reading, the whole of
    [_remove_duplicates_and_rank] returns its own output as it is. *)
Theorem dedup_idempotent (qs : list question) (jobs : list job)
    (clock1 clock2 : nat -> PyDate.datetime) (role1 role2 : string)
    (now : PyDate.datetime) :
  InterviewQuestionAPI._remove_duplicate_questions
    (InterviewQuestionAPI._remove_duplicate_questions qs)
  = InterviewQuestionAPI._remove_duplicate_questions qs
  ∧ raw <$> JobSearchEngine.unique_jobs clock2 role2 0 ∅
              (JobSearchEngine.unique_jobs clock1 role1 0 ∅ jobs)
    = raw <$> JobSearchEngine.unique_jobs clock1 role1 0 ∅ jobs
  ∧ JobSearchEngine._remove_duplicates_and_rank (λ _, now)
      (JobSearchEngine._remove_duplicates_and_rank (λ _, now) jobs role1) role1
    = JobSearchEngine._remove_duplicates_and_rank (λ _, now) jobs role1.
Proof.
  split; [|split].
  - rewrite !remove_duplicate_questions_first_seen. apply first_seen_idempotent.
  - rewrite (unique_jobs_first_seen clock2), raw_first_seen.
    rewrite (unique_jobs_first_seen clock1), raw_first_seen.
    apply first_seen_idempotent.
  - apply rank_idempotent.
Qed.

(** C5, as stated, fails: of two arrivals of one key, the first is
    dropped and the second is kept when the first has no link, because
    the loop keeps a job only if [_is_valid_job] accepts it. *)
Lemma first_arrival_without_url_is_dropped :
  JobSearchEngine._create_job_hash acme_job_no_url
    = JobSearchEngine._create_job_hash acme_job_2
  ∧ raw <$> JobSearchEngine.unique_jobs (λ _, jan_5) "ML Engineer" 0 ∅
              [acme_job_no_url; acme_job_2]
    = [acme_job_2]
  ∧ raw <$> JobSearchEngine._remove_duplicates_and_rank (λ _, jan_5)
              [acme_job_no_url; acme_job_2] "ML Engineer"
    = [acme_job_2].
Proof. split; [|split]; vm_compute; reflexivity. Qed.

(** C5, amended: the deduplication loop of the jobs keeps exactly the
    first valid arrival of every key, a job being valid when its title,
    company and link are not blank: the jobs it keeps are the jobs at the
    positions [i], in increasing order, such that the job at [i] is valid
    and no valid job before it has its key. A job that is not valid is
    dropped and does not claim its key. The deduplication of the
    questions has no such check and keeps exactly the first arrival of
    every key. The titles ["ML Engineer - Acme"] and
    ["ml engineer @ acme"] with one company have the same key, and two
    valid jobs with them collapse to the first. *)
Theorem first_valid_arrival_kept (clock : nat -> PyDate.datetime) (job_role : string)
    (jobs : list job) (qs : list question) :
  (∃ positions : list nat,
     StronglySorted lt positions ∧
     (∀ i, i ∈ positions ↔
           first_arrival JobSearchEngine._create_job_hash
                         JobSearchEngine._is_valid_job jobs i) ∧
     raw <$> JobSearchEngine.unique_jobs clock job_role 0 ∅ jobs
     = raw <$> omap (λ i, jobs !! i) positions)
  ∧ (∃ positions : list nat,
       StronglySorted lt positions ∧
       (∀ i, i ∈ positions ↔
             first_arrival InterviewQuestionAPI.question_hash (λ _, true) qs i) ∧
       InterviewQuestionAPI._remove_duplicate_questions qs
       = omap (λ i, qs !! i) positions)
  ∧ JobSearchEngine.hash_string acme_job = "ml engineer acme_acme"
  ∧ JobSearchEngine.hash_string acme_job_2 = "ml engineer acme_acme"
  ∧ raw <$> JobSearchEngine.unique_jobs clock job_role 0 ∅ [acme_job; acme_job_2]
    = [acme_job].
Proof.
  split; [|split; [|split; [|split]]]; [| |vm_compute; reflexivity..|].
  - destruct (first_arrival_positions JobSearchEngine._create_job_hash
                JobSearchEngine._is_valid_job jobs) as (ps & Hs & Hp & Heq).
    exists ps. split; [done|]. split; [done|].
    by rewrite unique_jobs_first_seen, Heq.
  - destruct (first_arrival_positions InterviewQuestionAPI.question_hash
                (λ _, true) qs) as (ps & Hs & Hp & Heq).
    exists ps. split; [done|]. split; [done|].
    by rewrite remove_duplicate_questions_first_seen.
  - rewrite unique_jobs_first_seen. vm_compute. reflexivity.
Qed.

(** ** The question pipeline *)

Section Pipeline.
Variable solve : string -> string -> option string -> string -> string -> option string.
Variable fallback : string -> string -> string.

(** The enhancement gives every question a solution and returns as many
    questions as it is given. *)
Lemma enhance_length l domain company e :
  InterviewQuestionAPI._enhance_questions_with_detailed_solutions solve fallback
    l domain company = Some e ->
  length e = length l.
Proof.
  revert e. induction l as [|q r IH]; intros e; simpl.
  { by intros [= <-]. }
  destruct (InterviewQuestionAPI.enhance_one _ _ _ _ _); [|discriminate].
  destruct (InterviewQuestionAPI._enhance_questions_with_detailed_solutions _ _ _ _ _)
    as [r'|]; [|discriminate].
  intros [= <-]. simpl. f_equal. by apply IH.
Qed.

(** The question search returns at most [question_count] questions when
    [question_count] is not negative. *)
Lemma api_search_length responses domain company difficulty question_count :
  0 <= question_count ->
  Z.of_nat (length (InterviewQuestionAPI.search_interview_questions solve fallback
                      responses domain company difficulty question_count))
  <= question_count.
Proof.
  intros Hq. unfold InterviewQuestionAPI.search_interview_questions.
  destruct (InterviewQuestionAPI._enhance_questions_with_detailed_solutions _ _ _ _ _)
    as [e|] eqn:He; [|simpl; lia].
  rewrite (enhance_length _ _ _ _ He). by apply slice_to_length_nonneg.
Qed.

(** What the engine delivers is the answer of the question search with
    its default count, cut to the requested count. *)
Lemma engine_delivers sink responses domain company difficulty question_count r :
  interview_search_completed r
    ∈ JobSearchEngine.search_interview_questions sink solve fallback responses
        domain company difficulty question_count ->
  questions r
  = slice_to question_count
      (InterviewQuestionAPI.search_interview_questions solve fallback responses
         domain company difficulty InterviewQuestionAPI.default_question_count)
  ∧ total_questions r = Z.of_nat (length (questions r)).
Proof.
  unfold JobSearchEngine.search_interview_questions, JobSearchEngine.push.
  repeat match goal with
         | |- context [sink ?e] => destruct (sink e)
         end; cbn [app];
    rewrite ?elem_of_cons, ?elem_of_nil; intros H;
    repeat (destruct H as [H|H]; try discriminate; try done).
  all: first [by injection H as ->|by destruct H].
Qed.

(** The engine delivers at most ten questions. *)
Lemma engine_delivers_at_most_10 sink responses domain company difficulty
    question_count r :
  interview_search_completed r
    ∈ JobSearchEngine.search_interview_questions sink solve fallback responses
        domain company difficulty question_count ->
  (length (questions r) ≤ 10)%nat.
Proof.
  intros [-> _]%engine_delivers.
  pose proof (slice_to_length_le question_count
    (InterviewQuestionAPI.search_interview_questions solve fallback responses
       domain company difficulty InterviewQuestionAPI.default_question_count)).
  pose proof (api_search_length responses domain company difficulty
    InterviewQuestionAPI.default_question_count ltac:(done)).
  unfold InterviewQuestionAPI.default_question_count in *. lia.
Qed.

End Pipeline.

Lemma rank_length clock jobs job_role :
  (length (JobSearchEngine._remove_duplicates_and_rank clock jobs job_role) ≤ 50)%nat.
Proof.
  unfold JobSearchEngine._remove_duplicates_and_rank.
  pose proof (slice_to_length_nonneg 50
    (sort_desc JobSearchEngine.score_key
       (JobSearchEngine.unique_jobs clock job_role 0 ∅ jobs)) ltac:(done)).
  lia.
Qed.

(** Two runs of the engine. *)
Lemma twenty_requested_ten_delivered :
  JobSearchEngine.search_interview_questions every_event_delivered one_solution
    one_fallback twelve_responses "DSA" None "all" 20
  = [interview_search_started "DSA" None "all" 20; interview_search_completed ten_results].
Proof. vm_compute. reflexivity. Defined.

Lemma three_requested_three_delivered :
  JobSearchEngine.search_interview_questions every_event_delivered one_solution
    one_fallback
    [SearchReturned (Some [([q_8_first; q_2], [q_10; q_5; q_8_second])])]
    "DSA" None "all" (Z.min 3 20)
  = [interview_search_started "DSA" None "all" 3; interview_search_completed three_results].
Proof. vm_compute. reflexivity. Defined.

(** ** The ranking *)

(** A ranked list that is cut to a prefix: the prefix is in descending
    order of the score, its items of any one score are the first items of
    that score in the order of arrival, and nothing that is cut is ranked
    above something that is kept. *)
Lemma ranked_prefix {A} (key : A -> Z) (arrived out : list A) :
  out `prefix_of` sort_desc key arrived ->
  StronglySorted (desc key) out
  ∧ (∀ s, filter (λ x, key x = s) out `prefix_of` filter (λ x, key x = s) arrived)
  ∧ ∃ cut, (out ++ cut)%list ≡ₚ arrived ∧ ∀ x y, x ∈ out -> y ∈ cut -> key y <= key x.
Proof.
  intros Hpre. split; [|split].
  - eapply sorted_prefix; [exact Hpre|]. apply sort_desc_sorted.
  - intros s. rewrite <-(sort_desc_stable key s arrived). by apply filter_prefix.
  - destruct Hpre as [cut Hcut]. exists cut. split.
    + rewrite <-Hcut. apply sort_desc_perm.
    + apply (sorted_cut key). rewrite <-Hcut. apply sort_desc_sorted.
Qed.

(** A ranked list that is cut at [n]: it has [n] items, or all when
    there are fewer, and it is the front of the one list that holds the
    arrived items in descending order of the score, those of any one
    score in their order of arrival. *)
Lemma ranked_front {A} (key : A -> Z) (arrived : list A) (n : Z) :
  0 <= n ->
  let out := slice_to n (sort_desc key arrived) in
  length out = (Z.to_nat n `min` length arrived)%nat
  ∧ ∃ cut, (out ++ cut)%list ≡ₚ arrived
           ∧ StronglySorted (desc key) (out ++ cut)%list
           ∧ (∀ s, filter (λ x, key x = s) (out ++ cut)%list = filter (λ x, key x = s) arrived)
           ∧ ∀ x y, x ∈ out -> y ∈ cut -> key y <= key x.
Proof.
  intros Hn out. subst out. rewrite slice_to_take by done.
  split; [by rewrite length_take, sort_desc_length|].
  exists (drop (Z.to_nat n) (sort_desc key arrived)).
  rewrite take_drop. split; [apply sort_desc_perm|].
  split; [apply sort_desc_sorted|]. split; [intros s; apply sort_desc_stable|].
  apply (sorted_cut key). rewrite take_drop. apply sort_desc_sorted.
Qed.

(** Two lists in descending order of the score that hold the same items
    of every score in the same order are one list: the ranking of the
    arrived items is determined. *)
Lemma stable_ranking_unique {A} (key : A -> Z) (l1 l2 : list A) :
  StronglySorted (desc key) l1 -> StronglySorted (desc key) l2 ->
  (∀ s, filter (λ x, key x = s) l1 = filter (λ x, key x = s) l2) ->
  l1 = l2.
Proof.
  revert l2. induction l1 as [|x r1 IH]; intros l2 H1 H2 Hfilter.
  - destruct l2 as [|y r2]; [done|].
    specialize (Hfilter (key y)). by rewrite filter_nil, filter_cons_True in Hfilter.
  - destruct l2 as [|y r2].
    { specialize (Hfilter (key x)). by rewrite filter_nil, filter_cons_True in Hfilter. }
    apply StronglySorted_inv in H1 as [H1 Hx]. apply StronglySorted_inv in H2 as [H2 Hy].
    assert (key x = key y) as Hkey.
    { assert (y ∈ x :: r1) as Hyin.
      { eapply (list_elem_of_filter (λ z, key z = key y)). rewrite Hfilter.
        rewrite filter_cons_True by done. apply list_elem_of_here. }
      assert (x ∈ y :: r2) as Hxin.
      { eapply (list_elem_of_filter (λ z, key z = key x)). rewrite <-Hfilter.
        rewrite filter_cons_True by done. apply list_elem_of_here. }
      apply elem_of_cons in Hyin as [->|Hyin]; [done|].
      apply elem_of_cons in Hxin as [->|Hxin]; [done|].
      rewrite Forall_forall in Hx, Hy.
      pose proof (Hx y Hyin). pose proof (Hy x Hxin). unfold desc in *. lia. }
    pose proof (Hfilter (key x)) as Hhead.
    rewrite filter_cons_True in Hhead by done.
    rewrite filter_cons_True in Hhead by done.
    injection Hhead as -> Hrest. f_equal. apply IH; [done..|].
    intros s. destruct (decide (s = key y)) as [->|Hs]; [done|].
    specialize (Hfilter s).
    by rewrite !filter_cons_False in Hfilter by (intros ?; by apply Hs).
Qed.

Lemma sorted_by_key {A} (key : A -> Z) (l : list A) :
  StronglySorted (desc key) l ↔ StronglySorted (λ a b, b <= a) (key <$> l).
Proof.
  induction l as [|x r IH]; [split; constructor|].
  rewrite fmap_cons, !StronglySorted_cons, IH, Forall_fmap. done.
Qed.

Lemma prefix_fmap {A B} (f : A -> B) (l1 l2 : list A) :
  l1 `prefix_of` l2 -> f <$> l1 `prefix_of` f <$> l2.
Proof. intros [k ->]. rewrite fmap_app. by apply prefix_app_r. Qed.

Section RankedQuestions.
Variable solve : string -> string -> option string -> string -> string -> option string.
Variable fallback : string -> string -> string.

Lemma enhance_unsolved l domain company e :
  InterviewQuestionAPI._enhance_questions_with_detailed_solutions solve fallback
    l domain company = Some e ->
  unsolved <$> e = unsolved <$> l.
Proof.
  revert e. induction l as [|q r IH]; intros e; simpl.
  { by intros [= <-]. }
  unfold InterviewQuestionAPI.enhance_one.
  destruct (q_question q) as [text|]; [|discriminate].
  destruct (InterviewQuestionAPI._enhance_questions_with_detailed_solutions _ _ _ _ _)
    as [r'|]; [|by destruct (solve _ _ _ _ _)].
  specialize (IH r' eq_refl).
  destruct (solve _ _ _ _ _); intros [= <-]; rewrite !fmap_cons; by f_equal.
Qed.

Lemma api_search_prefix responses domain company difficulty question_count :
  unsolved <$> InterviewQuestionAPI.search_interview_questions solve fallback
                 responses domain company difficulty question_count
  `prefix_of` unsolved <$> ranked_questions responses domain company question_count.
Proof.
  unfold InterviewQuestionAPI.search_interview_questions.
  destruct (InterviewQuestionAPI._enhance_questions_with_detailed_solutions _ _ _ _ _)
    as [e|] eqn:He; [|apply prefix_nil].
  rewrite (enhance_unsolved _ _ _ _ He). apply prefix_fmap, slice_to_prefix.
Qed.

(** What the engine delivers are the first ranked questions, in their
    rank, each with a solution. *)
Lemma engine_delivers_ranked sink responses domain company difficulty question_count r :
  interview_search_completed r
    ∈ JobSearchEngine.search_interview_questions sink solve fallback responses
        domain company difficulty question_count ->
  StronglySorted (desc InterviewQuestionAPI.q_score_key) (questions r)
  ∧ unsolved <$> questions r
    `prefix_of` unsolved <$> ranked_questions responses domain company
                               InterviewQuestionAPI.default_question_count.
Proof.
  intros [-> _]%engine_delivers.
  assert (unsolved <$> slice_to question_count
            (InterviewQuestionAPI.search_interview_questions solve fallback responses
               domain company difficulty InterviewQuestionAPI.default_question_count)
          `prefix_of` unsolved <$> ranked_questions responses domain company
                                     InterviewQuestionAPI.default_question_count) as Hpre.
  { etrans; [apply prefix_fmap, slice_to_prefix|apply api_search_prefix]. }
  split; [|done].
  assert (∀ l, InterviewQuestionAPI.q_score_key <$> (unsolved <$> l)
               = InterviewQuestionAPI.q_score_key <$> l) as Hkey
    by (intros l; by rewrite <-list_fmap_compose).
  apply (prefix_fmap InterviewQuestionAPI.q_score_key) in Hpre.
  rewrite !Hkey in Hpre.
  apply sorted_by_key.
  apply (sorted_prefix (λ z : Z, z) _ _ Hpre).
  apply (sorted_by_key InterviewQuestionAPI.q_score_key).
  unfold ranked_questions, InterviewQuestionAPI._filter_relevant_questions.
  destruct (InterviewQuestionAPI._remove_duplicate_questions _);
    [constructor|apply sort_desc_sorted].
Qed.

(** What the engine delivers are the first ranked questions up to the
    two cuts, or nothing when the generation of the solutions raises. *)
Lemma engine_delivers_front sink responses domain company difficulty question_count r :
  interview_search_completed r
    ∈ JobSearchEngine.search_interview_questions sink solve fallback responses
        domain company difficulty question_count ->
  questions r = []
  ∨ unsolved <$> questions r
    = unsolved <$> slice_to question_count
                     (slice_to 10 (ranked_questions responses domain company 10)).
Proof.
  intros [-> _]%engine_delivers.
  unfold InterviewQuestionAPI.search_interview_questions.
  destruct (InterviewQuestionAPI._enhance_questions_with_detailed_solutions _ _ _ _ _)
    as [e|] eqn:He.
  - right. rewrite <-(slice_to_fmap unsolved question_count e).
    rewrite (enhance_unsolved _ _ _ _ He). by rewrite slice_to_fmap.
  - left. apply slice_to_nil.
Qed.

End RankedQuestions.

(** C6: the ranking is in descending order of the relevance score and
    stable, and it returns the items of the highest scores. The ranked
    jobs are the first 50 unique jobs, or all when there are fewer, of
    the one list that holds the unique jobs in descending order of the
    score, those of any one score in their order of arrival: no unique
    job that is cut is ranked above one that is kept, and no other list
    of that length is the front of such an order. The ranked questions
    are the scored questions in descending order of the score, those of
    one score in their order of arrival; the questions that the engine
    delivers are the first of them up to the cut of the search at ten
    and the cut at the requested count, in their rank, or none when the
    generation of the solutions raises.

    In the scenario, five questions that arrive with the scores 8, 2,
    10, 5, 8 and a requested count of 3 give the questions of scores 10,
    8, 8, the two of score 8 in their order of arrival; the question of
    score 2 does not pass the threshold of the relevance filter and is
    not ranked. With the score 4 in its place, five questions are ranked,
    with the scores 10, 8, 8, 5, 4, and the cut keeps the same three.
    Five jobs that arrive with the scores 8, 3, 10, 5, 8 are ranked 10,
    8, 8, 5, 3: the ranking of the jobs has no requested count, and its
    cut at 50 keeps them all. *)
Theorem ranking_sorted_stable (clock : nat -> PyDate.datetime) (job_role : string)
    (jobs : list job) (qs : list question) (domain : string) (company : option string) :
  (let unique := JobSearchEngine.unique_jobs clock job_role 0 ∅ jobs in
   let ranked := JobSearchEngine._remove_duplicates_and_rank clock jobs job_role in
   StronglySorted (desc JobSearchEngine.score_key) ranked
   ∧ (∀ s, filter (λ j, JobSearchEngine.score_key j = s) ranked
           `prefix_of` filter (λ j, JobSearchEngine.score_key j = s) unique)
   ∧ length ranked = (50 `min` length unique)%nat
   ∧ (∃ cut, (ranked ++ cut)%list ≡ₚ unique
             ∧ StronglySorted (desc JobSearchEngine.score_key) (ranked ++ cut)%list
             ∧ (∀ s, filter (λ j, JobSearchEngine.score_key j = s) (ranked ++ cut)%list
                     = filter (λ j, JobSearchEngine.score_key j = s) unique)
             ∧ ∀ x y, x ∈ ranked -> y ∈ cut ->
                      JobSearchEngine.score_key y <= JobSearchEngine.score_key x)
   ∧ ∀ out cut,
       length out = (50 `min` length unique)%nat ->
       StronglySorted (desc JobSearchEngine.score_key) (out ++ cut)%list ->
       (∀ s, filter (λ j, JobSearchEngine.score_key j = s) (out ++ cut)%list
             = filter (λ j, JobSearchEngine.score_key j = s) unique) ->
       out = ranked)
  ∧
  (let scored := InterviewQuestionAPI.scored_questions qs domain company in
   let ranked := InterviewQuestionAPI._filter_relevant_questions qs domain company in
   StronglySorted (desc InterviewQuestionAPI.q_score_key) ranked
   ∧ ranked ≡ₚ scored
   ∧ ∀ s, filter (λ q, InterviewQuestionAPI.q_score_key q = s) ranked
          = filter (λ q, InterviewQuestionAPI.q_score_key q = s) scored)
  ∧
  (∀ sink solve fallback responses difficulty question_count r,
     interview_search_completed r
       ∈ JobSearchEngine.search_interview_questions sink solve fallback responses
           domain company difficulty question_count ->
     StronglySorted (desc InterviewQuestionAPI.q_score_key) (questions r)
     ∧ unsolved <$> questions r
       `prefix_of` unsolved <$> ranked_questions responses domain company 10
     ∧ (questions r = []
        ∨ unsolved <$> questions r
          = unsolved <$> slice_to question_count
                           (slice_to 10 (ranked_questions responses domain company 10))))
  ∧
  JobSearchEngine.search_interview_questions every_event_delivered
    one_solution one_fallback
    [SearchReturned (Some [([q_8_first; q_2], [q_10; q_5; q_8_second])])]
    "DSA" None "all" 3
  = [ interview_search_started "DSA" None "all" 3;
      interview_search_completed
        (InterviewResults "DSA" None "all"
           [delivered q_10 10; delivered q_8_first 8; delivered q_8_second 8] 3) ]
  ∧
  (InterviewQuestionAPI.q_score_key
     <$> ranked_questions
           [SearchReturned (Some [([q_8_first; q_4], [q_10; q_5; q_8_second])])]
           "DSA" None 10
   = [10; 8; 8; 5; 4]
   ∧ JobSearchEngine.search_interview_questions every_event_delivered
       one_solution one_fallback
       [SearchReturned (Some [([q_8_first; q_4], [q_10; q_5; q_8_second])])]
       "DSA" None "all" 3
     = [ interview_search_started "DSA" None "all" 3;
         interview_search_completed
           (InterviewResults "DSA" None "all"
              [delivered q_10 10; delivered q_8_first 8; delivered q_8_second 8] 3) ])
  ∧
  JobSearchEngine._remove_duplicates_and_rank (λ _, jan_5)
    [j_8_first; j_3; j_10; j_5; j_8_second] "Analyst"
  = [ set_relevance_score j_10 10; set_relevance_score j_8_first 8;
      set_relevance_score j_8_second 8; set_relevance_score j_5 5;
      set_relevance_score j_3 3 ].
Proof.
  split; [|split; [|split; [|split; [|split]]]].
  - destruct (ranked_prefix JobSearchEngine.score_key
                (JobSearchEngine.unique_jobs clock job_role 0 ∅ jobs)
                (JobSearchEngine._remove_duplicates_and_rank clock jobs job_role)
                (slice_to_prefix _ _)) as (Hsorted & Hprefix & _).
    destruct (ranked_front JobSearchEngine.score_key
                (JobSearchEngine.unique_jobs clock job_role 0 ∅ jobs) 50 ltac:(done))
      as (Hlength & cut & Hperm & Hall & Hstable & Hcut).
    split; [done|]. split; [done|]. split; [exact Hlength|].
    split; [by exists cut|].
    intros out cut' Hout Hsorted' Hstable'.
    assert ((out ++ cut')%list
            = (JobSearchEngine._remove_duplicates_and_rank clock jobs job_role ++ cut)%list)
      as Heq.
    { apply (stable_ranking_unique JobSearchEngine.score_key); [done..|].
      intros s. by rewrite Hstable', <-Hstable. }
    assert (length out
            = length (JobSearchEngine._remove_duplicates_and_rank clock jobs job_role))
      as Hsame by (rewrite Hout; symmetry; exact Hlength).
    apply (f_equal (take (length out))) in Heq.
    rewrite take_app_length in Heq. rewrite Heq, Hsame. apply take_app_length.
  - assert (InterviewQuestionAPI._filter_relevant_questions qs domain company
            = sort_desc InterviewQuestionAPI.q_score_key
                (InterviewQuestionAPI.scored_questions qs domain company)) as ->
      by by destruct qs.
    split; [apply sort_desc_sorted|]. split; [apply sort_desc_perm|].
    intros s. apply sort_desc_stable.
  - intros sink solve fallback responses difficulty question_count r Hin.
    destruct (engine_delivers_ranked solve fallback sink responses domain company
                difficulty question_count r Hin) as [Hsorted Hprefix].
    split; [done|]. split; [done|]. by eapply engine_delivers_front.
  - vm_compute. reflexivity.
  - split; vm_compute; reflexivity.
  - vm_compute. reflexivity.
Qed.

Lemma ranking_sorted_stable_witness :
  interview_search_completed three_results
    ∈ JobSearchEngine.search_interview_questions every_event_delivered one_solution
        one_fallback
        [SearchReturned (Some [([q_8_first; q_2], [q_10; q_5; q_8_second])])]
        "DSA" None "all" (Z.min 3 20)
  ∧ StronglySorted (desc InterviewQuestionAPI.q_score_key) (questions three_results)
  ∧ unsolved <$> questions three_results
    `prefix_of` unsolved <$> ranked_questions
                  [SearchReturned (Some [([q_8_first; q_2], [q_10; q_5; q_8_second])])]
                  "DSA" None 10
  ∧ (questions three_results = []
     ∨ unsolved <$> questions three_results
       = unsolved <$> slice_to (Z.min 3 20)
                        (slice_to 10
                           (ranked_questions
                              [SearchReturned
                                 (Some [([q_8_first; q_2], [q_10; q_5; q_8_second])])]
                              "DSA" None 10))).
Proof.
  assert (interview_search_completed three_results
    ∈ JobSearchEngine.search_interview_questions every_event_delivered one_solution
        one_fallback
        [SearchReturned (Some [([q_8_first; q_2], [q_10; q_5; q_8_second])])]
        "DSA" None "all" (Z.min 3 20)) as Hin.
  { rewrite three_requested_three_delivered.
    apply list_elem_of_further, list_elem_of_here. }
  split; [exact Hin|].
  destruct (ranking_sorted_stable (λ _, jan_5) "ML Engineer" [acme_job; acme_job_2]
              [q_8_first; q_2; q_10; q_5; q_8_second] "DSA" None)
    as (_ & _ & Hdelivered & _).
  exact (Hdelivered every_event_delivered one_solution one_fallback
           [SearchReturned (Some [([q_8_first; q_2], [q_10; q_5; q_8_second])])]
           "all" (Z.min 3 20) three_results Hin).
Defined.

(** ** The length of the result *)

(** C10: whatever count is requested, the engine delivers at most ten
    questions: it calls the question search without the count, the
    search cuts its answer to its default of ten, and the cut to the
    requested count that follows only shortens the list. *)
Theorem at_most_ten_questions
    (sink : event -> emit_result)
    (solve : string -> string -> option string -> string -> string -> option string)
    (fallback : string -> string -> string)
    (responses : list query_response) (domain : string) (company : option string)
    (difficulty : string) (question_count : Z) (r : interview_results) :
  interview_search_completed r
    ∈ JobSearchEngine.search_interview_questions sink solve fallback responses
        domain company difficulty question_count ->
  (length (questions r) ≤ 10)%nat
  ∧ questions r
    = slice_to question_count
        (InterviewQuestionAPI.search_interview_questions solve fallback responses
           domain company difficulty 10).
Proof.
  intros H. split; [by eapply engine_delivers_at_most_10|].
  by apply engine_delivers in H as [-> _].
Qed.

Lemma at_most_ten_questions_witness :
  interview_search_completed ten_results
    ∈ JobSearchEngine.search_interview_questions every_event_delivered one_solution
        one_fallback twelve_responses "DSA" None "all" 20
  ∧ (length (questions ten_results) ≤ 10)%nat.
Proof.
  assert (interview_search_completed ten_results
    ∈ JobSearchEngine.search_interview_questions every_event_delivered one_solution
        one_fallback twelve_responses "DSA" None "all" 20) as Hin.
  { rewrite twenty_requested_ten_delivered. apply list_elem_of_further, list_elem_of_here. }
  split; [exact Hin|].
  exact (proj1 (at_most_ten_questions every_event_delivered one_solution one_fallback
                  twelve_responses "DSA" None "all" 20 ten_results Hin)).
Defined.

(** C7, on the code: for a requested count of -1, which the route hands
    to the engine as it is, the statement [questions[:question_count]]
    under the comment [# Limit to requested count] drops the last
    question of the three that the search returns and delivers two,
    more than [min(-1, 20)]; the question search itself, given the count
    -1, returns no question. *)
Theorem negative_count_delivers_questions :
  started (Routes.search_interview_questions
             (Some (list_to_map [("domain", JStr "DSA"); ("question_count", JInt (-1))])))
    = Some (interview_search_thread "DSA" None "all" (-1))
  ∧ JobSearchEngine.search_interview_questions every_event_delivered
      one_solution one_fallback
      [SearchReturned (Some [([q_8_first; q_10; q_8_second], [])])]
      "DSA" None "all" (-1)
    = [ interview_search_started "DSA" None "all" (-1);
        interview_search_completed
          (InterviewResults "DSA" None "all"
             [delivered q_10 10; delivered q_8_first 8] 2) ]
  ∧ ¬ (2 <= Z.min (-1) 20)
  ∧ InterviewQuestionAPI.search_interview_questions one_solution one_fallback
      [SearchReturned (Some [([q_8_first; q_10; q_8_second], [])])]
      "DSA" None "all" (-1)
    = [].
Proof. split; [|split; [|split]]; [vm_compute; reflexivity..|lia|vm_compute; reflexivity]. Qed.

(** The cuts hold for the counts that are not negative: for such a
    target count the engine, called with the count [min(target, 20)] of
    the route, delivers at most [min(target, 20)] questions; and the
    ranking of the jobs returns at most 50 jobs, whatever the number of
    jobs it is given. *)
Lemma result_length_capped
    (sink : event -> emit_result)
    (solve : string -> string -> option string -> string -> string -> option string)
    (fallback : string -> string -> string)
    (responses : list query_response) (domain : string) (company : option string)
    (difficulty : string) (target : Z) (r : interview_results)
    (clock : nat -> PyDate.datetime) (jobs : list job) (job_role : string) :
  0 <= target ->
  (interview_search_completed r
     ∈ JobSearchEngine.search_interview_questions sink solve fallback responses
         domain company difficulty (Z.min target 20) ->
   Z.of_nat (length (questions r)) <= Z.min target 20)
  ∧ (length (JobSearchEngine._remove_duplicates_and_rank clock jobs job_role) ≤ 50)%nat.
Proof.
  intros Ht. split; [|apply rank_length].
  intros Hin.
  pose proof (engine_delivers_at_most_10 _ _ _ _ _ _ _ _ _ Hin) as H10.
  apply engine_delivers in Hin as [-> _].
  match goal with
  | |- Z.of_nat (length (slice_to ?n ?l)) <= _ =>
      pose proof (slice_to_length_nonneg n l ltac:(lia))
  end.
  lia.
Qed.

Lemma result_length_capped_witness :
  0 <= 3
  ∧ interview_search_completed three_results
      ∈ JobSearchEngine.search_interview_questions every_event_delivered one_solution
          one_fallback
          [SearchReturned (Some [([q_8_first; q_2], [q_10; q_5; q_8_second])])]
          "DSA" None "all" (Z.min 3 20)
  ∧ Z.of_nat (length (questions three_results)) <= Z.min 3 20
  ∧ (length (JobSearchEngine._remove_duplicates_and_rank (λ _, jan_5)
               [acme_job; acme_job_2] "ML Engineer") ≤ 50)%nat.
Proof.
  assert (0 <= 3) as H3 by lia.
  assert (interview_search_completed three_results
      ∈ JobSearchEngine.search_interview_questions every_event_delivered one_solution
          one_fallback
          [SearchReturned (Some [([q_8_first; q_2], [q_10; q_5; q_8_second])])]
          "DSA" None "all" (Z.min 3 20)) as Hin.
  { rewrite three_requested_three_delivered.
    apply list_elem_of_further, list_elem_of_here. }
  split; [exact H3|]. split; [exact Hin|].
  destruct (result_length_capped every_event_delivered one_solution one_fallback
              [SearchReturned (Some [([q_8_first; q_2], [q_10; q_5; q_8_second])])]
              "DSA" None "all" 3 three_results (λ _, jan_5)
              [acme_job; acme_job_2] "ML Engineer" H3) as [Hq Hj].
  split; [exact (Hq Hin)|exact Hj].
Defined.

(** ** The job search session *)

Lemma source_names_of_tasks :
  JobSearchEngine.source_names = api_name <$> JobSearchEngine.search_tasks.
Proof. reflexivity. Qed.

Lemma arrived_status a message status rest :
  arrived (status_emitted a message status :: rest) = arrived rest.
Proof. done. Qed.

Lemma arrived_task a result rest :
  arrived (task_done a result :: rest)
  = (JobSearchEngine._safe_search result ++ arrived rest)%list.
Proof.
  unfold arrived, JobSearchEngine.merged. cbn [JobSearchEngine.completions omap list_omap].
  rewrite bind_cons, fmap_app. f_equal. cbn [fst snd].
  rewrite <-list_fmap_compose. apply list_fmap_id.
Qed.

Lemma arrived_nil : arrived [] = [].
Proof. done. Qed.


Section SessionFacts.
Variable sink : event -> emit_result.

Lemma collect_all_jobs i steps r trace :
  all_jobs (JobSearchEngine.collect sink i steps r trace).1
  = (all_jobs r ++ arrived steps)%list.
Proof.
  revert i r trace.
  induction steps as [|[a message status|a result] rest IH]; intros i r trace.
  - simpl. by rewrite app_nil_r.
  - cbn [JobSearchEngine.collect]. by rewrite IH, arrived_status.
  - cbn [JobSearchEngine.collect]. rewrite IH, arrived_task. cbn. by rewrite <-app_assoc.
Qed.

Lemma collect_status i steps r trace :
  search_status (JobSearchEngine.collect sink i steps r trace).1 = search_status r.
Proof.
  revert i r trace.
  induction steps as [|[a message status|a result] rest IH]; intros i r trace;
    cbn [JobSearchEngine.collect]; [done|by rewrite IH..].
Qed.

(** The collection changes the keys [sources] and [all_jobs] only. *)
Lemma collect_frame i steps r trace :
  let r' := (JobSearchEngine.collect sink i steps r trace).1 in
  r_job_role r' = r_job_role r ∧ r_location r' = r_location r
  ∧ r_timestamp r' = r_timestamp r ∧ total_jobs r' = total_jobs r
  ∧ summary r' = summary r ∧ error r' = error r.
Proof.
  revert i r trace.
  induction steps as [|[a message status|a result] rest IH]; intros i r trace;
    cbn [JobSearchEngine.collect]; [done|apply IH|].
  destruct (IH (S i) (JobSearchEngine.set_sources r (JobSearchEngine.source_name i)
                        (JobSearchEngine._safe_search result))
               (JobSearchEngine.push sink trace
                  (source_completed (JobSearchEngine.source_name i)
                     (Z.of_nat (length (JobSearchEngine._safe_search result)))
                     (Z.of_nat (length (all_jobs
                        (JobSearchEngine.set_sources r (JobSearchEngine.source_name i)
                           (JobSearchEngine._safe_search result))))))))
    as (-> & -> & -> & -> & -> & ->).
  done.
Qed.

(** The lists under [sources] at the end of the collection are the
    lists that the tasks returned. *)
Lemma collect_sources_filed i steps r trace :
  sources (JobSearchEngine.collect sink i steps r trace).1
  = JobSearchEngine.filed i steps (arrived steps) (sources r).
Proof.
  revert i r trace.
  induction steps as [|[a message status|a result] rest IH]; intros i r trace;
    cbn [JobSearchEngine.collect JobSearchEngine.filed]; [done|by rewrite IH|].
  rewrite IH, arrived_task, drop_app_length, take_app_length. done.
Qed.

End SessionFacts.

Lemma collect_results_sink sink1 sink2 i steps r trace1 trace2 :
  (JobSearchEngine.collect sink1 i steps r trace1).1
  = (JobSearchEngine.collect sink2 i steps r trace2).1.
Proof.
  revert i r trace1 trace2.
  induction steps as [|[a message status|a result] rest IH]; intros i r trace1 trace2;
    cbn [JobSearchEngine.collect]; [done|apply IH..].
Qed.

(** The name of a task is the name at its index of completion, for the
    five tasks of a session. *)
Lemma source_name_inj i k :
  (i < 5)%nat -> (k < 5)%nat ->
  JobSearchEngine.source_name i = JobSearchEngine.source_name k -> i = k.
Proof.
  intros Hi Hk.
  do 5 (destruct i as [|i]; [do 5 (destruct k as [|k]; [done || discriminate|]); lia|]).
  lia.
Qed.

Lemma completions_status a message status rest :
  JobSearchEngine.completions (status_emitted a message status :: rest)
  = JobSearchEngine.completions rest.
Proof. done. Qed.

Lemma completions_task a result rest :
  JobSearchEngine.completions (task_done a result :: rest)
  = (a, result) :: JobSearchEngine.completions rest.
Proof. done. Qed.

Lemma filed_other i steps dicts m name :
  (∀ k, (i ≤ k < i + length (JobSearchEngine.completions steps))%nat ->
        JobSearchEngine.source_name k ≠ name) ->
  JobSearchEngine.filed i steps dicts m !! name = m !! name.
Proof.
  revert i dicts m.
  induction steps as [|[a message status|a result] rest IH]; intros i dicts m Hname;
    cbn [JobSearchEngine.filed]; [done|by apply IH|].
  rewrite completions_task in Hname. simpl in Hname.
  rewrite IH by (intros k Hk; apply Hname; lia).
  apply lookup_insert_ne, Hname. lia.
Qed.

Lemma filed_fmap {B} (f : job -> B) i steps dicts1 dicts2 m1 m2 :
  f <$> dicts1 = f <$> dicts2 ->
  (∀ name, fmap f <$> m1 !! name = fmap f <$> m2 !! name) ->
  ∀ name, fmap f <$> JobSearchEngine.filed i steps dicts1 m1 !! name
          = fmap f <$> JobSearchEngine.filed i steps dicts2 m2 !! name.
Proof.
  revert i dicts1 dicts2 m1 m2.
  induction steps as [|[a message status|a result] rest IH];
    intros i dicts1 dicts2 m1 m2 Hdicts Hm; cbn [JobSearchEngine.filed];
    [done|by apply IH|].
  apply IH.
  - by rewrite !fmap_drop, Hdicts.
  - intros name. destruct (decide (JobSearchEngine.source_name i = name)) as [<-|Hne].
    + rewrite !lookup_insert_eq. simpl. by rewrite !fmap_take, Hdicts.
    + by rewrite !lookup_insert_ne.
Qed.

Lemma filed_size i steps dicts m :
  (i + length (JobSearchEngine.completions steps) ≤ 5)%nat ->
  (∀ k, (i ≤ k < 5)%nat -> m !! JobSearchEngine.source_name k = None) ->
  size (JobSearchEngine.filed i steps dicts m)
  = (size m + length (JobSearchEngine.completions steps))%nat.
Proof.
  revert i dicts m.
  induction steps as [|[a message status|a result] rest IH]; intros i dicts m Hlen Hfresh;
    cbn [JobSearchEngine.filed].
  - simpl. lia.
  - by apply IH.
  - rewrite completions_task in *. simpl in Hlen. rewrite IH; [|lia|].
    + rewrite map_size_insert_None by (apply Hfresh; lia). simpl. lia.
    + intros k Hk. rewrite lookup_insert_ne; [apply Hfresh; lia|].
      intros Heq%source_name_inj; lia.
Qed.

(** *** The loop of the ranking on the dictionaries of a session *)

Lemma score_in_place_raw clock job_role level i seen jobs :
  raw <$> (JobSearchEngine.score_in_place clock job_role level i seen jobs).1
  = raw <$> jobs.*2.
Proof.
  revert i seen. induction jobs as [|[a j] rest IH]; intros i seen; [done|].
  cbn [JobSearchEngine.score_in_place].
  destruct (bool_decide _ && JobSearchEngine._is_valid_job j).
  - destruct (JobSearchEngine.lower_raises level a); [done|].
    specialize (IH (S i) ({[JobSearchEngine._create_job_hash j]} ∪ seen)).
    destruct (JobSearchEngine.score_in_place _ _ _ _ _ rest) as [dicts unique].
    cbn [fst] in *. rewrite !fmap_cons, IH. done.
  - specialize (IH (S i) seen).
    destruct (JobSearchEngine.score_in_place _ _ _ _ _ rest) as [dicts unique].
    cbn [fst] in *. rewrite !fmap_cons, IH. done.
Qed.

Lemma score_in_place_length clock job_role level i seen jobs :
  length (JobSearchEngine.score_in_place clock job_role level i seen jobs).1 = length jobs.
Proof.
  pose proof (f_equal length (score_in_place_raw clock job_role level i seen jobs)) as H.
  by rewrite !length_fmap in H.
Qed.

(** The loop raises when it keeps a job whose [experience_level] is no
    text; otherwise it gives the unique jobs of the ranking. *)
Lemma score_in_place_unique clock job_role level i seen jobs :
  (JobSearchEngine.score_in_place clock job_role level i seen jobs).2
  = if existsb (λ t : api * job, JobSearchEngine.lower_raises level t.1)
         (first_seen (λ t : api * job, JobSearchEngine._create_job_hash t.2)
                     (λ t : api * job, JobSearchEngine._is_valid_job t.2) seen jobs)
    then None
    else Some (JobSearchEngine.unique_jobs clock job_role i seen jobs.*2).
Proof.
  revert i seen. induction jobs as [|[a j] rest IH]; intros i seen; [done|].
  cbn [JobSearchEngine.score_in_place first_seen fmap list_fmap snd fst
       JobSearchEngine.unique_jobs].
  destruct (bool_decide _ && JobSearchEngine._is_valid_job j).
  - cbn [existsb fst]. destruct (JobSearchEngine.lower_raises level a); [done|].
    specialize (IH (S i) ({[JobSearchEngine._create_job_hash j]} ∪ seen)).
    destruct (JobSearchEngine.score_in_place _ _ _ _ _ rest) as [dicts unique].
    cbn [snd orb] in *. rewrite IH. by destruct (existsb _ _).
  - specialize (IH (S i) seen).
    destruct (JobSearchEngine.score_in_place _ _ _ _ _ rest) as [dicts unique].
    cbn [snd] in *. done.
Qed.

Lemma text_level_never_raises s steps : ranking_raises (json_str s) steps = false.
Proof.
  unfold ranking_raises. apply not_true_is_false. intros (t & _ & Ht)%existsb_exists.
  by destruct t as [[] j].
Qed.



(** *** The state at the end of a session *)

(** The results of a session whose three events outside the executor
    block are delivered and whose ranking does not raise. *)
Lemma session_runs_to_its_end sink now clock steps job_role location filters level :
  JobSearchEngine.requested_experience_level filters = Some level ->
  all_tasks_finish steps ->
  sink (search_started job_role location) = Delivered ->
  sink ranking_starts = Delivered ->
  ranking_raises level steps = false ->
  ∃ r, search_status r = completed
     ∧ all_jobs r = JobSearchEngine._remove_duplicates_and_rank clock (arrived steps) job_role
     ∧ total_jobs r = Z.of_nat (length (all_jobs r))
     ∧ sources r
       = JobSearchEngine.filed 0 steps
           (JobSearchEngine.score_in_place clock job_role level 0 ∅
              (JobSearchEngine.merged steps)).1 ∅
     ∧ summary r
       = Some (SearchSummary (total_jobs r) (Z.of_nat (size (sources r)))
                 ((λ jobs : list job, Z.of_nat (length jobs)) <$> sources r) now)
     ∧ error r = None
     ∧ (JobSearchEngine.comprehensive_job_search every_event_delivered now clock steps
          job_role location filters).1 = r
     ∧ (JobSearchEngine.comprehensive_job_search sink now clock steps
          job_role location filters).1
       = match sink (search_completed r) with
         | Delivered => r
         | EmitRaised message =>
             Results (r_job_role r) (r_location r) (r_timestamp r) (total_jobs r)
                     (sources r) (all_jobs r) failed (summary r) (Some message)
         end.
Proof.
  intros Hlevel Hfinish Hstarted Hranking Hraises.
  unfold JobSearchEngine.comprehensive_job_search.
  rewrite Hlevel, Hstarted. cbn [every_event_delivered].
  pose proof (collect_results_sink sink every_event_delivered 0 steps
                (Results job_role location now 0 ∅ [] in_progress None None)
                [search_started job_role location] [search_started job_role location])
    as Hsame.
  pose proof (collect_frame every_event_delivered 0 steps
                (Results job_role location now 0 ∅ [] in_progress None None)
                [search_started job_role location]) as Hframe.
  pose proof (collect_status every_event_delivered 0 steps
                (Results job_role location now 0 ∅ [] in_progress None None)
                [search_started job_role location]) as Hstatus.
  destruct (JobSearchEngine.collect sink _ _ _ _) as [r1 trace1].
  destruct (JobSearchEngine.collect every_event_delivered _ _ _ _) as [r2 trace2].
  cbn [fst] in Hsame, Hframe, Hstatus. subst r2.
  destruct Hframe as (Hrole & Hloc & Htime & Htotal & Hsummary & Herror).
  cbn [r_job_role r_location r_timestamp total_jobs summary error search_status]
    in Hrole, Hloc, Htime, Htotal, Hsummary, Herror, Hstatus.
  unfold all_tasks_finish in Hfinish. rewrite Hfinish, Nat.ltb_irrefl.
  fold ranking_starts. rewrite Hranking.
  pose proof (score_in_place_unique clock job_role level 0 ∅ (JobSearchEngine.merged steps))
    as Hunique.
  fold (kept_jobs steps) in Hunique. fold (ranking_raises level steps) in Hunique.
  rewrite Hraises in Hunique. fold (arrived steps) in Hunique.
  destruct (JobSearchEngine.score_in_place _ _ _ _ _ _) as [dicts unique].
  cbn [snd fst] in *. subst unique.
  rewrite Hrole, Hloc, Htime, Hsummary, Herror.
  cbn [r_job_role r_location r_timestamp total_jobs sources all_jobs search_status summary
       error].
  match goal with
  | |- context [match sink (search_completed ?x) with _ => _ end] => exists x
  end.
  split; [done|]. split; [done|]. split; [done|]. split; [done|]. split; [done|].
  split; [done|]. split; [done|].
  match goal with
  | |- context [match sink ?e with _ => _ end] => by destruct (sink e)
  end.
Qed.

(** When [filters.get] raises, nothing is pushed and the dictionary
    stays as it was made. *)
Lemma session_dies_on_ill_typed_filters sink now clock steps job_role location filters :
  JobSearchEngine.requested_experience_level filters = None ->
  JobSearchEngine.comprehensive_job_search sink now clock steps job_role location filters
  = (Results job_role location now 0 ∅ [] in_progress None None, []).
Proof. intros H. unfold JobSearchEngine.comprehensive_job_search. by rewrite H. Qed.

(** When a task never finishes, the session does not reach the ranking:
    it is not marked as completed. *)
Lemma session_waits_for_every_task sink now clock steps job_role location filters :
  (length (JobSearchEngine.completions steps) < 5)%nat ->
  search_status (JobSearchEngine.comprehensive_job_search sink now clock steps
                   job_role location filters).1 ≠ completed.
Proof.
  intros Hlen. unfold JobSearchEngine.comprehensive_job_search.
  destruct (JobSearchEngine.requested_experience_level filters); [|done].
  destruct (sink (search_started _ _)); [|done].
  pose proof (collect_status sink 0 steps
                (Results job_role location now 0 ∅ [] in_progress None None)
                [search_started job_role location]) as Hstatus.
  destruct (JobSearchEngine.collect sink _ _ _ _) as [r trace].
  apply Nat.ltb_lt in Hlen. cbn [length JobSearchEngine.search_tasks].
  rewrite Hlen. cbn [fst] in *. by rewrite Hstatus.
Qed.




(** When every adapter fails, the session is still marked as completed,
    with no job. *)
Lemma total_failure_completed :
  let r := (JobSearchEngine.comprehensive_job_search every_event_delivered
              jan_5 (λ _, jan_5)
              ((λ a, task_done a Raised) <$> JobSearchEngine.search_tasks)
              "ML Engineer" "Pune" fresher_filters).1 in
  search_status r = completed ∧ all_jobs r = [] ∧ total_jobs r = 0.
Proof. vm_compute. done. Qed.

(** C3, on the code: when the task of Naukri completes before the task
    of LinkedIn, the two jobs that Naukri returned are filed under
    ["linkedin"], the one that the ranking keeps with its score, and the
    job that LinkedIn returned under ["naukri"], and the summary counts
    two jobs for LinkedIn and one for Naukri: the names are given by the
    index of completion. *)
Theorem sources_named_by_completion_order :
  let r := (JobSearchEngine.comprehensive_job_search every_event_delivered
              jan_5 (λ _, jan_5) naukri_first "ML Engineer" "Pune" fresher_filters).1 in
  sources r !! api_name linkedin_api
  = Some [scored jan_5 "ML Engineer" acme_job_2; acme_job_no_url]
  ∧ sources r !! api_name naukri_api = Some [acme_job]
  ∧ (summary r ≫= λ s, source_breakdown s !! api_name linkedin_api) = Some 2
  ∧ (summary r ≫= λ s, source_breakdown s !! api_name naukri_api) = Some 1.
Proof. split; [|split; [|split]]; vm_compute; reflexivity. Qed.

(** The lists under [sources] hold the jobs that the tasks returned:
    the ranking adds scores and nothing else. *)
Lemma session_sources_raw clock job_role level steps name :
  fmap raw <$> JobSearchEngine.filed 0 steps
                 (JobSearchEngine.score_in_place clock job_role level 0 ∅
                    (JobSearchEngine.merged steps)).1 ∅ !! name
  = fmap raw <$> JobSearchEngine.filed 0 steps (arrived steps) ∅ !! name.
Proof.
  apply filed_fmap; [|done]. apply score_in_place_raw.
Qed.

Lemma arrived_segment steps k a result :
  (length (JobSearchEngine.completions steps) ≤ 5)%nat ->
  JobSearchEngine.completions steps !! k = Some (a, result) ->
  JobSearchEngine.filed 0 steps (arrived steps) ∅ !! JobSearchEngine.source_name k
  = Some (JobSearchEngine._safe_search result).
Proof.
  intros Hlen Hk.
  assert (∀ i steps m k a result,
    (i + length (JobSearchEngine.completions steps) ≤ 5)%nat ->
    JobSearchEngine.completions steps !! k = Some (a, result) ->
    JobSearchEngine.filed i steps (arrived steps) m !! JobSearchEngine.source_name (i + k)
    = Some (JobSearchEngine._safe_search result)) as Hgen.
  { clear. intros i steps. revert i.
    induction steps as [|[b message status|b result'] rest IH]; intros i m k a result Hlen Hk;
      [done|by apply (IH i m k a result)|].
    rewrite completions_task in Hlen, Hk. simpl in Hlen.
    cbn [JobSearchEngine.filed]. rewrite arrived_task, drop_app_length, take_app_length.
    destruct k as [|k].
    - injection Hk as -> ->. rewrite filed_other.
      + by rewrite Nat.add_0_r, lookup_insert_eq.
      + intros j Hj Heq. apply source_name_inj in Heq; lia.
    - simpl in Hk. replace (i + S k)%nat with (S i + k)%nat by lia.
      apply (IH (S i) _ k a result); (lia || done). }
  by apply (Hgen 0%nat steps ∅ k a result).
Qed.

(** The tasks complete in the order of submission: every adapter is
    filed under its own name. *)
Lemma sources_in_submission_order sink now clock job_role location filters level
    (results_of : api -> adapter_result) a :
  let steps := (λ a, task_done a (results_of a)) <$> JobSearchEngine.search_tasks in
  JobSearchEngine.requested_experience_level filters = Some level ->
  (∀ e, sink e = Delivered) ->
  ranking_raises level steps = false ->
  fmap raw <$> sources (JobSearchEngine.comprehensive_job_search sink now clock steps
                          job_role location filters).1 !! api_name a
  = Some (raw <$> JobSearchEngine._safe_search (results_of a)).
Proof.
  intros steps Hlevel Hsink Hraises.
  destruct (session_runs_to_its_end sink now clock steps job_role location filters level
              Hlevel eq_refl (Hsink _) (Hsink _) Hraises)
    as (r & _ & _ & _ & Hsources & _ & _ & _ & ->).
  rewrite Hsink, Hsources, session_sources_raw.
  destruct a.
  - by rewrite (arrived_segment steps 0 linkedin_api (results_of linkedin_api) ltac:(simpl; lia) eq_refl
                 : JobSearchEngine.filed 0 steps (arrived steps) ∅ !! api_name linkedin_api = _).
  - by rewrite (arrived_segment steps 1 naukri_api (results_of naukri_api) ltac:(simpl; lia) eq_refl
                 : JobSearchEngine.filed 0 steps (arrived steps) ∅ !! api_name naukri_api = _).
  - by rewrite (arrived_segment steps 2 indeed_api (results_of indeed_api) ltac:(simpl; lia) eq_refl
                 : JobSearchEngine.filed 0 steps (arrived steps) ∅ !! api_name indeed_api = _).
  - by rewrite (arrived_segment steps 3 freshers_api (results_of freshers_api) ltac:(simpl; lia) eq_refl
                 : JobSearchEngine.filed 0 steps (arrived steps) ∅ !! api_name freshers_api = _).
  - by rewrite (arrived_segment steps 4 monster_api (results_of monster_api) ltac:(simpl; lia) eq_refl
                 : JobSearchEngine.filed 0 steps (arrived steps) ∅ !! api_name monster_api = _).
Qed.

(** * Further properties of the engine *)

(** ** What the question search collects *)

Lemma take_app_3 {A} (n : nat) (a b c : list A) :
  (take n a ++ take (n - length (take n a)) b
     ++ take (n - length (take n a ++ take (n - length (take n a)) b)) c)%list
  = take n (a ++ b ++ c).
Proof.
  replace (n - length (take n a))%nat with (n - length a)%nat
    by (rewrite length_take; lia).
  replace (n - length (take n a ++ take (n - length a) b))%nat
    with (n - length a - length b)%nat
    by (rewrite length_app, !length_take; lia).
  by rewrite !take_app.
Qed.

Lemma gather_results_take question_count all_questions organic_results :
  InterviewQuestionAPI.gather_results question_count all_questions organic_results
  = (all_questions
       ++ take (Z.to_nat (question_count - InterviewQuestionAPI.len all_questions))
            (organic_results ≫= λ found, (found.1 ++ found.2)%list))%list.
Proof.
  unfold InterviewQuestionAPI.len.
  revert all_questions.
  induction organic_results as [|[qs ps] rest IH]; intros all_questions.
  { simpl. by rewrite take_nil, app_nil_r. }
  cbn [InterviewQuestionAPI.gather_results]. unfold InterviewQuestionAPI.len.
  destruct (question_count <=? Z.of_nat (length all_questions)) eqn:Hfull.
  - apply Z.leb_le in Hfull.
    replace (Z.to_nat _) with 0%nat by lia. by rewrite take_0, app_nil_r.
  - apply Z.leb_gt in Hfull. rewrite IH. clear IH.
    set (n := Z.to_nat (question_count - Z.of_nat (length all_questions))).
    rewrite (slice_to_take _ qs) by lia. fold n.
    assert (length (take n qs) ≤ n)%nat as Hqs by (rewrite length_take; lia).
    rewrite !length_app.
    rewrite (slice_to_take _ ps) by lia.
    replace (Z.to_nat (question_count
                       - Z.of_nat (length all_questions + length (take n qs))))
      with (n - length (take n qs))%nat by lia.
    replace (Z.to_nat (question_count
                       - Z.of_nat (length all_questions + length (take n qs)
                                   + length (take (n - length (take n qs)) ps))))
      with (n - length (take n qs ++ take (n - length (take n qs)) ps))%nat
      by (rewrite length_app; lia).
    rewrite bind_cons. cbn [fst snd].
    rewrite <-!app_assoc. f_equal.
    apply take_app_3.
Qed.

Lemma gather_queries_take question_count all_questions responses :
  InterviewQuestionAPI.gather_queries question_count all_questions responses
  = (all_questions
       ++ take (Z.to_nat (question_count - InterviewQuestionAPI.len all_questions))
            (extracted responses))%list.
Proof.
  unfold InterviewQuestionAPI.len.
  revert all_questions.
  induction responses as [|response rest IH]; intros all_questions.
  { simpl. by rewrite take_nil, app_nil_r. }
  cbn [InterviewQuestionAPI.gather_queries]. unfold InterviewQuestionAPI.len.
  destruct (question_count <=? Z.of_nat (length all_questions)) eqn:Hfull.
  - apply Z.leb_le in Hfull.
    replace (Z.to_nat _) with 0%nat by lia. by rewrite take_0, app_nil_r.
  - apply Z.leb_gt in Hfull. unfold extracted. rewrite bind_cons. fold (extracted rest).
    destruct response as [|[organic_results|]]; [by rewrite IH..| |by rewrite IH].
    rewrite IH, gather_results_take. unfold InterviewQuestionAPI.len.
    rewrite <-app_assoc. f_equal.
    set (n := Z.to_nat (question_count - Z.of_nat (length all_questions))).
    set (found := organic_results ≫= _).
    rewrite length_app.
    replace (Z.to_nat _) with (n - length (take n found))%nat
      by (rewrite length_take; lia).
    rewrite take_app. f_equal. rewrite length_take.
    destruct (decide (length found ≤ n)%nat).
    + by rewrite Nat.min_r by lia.
    + rewrite Nat.min_l by lia.
      replace (n - n)%nat with 0%nat by lia.
      replace (n - length found)%nat with 0%nat by lia. done.
Qed.

(** X1: the question search collects exactly the first [question_count]
    questions that the extractors find in the answers to its first five
    queries, in the order in which they are found; it collects nothing
    when [question_count] is zero or negative. *)
Theorem gathered_questions_are_the_first_found (question_count : Z)
    (responses : list query_response) :
  InterviewQuestionAPI.gather_queries question_count [] (take 5 responses)
  = take (Z.to_nat question_count) (extracted (take 5 responses)).
Proof.
  rewrite gather_queries_take. unfold InterviewQuestionAPI.len. simpl.
  by rewrite Z.sub_0_r.
Qed.

(** ** What the question search returns *)

Lemma scored_questions_elem l domain company q :
  q ∈ InterviewQuestionAPI.scored_questions l domain company ->
  ∃ q0, q0 ∈ l
        ∧ 3 < InterviewQuestionAPI._calculate_relevance_score q0 domain company
        ∧ q = set_q_relevance_score q0
                (InterviewQuestionAPI._calculate_relevance_score q0 domain company).
Proof.
  induction l as [|q1 rest IH]; simpl; [by intros ?%elem_of_nil|].
  destruct (3 <? _) eqn:Hs.
  - intros [->|Hin]%elem_of_cons.
    + exists q1. apply Z.ltb_lt in Hs. split; [apply list_elem_of_here|done].
    + destruct (IH Hin) as (q0 & ? & ? & ?). exists q0.
      split; [by apply list_elem_of_further|done].
  - intros Hin. destruct (IH Hin) as (q0 & ? & ? & ?). exists q0.
    split; [by apply list_elem_of_further|done].
Qed.

Lemma scored_questions_hashes l domain company :
  InterviewQuestionAPI.question_hash <$> InterviewQuestionAPI.scored_questions l domain company
  `sublist_of` InterviewQuestionAPI.question_hash <$> l.
Proof.
  induction l as [|q rest IH]; simpl; [done|].
  destruct (3 <? _); rewrite ?fmap_cons.
  - by apply sublist_skip.
  - by apply sublist_cons.
Qed.

Lemma filter_relevant_elem l domain company q :
  q ∈ InterviewQuestionAPI._filter_relevant_questions l domain company ->
  q ∈ InterviewQuestionAPI.scored_questions l domain company.
Proof.
  destruct l as [|q1 rest]; [by intros ?%elem_of_nil|].
  unfold InterviewQuestionAPI._filter_relevant_questions.
  by rewrite sort_desc_perm.
Qed.

Lemma filter_relevant_hashes l domain company :
  NoDup (InterviewQuestionAPI.question_hash <$> l) ->
  NoDup (InterviewQuestionAPI.question_hash
           <$> InterviewQuestionAPI._filter_relevant_questions l domain company).
Proof.
  intros Hnd. destruct l as [|q1 rest]; [constructor|].
  unfold InterviewQuestionAPI._filter_relevant_questions.
  rewrite sort_desc_perm.
  eapply sublist_NoDup; [exact Hnd|apply scored_questions_hashes].
Qed.

Lemma prefix_sublist {A} (l1 l2 : list A) : l1 `prefix_of` l2 -> l1 `sublist_of` l2.
Proof. intros [k ->]. by apply sublist_inserts_r. Qed.

Section Enhanced.
Variable solve : string -> string -> option string -> string -> string -> option string.
Variable fallback : string -> string -> string.

Lemma enhance_elem l domain company e q :
  InterviewQuestionAPI._enhance_questions_with_detailed_solutions solve fallback
    l domain company = Some e ->
  q ∈ e ->
  ∃ q0 text, q0 ∈ l ∧ q_question q0 = Some text
    ∧ q = set_q_solution q0
            (default (fallback text domain)
               (solve text domain company (default "Medium" (q_difficulty q0))
                  (default "General" (q_question_type q0)))).
Proof.
  revert e. induction l as [|q1 rest IH]; intros e; simpl.
  { intros [= <-]. by intros ?%elem_of_nil. }
  unfold InterviewQuestionAPI.enhance_one.
  destruct (q_question q1) as [text|] eqn:Htext; [|discriminate].
  destruct (InterviewQuestionAPI._enhance_questions_with_detailed_solutions _ _ _ _ _)
    as [rest'|]; [|by destruct (solve _ _ _ _ _)].
  specialize (IH rest' eq_refl).
  assert (∀ q', q ∈ q' :: rest' ->
    q' = set_q_solution q1
           (default (fallback text domain)
              (solve text domain company (default "Medium" (q_difficulty q1))
                 (default "General" (q_question_type q1)))) ->
    ∃ q0 text0, q0 ∈ q1 :: rest ∧ q_question q0 = Some text0
      ∧ q = set_q_solution q0
              (default (fallback text0 domain)
                 (solve text0 domain company (default "Medium" (q_difficulty q0))
                    (default "General" (q_question_type q0))))) as Hstep.
  { intros q' [->|Hin]%elem_of_cons Hq'.
    - exists q1, text. split; [apply list_elem_of_here|done].
    - destruct (IH Hin) as (q0 & text0 & ? & ? & ?). exists q0, text0.
      split; [by apply list_elem_of_further|done]. }
  destruct (solve _ _ _ _ _) eqn:Hsolve; intros [= <-] Hin;
    (eapply Hstep; [exact Hin|done]).
Qed.

(** X2: every question that the question search returns has a text, has
    the solution of the generator for that text (the fallback solution
    when the generator raises), and carries its own relevance score,
    which is above 3; no two returned questions have the same digest. *)
Theorem returned_questions_solved_scored_distinct
    (responses : list query_response) (domain : string) (company : option string)
    (difficulty : string) (question_count : Z) :
  let returned :=
    InterviewQuestionAPI.search_interview_questions solve fallback responses
      domain company difficulty question_count in
  Forall (λ q,
      (∃ text, q_question q = Some text
         ∧ q_solution q
           = Some (default (fallback text domain)
                     (solve text domain company (default "Medium" (q_difficulty q))
                        (default "General" (q_question_type q)))))
      ∧ q_relevance_score q
        = Some (InterviewQuestionAPI._calculate_relevance_score q domain company)
      ∧ 3 < InterviewQuestionAPI._calculate_relevance_score q domain company)
    returned
  ∧ NoDup (InterviewQuestionAPI.question_hash <$> returned).
Proof.
  intros returned. subst returned.
  pose proof (api_search_prefix solve fallback responses domain company difficulty
                question_count) as Hprefix.
  unfold InterviewQuestionAPI.search_interview_questions in *.
  destruct (InterviewQuestionAPI._enhance_questions_with_detailed_solutions _ _ _ _ _)
    as [e|] eqn:He; [|split; constructor].
  split.
  - apply Forall_forall. intros q Hq.
    destruct (enhance_elem _ _ _ _ _ He Hq) as (q0 & text & Hq0 & Htext & ->).
    apply slice_to_subseteq, filter_relevant_elem, scored_questions_elem in Hq0
      as (q1 & _ & Hscore & ->).
    split; [|done]. exists text. by split.
  - assert (InterviewQuestionAPI.question_hash <$> e
            = InterviewQuestionAPI.question_hash <$> (unsolved <$> e)) as ->.
    { rewrite <-list_fmap_compose. by apply list_fmap_ext. }
    eapply sublist_NoDup; [|apply fmap_sublist, prefix_sublist, Hprefix].
    assert (InterviewQuestionAPI.question_hash
              <$> (unsolved <$> ranked_questions responses domain company question_count)
            = InterviewQuestionAPI.question_hash
              <$> ranked_questions responses domain company question_count) as ->.
    { rewrite <-list_fmap_compose. by apply list_fmap_ext. }
    apply filter_relevant_hashes.
    rewrite remove_duplicate_questions_first_seen. apply first_seen_kept.
Qed.

End Enhanced.

(** ** What the job ranking returns *)

Lemma unique_jobs_scored clock job_role i seen jobs j :
  j ∈ JobSearchEngine.unique_jobs clock job_role i seen jobs ->
  ∃ k j0, jobs !! k = Some j0 ∧ JobSearchEngine._is_valid_job j0
    ∧ j = set_relevance_score j0
            (JobSearchEngine._calculate_relevance (clock (i + k)%nat) j0 job_role).
Proof.
  revert i seen. induction jobs as [|j1 rest IH]; intros i seen; simpl.
  { by intros ?%elem_of_nil. }
  assert (j ∈ JobSearchEngine.unique_jobs clock job_role (S i) seen rest
          ∨ j ∈ JobSearchEngine.unique_jobs clock job_role (S i)
                  ({[ JobSearchEngine._create_job_hash j1 ]} ∪ seen) rest ->
          ∃ k j0, (j1 :: rest) !! k = Some j0 ∧ JobSearchEngine._is_valid_job j0
            ∧ j = set_relevance_score j0
                    (JobSearchEngine._calculate_relevance (clock (i + k)%nat) j0 job_role))
    as Hrest.
  { intros [Hin|Hin]; destruct (IH _ _ Hin) as (k & j0 & ? & ? & ->);
      exists (S k), j0; by rewrite Nat.add_succ_r. }
  destruct (bool_decide _ && JobSearchEngine._is_valid_job j1) eqn:Hkeep; [|by auto].
  intros [->|Hin]%elem_of_cons; [|by auto].
  exists 0%nat, j1. apply andb_prop in Hkeep as [_ ->]. by rewrite Nat.add_0_r.
Qed.

Lemma unique_jobs_hashes clock job_role i seen jobs :
  NoDup (JobSearchEngine._create_job_hash
           <$> JobSearchEngine.unique_jobs clock job_role i seen jobs).
Proof.
  assert (∀ l : list job, JobSearchEngine._create_job_hash <$> l
               = JobSearchEngine._create_job_hash <$> (raw <$> l)) as Hraw.
  { intros l. rewrite <-list_fmap_compose. by apply list_fmap_ext. }
  rewrite Hraw, unique_jobs_first_seen, <-Hraw. apply first_seen_kept.
Qed.

(** X3: every job that the ranking returns is a valid job of the input,
    scored for the requested role at the clock reading taken when its
    position in the input was reached; no two returned jobs have the
    same digest, and at most 50 jobs are returned. *)
Theorem ranked_jobs_valid_scored_distinct (clock : nat -> PyDate.datetime)
    (jobs : list job) (job_role : string) :
  let ranked := JobSearchEngine._remove_duplicates_and_rank clock jobs job_role in
  Forall (λ j,
      JobSearchEngine._is_valid_job j
      ∧ ∃ k, raw <$> jobs !! k = Some (raw j) ∧ scored_at (clock k) job_role j)
    ranked
  ∧ NoDup (JobSearchEngine._create_job_hash <$> ranked)
  ∧ (length ranked ≤ 50)%nat.
Proof.
  intros ranked. subst ranked. split; [|split; [|apply rank_length]].
  - apply Forall_forall. intros j Hj.
    unfold JobSearchEngine._remove_duplicates_and_rank in Hj.
    apply slice_to_subseteq in Hj. rewrite sort_desc_perm in Hj.
    apply unique_jobs_scored in Hj as (k & j0 & Hk & Hvalid & ->).
    split; [done|]. exists k. by rewrite Hk.
  - unfold JobSearchEngine._remove_duplicates_and_rank.
    eapply sublist_NoDup;
      [|apply fmap_sublist, prefix_sublist, slice_to_prefix].
    rewrite sort_desc_perm. apply unique_jobs_hashes.
Qed.

(** ** Sessions and their events *)

(** X4: a progress event that cannot be delivered does not change the
    outcome of a job search: when the sink accepts the three events
    outside the executor block, the session ends with the results with
    which it ends when the sink accepts every event, whatever the sink
    does with the [source_completed] events and with the status
    messages of the adapters. *)
Theorem lost_progress_events_are_harmless (sink : event -> emit_result)
    (now : PyDate.datetime) (clock : nat -> PyDate.datetime)
    (steps : list step) (job_role location : string) (filters : json) :
  sink (search_started job_role location) = Delivered ->
  sink (thought "System" "Processing and ranking results..." None) = Delivered ->
  (∀ r, sink (search_completed r) = Delivered) ->
  (JobSearchEngine.comprehensive_job_search sink now clock steps job_role location
     filters).1
  = (JobSearchEngine.comprehensive_job_search every_event_delivered now clock steps
       job_role location filters).1.
Proof.
  intros Hstarted Hthought Hcompleted.
  unfold JobSearchEngine.comprehensive_job_search.
  destruct (JobSearchEngine.requested_experience_level filters) as [level|]; [|done].
  rewrite Hstarted. cbn [every_event_delivered].
  pose proof (collect_results_sink sink every_event_delivered 0 steps
                (Results job_role location now 0 ∅ [] in_progress None None)
                [search_started job_role location] [search_started job_role location])
    as Hsame.
  destruct (JobSearchEngine.collect sink _ _ _ _) as [r1 trace1].
  destruct (JobSearchEngine.collect every_event_delivered _ _ _ _) as [r2 trace2].
  simpl in Hsame. subst r2.
  destruct (_ <? _)%nat; [done|]. rewrite Hthought.
  destruct (JobSearchEngine.score_in_place _ _ _ _ _ _) as [dicts [unique|]]; [|done].
  by rewrite Hcompleted.
Qed.

Lemma lost_progress_events_are_harmless_witness :
  progress_events_raise (search_started "ML Engineer" "Pune") = Delivered
  ∧ progress_events_raise (thought "System" "Processing and ranking results..." None)
    = Delivered
  ∧ (∀ r, progress_events_raise (search_completed r) = Delivered)
  ∧ (JobSearchEngine.comprehensive_job_search progress_events_raise jan_5 (λ _, jan_5)
       two_of_five_fail "ML Engineer" "Pune" fresher_filters).1
    = (JobSearchEngine.comprehensive_job_search every_event_delivered jan_5 (λ _, jan_5)
         two_of_five_fail "ML Engineer" "Pune" fresher_filters).1.
Proof.
  split; [reflexivity|]. split; [reflexivity|]. split; [intros r; reflexivity|].
  apply (lost_progress_events_are_harmless progress_events_raise jan_5 (λ _, jan_5)
           two_of_five_fail "ML Engineer" "Pune" fresher_filters);
    [reflexivity|reflexivity|intros r; reflexivity].
Defined.

Lemma unique_jobs_length clock job_role i seen jobs :
  (length (JobSearchEngine.unique_jobs clock job_role i seen jobs) ≤ length jobs)%nat.
Proof.
  revert i seen. induction jobs as [|j rest IH]; intros i seen; simpl; [done|].
  destruct (_ && _); simpl; [apply le_n_S, IH|apply Nat.le_le_succ_r, IH].
Qed.

(** A session that is marked as completed has run to its end. *)
Lemma completed_session sink now clock steps job_role location filters :
  search_status (JobSearchEngine.comprehensive_job_search sink now clock steps
                   job_role location filters).1 = completed ->
  ∃ level, JobSearchEngine.requested_experience_level filters = Some level
    ∧ (5 ≤ length (JobSearchEngine.completions steps))%nat
    ∧ sink (search_started job_role location) = Delivered
    ∧ sink ranking_starts = Delivered
    ∧ ranking_raises level steps = false.
Proof.
  unfold JobSearchEngine.comprehensive_job_search.
  destruct (JobSearchEngine.requested_experience_level filters) as [level|]; [|done].
  destruct (sink (search_started _ _)) eqn:Hstarted; [|done].
  pose proof (collect_status sink 0 steps
                (Results job_role location now 0 ∅ [] in_progress None None)
                [search_started job_role location]) as Hstatus.
  destruct (JobSearchEngine.collect sink _ _ _ _) as [r trace]. cbn [fst] in Hstatus.
  destruct (_ <? _)%nat eqn:Hlen; [cbn [fst]; by rewrite Hstatus|].
  apply Nat.ltb_ge in Hlen. fold ranking_starts.
  destruct (sink ranking_starts) eqn:Hranking; [|done].
  pose proof (score_in_place_unique clock job_role level 0 ∅ (JobSearchEngine.merged steps))
    as Hunique.
  fold (kept_jobs steps) in Hunique. fold (ranking_raises level steps) in Hunique.
  destruct (JobSearchEngine.score_in_place _ _ _ _ _ _) as [dicts [unique|]]; [|done].
  cbn [snd] in Hunique. intros _. exists level.
  destruct (ranking_raises level steps); [done|]. done.
Qed.

Lemma same_length_units {A} (l1 l2 : list A) :
  length l1 = length l2 -> (λ _ : A, ()) <$> l1 = (λ _ : A, ()) <$> l2.
Proof.
  revert l2. induction l1 as [|x l1 IH]; intros [|y l2] [=]; [done|].
  rewrite !fmap_cons. f_equal. by apply IH.
Qed.

(** X5: the summary of a job search that is marked as completed agrees
    with its results, whatever became of the progress events:
    [total_jobs_found] is [total_jobs], the number of ranked jobs, which
    is at most the number of jobs that arrived; [sources_searched] is 5,
    the adapters that raised counted with no jobs; [source_breakdown]
    gives for every name the number of jobs filed under it, which for
    the name at the index of completion of a task is the number of jobs
    that the task returned, duplicates and invalid jobs included. *)
Theorem summary_agrees_with_results (sink : event -> emit_result)
    (now : PyDate.datetime) (clock : nat -> PyDate.datetime)
    (steps : list step) (job_role location : string) (filters : json) :
  let r := (JobSearchEngine.comprehensive_job_search sink now clock steps
              job_role location filters).1 in
  (length (JobSearchEngine.completions steps) ≤ 5)%nat ->
  search_status r = completed ->
  ∃ s, summary r = Some s
    ∧ total_jobs_found s = total_jobs r
    ∧ total_jobs_found s = Z.of_nat (length (all_jobs r))
    ∧ total_jobs_found s <= Z.of_nat (length (arrived steps))
    ∧ sources_searched s = 5
    ∧ search_timestamp s = now
    ∧ (∀ name, source_breakdown s !! name
               = (λ jobs : list job, Z.of_nat (length jobs)) <$> sources r !! name)
    ∧ (∀ k a result,
         JobSearchEngine.completions steps !! k = Some (a, result) ->
         source_breakdown s !! JobSearchEngine.source_name k
         = Some (Z.of_nat (length (JobSearchEngine._safe_search result)))).
Proof.
  intros r Hlen Hcompleted.
  destruct (completed_session _ _ _ _ _ _ _ Hcompleted)
    as (level & Hlevel & Hfive & Hstarted & Hranking & Hraises).
  assert (all_tasks_finish steps) as Hfinish.
  { unfold all_tasks_finish. simpl. lia. }
  destruct (session_runs_to_its_end sink now clock steps job_role location filters level
              Hlevel Hfinish Hstarted Hranking Hraises)
    as (rc & Hstatus & Hjobs & Htotal & Hsources & Hsummary & _ & _ & Hr).
  fold r in Hr.
  assert (r = rc) as ->.
  { rewrite Hr. destruct (sink (search_completed rc)); [done|].
    rewrite Hr in Hcompleted. by destruct (sink (search_completed rc)). }
  eexists. split; [exact Hsummary|]. cbn [total_jobs_found sources_searched
    search_timestamp source_breakdown].
  split; [done|]. split; [done|]. split; [|split; [|split; [done|split]]].
  - rewrite Htotal, Hjobs. unfold JobSearchEngine._remove_duplicates_and_rank.
    pose proof (slice_to_length_le 50
      (sort_desc JobSearchEngine.score_key
         (JobSearchEngine.unique_jobs clock job_role 0 ∅ (arrived steps)))) as Hcut.
    rewrite sort_desc_length in Hcut.
    pose proof (unique_jobs_length clock job_role 0 ∅ (arrived steps)). lia.
  - rewrite Hsources, filed_size, map_size_empty; [|lia|intros; apply lookup_empty].
    unfold all_tasks_finish in Hfinish. rewrite Hfinish. done.
  - intros name. by rewrite lookup_fmap.
  - intros k a result Hk. rewrite lookup_fmap, Hsources.
    pose proof (filed_fmap (λ _ : job, ()) 0 steps
                  (JobSearchEngine.score_in_place clock job_role level 0 ∅
                     (JobSearchEngine.merged steps)).1 (arrived steps) ∅ ∅) as Hunit.
    assert (length (JobSearchEngine.score_in_place clock job_role level 0 ∅
                      (JobSearchEngine.merged steps)).1 = length (arrived steps)) as Hsame.
    { rewrite score_in_place_length. unfold arrived. by rewrite length_fmap. }
    specialize (Hunit (same_length_units _ _ Hsame)
                      ltac:(done) (JobSearchEngine.source_name k)).
    rewrite (arrived_segment steps k a result Hlen Hk) in Hunit.
    destruct (JobSearchEngine.filed _ _ _ _ !! _) as [jobs|]; [|done].
    simpl in *. injection Hunit as Hunit.
    apply (f_equal length) in Hunit. rewrite !length_fmap in Hunit. by rewrite Hunit.
Qed.

Lemma summary_agrees_with_results_witness :
  let r := (JobSearchEngine.comprehensive_job_search progress_events_raise jan_5
              (λ _, jan_5) two_of_five_fail "ML Engineer" "Pune" fresher_filters).1 in
  (length (JobSearchEngine.completions two_of_five_fail) ≤ 5)%nat
  ∧ search_status r = completed
  ∧ ∃ s, summary r = Some s
      ∧ total_jobs_found s = total_jobs r
      ∧ total_jobs_found s = Z.of_nat (length (all_jobs r))
      ∧ total_jobs_found s <= Z.of_nat (length (arrived two_of_five_fail))
      ∧ sources_searched s = 5
      ∧ search_timestamp s = jan_5
      ∧ (∀ name, source_breakdown s !! name
                 = (λ jobs : list job, Z.of_nat (length jobs)) <$> sources r !! name)
      ∧ (∀ k a result,
           JobSearchEngine.completions two_of_five_fail !! k = Some (a, result) ->
           source_breakdown s !! JobSearchEngine.source_name k
           = Some (Z.of_nat (length (JobSearchEngine._safe_search result)))).
Proof.
  intros r. split; [simpl; lia|]. split; [vm_compute; reflexivity|].
  apply (summary_agrees_with_results progress_events_raise jan_5 (λ _, jan_5)
           two_of_five_fail "ML Engineer" "Pune" fresher_filters);
    [simpl; lia|vm_compute; reflexivity].
Defined.

Lemma omap_seq_shift {B} (f g : nat -> option B) a n :
  (∀ k, f (S k) = g k) -> omap f (seq (S a) n) = omap g (seq a n).
Proof.
  intros Hfg. revert a. induction n as [|n IH]; intros a; simpl; [done|].
  by rewrite Hfg, IH.
Qed.

Lemma collect_trace sink i steps r trace :
  (∀ e, sink e = Delivered) ->
  (JobSearchEngine.collect sink i steps r trace).2
  = (trace ++ omap (λ p,
       match steps !! p with
       | Some (status_emitted a message status) =>
           Some (thought (JobSearchEngine.adapter_name a +:+ " Agent") message (Some status))
       | Some (task_done _ result) =>
           Some (source_completed
                   (JobSearchEngine.source_name
                      (i + length (JobSearchEngine.completions (take p steps))))
                   (Z.of_nat (length (JobSearchEngine._safe_search result)))
                   (Z.of_nat (length (all_jobs r) + length (arrived (take (S p) steps)))))
       | None => None
       end) (seq 0 (length steps)))%list.
Proof.
  intros Hsink. revert i r trace.
  induction steps as [|[a message status|a result] rest IH]; intros i r trace;
    cbn [JobSearchEngine.collect].
  - simpl. by rewrite app_nil_r.
  - rewrite IH. unfold JobSearchEngine.push. rewrite Hsink.
    cbn [length seq omap list_omap lookup list_lookup].
    rewrite <-app_assoc. cbn [app]. do 2 f_equal. symmetry. apply omap_seq_shift.
    intros p. cbn [lookup list_lookup take].
    by rewrite completions_status, arrived_status.
  - rewrite IH. unfold JobSearchEngine.push. rewrite Hsink.
    cbn [length seq omap list_omap lookup list_lookup].
    rewrite <-app_assoc. cbn [app take all_jobs JobSearchEngine.set_sources].
    rewrite take_0, arrived_task, arrived_nil, app_nil_r, length_app.
    cbn [JobSearchEngine.completions omap list_omap length]. rewrite Nat.add_0_r.
    do 2 f_equal. symmetry. apply omap_seq_shift.
    intros p. cbn [lookup list_lookup take].
    rewrite completions_task, arrived_task. cbn [length].
    destruct (rest !! p) as [[b message status|b result']|]; [done| |done].
    rewrite Nat.add_succ_r, !length_app. do 3 f_equal. lia.
Qed.

(** X6: the events of a job search with a sink that accepts every
    event. When [filters.get] raises in front of the [try] block, there
    is none. Otherwise [search_started] comes first; then, in the order
    in which they happen, the status messages of the adapters and one
    [source_completed] event for each task that completes, with the name
    at its index of completion, the number of its jobs and the running
    total of the jobs that have arrived; when the five tasks have
    finished, the [thought] event of the engine, and then
    [search_completed] with the final results, or [search_failed] with
    them when the ranking raises. *)
Theorem events_of_a_search (sink : event -> emit_result)
    (now : PyDate.datetime) (clock : nat -> PyDate.datetime)
    (steps : list step) (job_role location : string) (filters : json) :
  (∀ e, sink e = Delivered) ->
  let session := JobSearchEngine.comprehensive_job_search sink now clock steps
                   job_role location filters in
  session.2
  = match JobSearchEngine.requested_experience_level filters with
    | None => []
    | Some level =>
        (search_started job_role location
           :: omap (step_event steps) (seq 0 (length steps))
           ++ if (length (JobSearchEngine.completions steps) <? 5)%nat then []
              else [ ranking_starts;
                     if ranking_raises level steps then search_failed session.1
                     else search_completed session.1 ])%list
    end.
Proof.
  intros Hsink. unfold JobSearchEngine.comprehensive_job_search.
  destruct (JobSearchEngine.requested_experience_level filters) as [level|]; [|done].
  rewrite Hsink.
  pose proof (collect_trace sink 0 steps
                (Results job_role location now 0 ∅ [] in_progress None None)
                [search_started job_role location] Hsink) as Htrace.
  destruct (JobSearchEngine.collect _ _ _ _ _) as [r trace].
  cbn [fst snd all_jobs length Nat.add] in Htrace.
  cbn [length JobSearchEngine.search_tasks].
  destruct (_ <? _)%nat; cbn [fst snd].
  { rewrite Htrace, app_nil_r. done. }
  fold ranking_starts. rewrite Hsink.
  pose proof (score_in_place_unique clock job_role level 0 ∅ (JobSearchEngine.merged steps))
    as Hunique.
  fold (kept_jobs steps) in Hunique. fold (ranking_raises level steps) in Hunique.
  destruct (JobSearchEngine.score_in_place _ _ _ _ _ _) as [dicts unique].
  cbn [snd] in Hunique. subst unique.
  destruct (ranking_raises level steps).
  - unfold JobSearchEngine.fail, JobSearchEngine.push. rewrite Hsink. cbn [fst snd].
    rewrite Htrace. cbn [app]. by rewrite <-!app_assoc.
  - rewrite Hsink. cbn [fst snd]. rewrite Htrace. cbn [app]. by rewrite <-!app_assoc.
Qed.

Lemma events_of_a_search_witness :
  (∀ e, every_event_delivered e = Delivered)
  ∧ let session := JobSearchEngine.comprehensive_job_search every_event_delivered jan_5
                     (λ _, jan_5) two_of_five_fail "ML Engineer" "Pune" fresher_filters in
    session.2
    = match JobSearchEngine.requested_experience_level fresher_filters with
      | None => []
      | Some level =>
          (search_started "ML Engineer" "Pune"
             :: omap (step_event two_of_five_fail) (seq 0 (length two_of_five_fail))
             ++ if (length (JobSearchEngine.completions two_of_five_fail) <? 5)%nat then []
                else [ ranking_starts;
                       if ranking_raises level two_of_five_fail
                       then search_failed session.1
                       else search_completed session.1 ])%list
      end.
Proof.
  split; [intros e; reflexivity|].
  apply (events_of_a_search every_event_delivered jan_5 (λ _, jan_5)
           two_of_five_fail "ML Engineer" "Pune" fresher_filters). intros e; reflexivity.
Defined.

(** ** What the routes hand to the engine *)



Lemma rstrip_idempotent s : PyStr.rstrip (PyStr.rstrip s) = PyStr.rstrip s.
Proof.
  induction s as [|c r IH]; [done|]. cbn [PyStr.rstrip].
  destruct (PyStr.rstrip r) as [|c' r'] eqn:Hr.
  - destruct (PyStr.is_space c) eqn:Hc; [done|]. simpl. by rewrite Hc.
  - cbn [PyStr.rstrip]. cbn [PyStr.rstrip] in IH. by rewrite IH.
Qed.

Lemma rstrip_head c r :
  PyStr.is_space c = false -> ∃ r', PyStr.rstrip (String c r) = String c r'.
Proof.
  intros Hc. cbn [PyStr.rstrip]. destruct (PyStr.rstrip r); rewrite ?Hc; eauto.
Qed.

Lemma lstrip_head s :
  PyStr.lstrip s = EmptyString
  ∨ ∃ c r, PyStr.lstrip s = String c r ∧ PyStr.is_space c = false.
Proof.
  induction s as [|c r IH]; simpl; [by left|].
  destruct (PyStr.is_space c) eqn:Hc; [done|]. right. by exists c, r.
Qed.

Lemma strip_idempotent s : PyStr.strip (PyStr.strip s) = PyStr.strip s.
Proof.
  unfold PyStr.strip.
  destruct (lstrip_head s) as [->|(c & r & -> & Hc)]; [done|].
  destruct (rstrip_head c r Hc) as [r' Hr]. rewrite Hr at 1.
  cbn [PyStr.lstrip]. rewrite Hc, <-Hr. apply rstrip_idempotent.
Qed.



(** ** Dates that the adapters write and the ranking reads *)

Example strftime_prints_dates :
  PyStrftime.strftime_Ymd jan_5 = "2024-01-05"
  ∧ PyStrftime.strftime_Ymd (PyDate.DateTime 999 12 31 0 0 0 0) = "999-12-31"
  ∧ PyStrftime.strftime_Ymd (PyDate.DateTime 5 11 30 0 0 0 0) = "5-11-30".
Proof. repeat split. Qed.

Example split_on_a_dot :
  MonsterJobAPI.split_on "." " a. b.c " = [" a"; " b"; "c "]
  ∧ MonsterJobAPI.split_on "." EmptyString = [EmptyString]
  ∧ MonsterJobAPI.split_on "." "a." = ["a"; EmptyString].
Proof. repeat split. Qed.

Lemma digit_of_digit_char d :
  0 <= d <= 9 -> PyDate.digit (PyStrftime.digit_char d) = Some d.
Proof.
  intros Hd.
  assert (d = 0 ∨ d = 1 ∨ d = 2 ∨ d = 3 ∨ d = 4 ∨ d = 5 ∨ d = 6 ∨ d = 7 ∨ d = 8 ∨ d = 9)
    as Hcases by lia.
  repeat (destruct Hcases as [->|Hcases]; [reflexivity|]). by subst.
Qed.

Lemma append_cons c s r : String c s ++ r = String c (s ++ r).
Proof. done. Qed.

Lemma append_nil r : EmptyString ++ r = r.
Proof. done. Qed.

Lemma match_Y_year_digits y r :
  1000 <= y <= 9999 ->
  PyDate.match_Y (PyStrftime.year_digits y ++ r) = Some (y, r).
Proof.
  intros Hy. unfold PyStrftime.year_digits.
  destruct (y <? 10) eqn:H1; [lia|]. destruct (y <? 100) eqn:H2; [lia|].
  destruct (y <? 1000) eqn:H3; [lia|].
  unfold PyStrftime.two_digits. rewrite !append_cons, append_nil.
  cbn [PyDate.match_Y].
  rewrite !digit_of_digit_char by (Z.div_mod_to_equations; lia).
  do 2 f_equal. Z.div_mod_to_equations. lia.
Qed.

Lemma strptime_of_strftime_cases y m d :
  1000 <= y <= 9999 -> 1 <= m <= 12 -> 1 <= d <= 31 ->
  PyDate.match_Ymd (PyStrftime.strftime_Ymd (PyDate.DateTime y m d 0 0 0 0))
  = Some (y, m, d, EmptyString).
Proof.
  intros Hy Hm Hd. unfold PyStrftime.strftime_Ymd, PyDate.match_Ymd.
  cbn [PyDate.year PyDate.month PyDate.day].
  rewrite match_Y_year_digits by done.
  assert (m = 1 ∨ m = 2 ∨ m = 3 ∨ m = 4 ∨ m = 5 ∨ m = 6 ∨ m = 7 ∨ m = 8 ∨ m = 9
          ∨ m = 10 ∨ m = 11 ∨ m = 12) as Hmonths by lia.
  assert (Z.of_nat (Z.to_nat d) = d) as <- by lia.
  assert (Z.to_nat d ∈ seq 1 31) as Hdays by (apply elem_of_seq; lia).
  revert Hdays. generalize (Z.to_nat d). clear Hd d. intros d Hdays.
  repeat (destruct Hmonths as [->|Hmonths]);
    subst; cbn [seq] in Hdays;
    repeat (apply elem_of_cons in Hdays as [->|Hdays]; [vm_compute; reflexivity|]);
    by apply elem_of_nil in Hdays.
Qed.

Lemma wf_day_le_31 t : PyDate.wf t -> 1 <= PyDate.day t <= 31.
Proof.
  intros (_ & _ & Hd & _). unfold PyDate.days_in_month in Hd.
  repeat case_match; lia.
Qed.

Lemma strptime_of_strftime t :
  PyDate.wf t -> 1000 <= PyDate.year t ->
  PyDate.strptime_Ymd (PyStrftime.strftime_Ymd t) = Some (midnight t).
Proof.
  intros Hwf Hy. pose proof (wf_day_le_31 t Hwf) as Hd31.
  destruct Hwf as (Hyear & Hm & Hd & _).
  unfold PyDate.strptime_Ymd.
  change (PyStrftime.strftime_Ymd t) with (PyStrftime.strftime_Ymd (midnight t)).
  unfold midnight. rewrite strptime_of_strftime_cases by lia.
  rewrite (proj2 (Z.leb_le 1 _)) by lia.
  by rewrite (proj2 (Z.leb_le (PyDate.day t) _)) by lia.
Qed.

Lemma strftime_truthy t : PyStr.truthy (PyStrftime.strftime_Ymd t) = true.
Proof.
  unfold PyStrftime.strftime_Ymd, PyStrftime.year_digits, PyStrftime.two_digits.
  repeat case_match; by rewrite append_cons.
Qed.

Lemma recency_of_a_written_date t now j :
  PyDate.wf t -> 1000 <= PyDate.year t -> PyDate.wf now ->
  posted_date j = Some (PyStrftime.strftime_Ymd t) ->
  JobSearchEngine.recency now j
  = (if age_in_days now t <=? 7 then 8
     else if age_in_days now t <=? 30 then 4 else 0).
Proof.
  intros Hwf Hy Hnow Hposted.
  unfold JobSearchEngine.recency. rewrite Hposted. cbn [get_str default from_option id].
  rewrite strftime_truthy, strptime_of_strftime by done.
  by rewrite days_between_midnight by done.
Qed.

(** X8: a posting date that an adapter writes with
    [strftime('%Y-%m-%d')] is read back by the ranking as the same day:
    for a clock reading [t] of a year of four digits, [strptime] returns
    the midnight of the day of [t], and the job gets the recency bonus
    8 when it is ranked at most 7 days after that day, 4 when at most 30
    days after it, and none later. *)
Theorem written_dates_are_read_back (t now : PyDate.datetime) (j : job) :
  PyDate.wf t -> 1000 <= PyDate.year t -> PyDate.wf now ->
  posted_date j = Some (PyStrftime.strftime_Ymd t) ->
  PyDate.strptime_Ymd (PyStrftime.strftime_Ymd t) = Some (midnight t)
  ∧ JobSearchEngine.recency now j
    = (if age_in_days now t <=? 7 then 8
       else if age_in_days now t <=? 30 then 4 else 0).
Proof.
  intros Hwf Hy Hnow Hposted. split; [by apply strptime_of_strftime|].
  by apply recency_of_a_written_date.
Qed.

Lemma written_dates_are_read_back_witness :
  PyDate.wf jan_5 ∧ 1000 <= PyDate.year jan_5 ∧ PyDate.wf jan_5_evening
  ∧ posted_date (FreshersWorldAPI.job_of jan_5 (OrganicResult None None None))
    = Some (PyStrftime.strftime_Ymd jan_5)
  ∧ PyDate.strptime_Ymd (PyStrftime.strftime_Ymd jan_5) = Some (midnight jan_5)
  ∧ JobSearchEngine.recency jan_5_evening
      (FreshersWorldAPI.job_of jan_5 (OrganicResult None None None))
    = (if age_in_days jan_5_evening jan_5 <=? 7 then 8
       else if age_in_days jan_5_evening jan_5 <=? 30 then 4 else 0).
Proof.
  split; [exact jan_5_wf|]. split; [simpl; lia|]. split; [exact jan_5_evening_wf|].
  split; [reflexivity|].
  apply (written_dates_are_read_back jan_5 jan_5_evening
           (FreshersWorldAPI.job_of jan_5 (OrganicResult None None None))
           jan_5_wf ltac:(simpl; lia) jan_5_evening_wf eq_refl).
Defined.

(** ** The jobs of FreshersWorld and Monster in the ranking *)

Lemma relevance_with_fixed_bonuses now j job_role :
  existsb (λ word, PyStr.contains word (PyStr.lower (get_str (experience_level j))))
    ["entry"; "fresher"; "0-1"; "graduate"] = true ->
  PyStr.lower (get_str (job_type j)) = "full-time" ->
  JobSearchEngine.recency now j = 8 ->
  23 <= JobSearchEngine._calculate_relevance now j job_role.
Proof.
  intros Hlevel Htype Hrecency.
  unfold JobSearchEngine._calculate_relevance. cbv zeta.
  rewrite Hlevel, Htype, Hrecency, String.eqb_refl.
  set (t := PyStr.lower (get_str (title j))).
  set (d := PyStr.lower (get_str (description j))).
  match goal with
  | |- context [fold_left ?f JobSearchEngine.ai_ml_keywords ?s] =>
      pose proof (fold_left_add_le (JobSearchEngine.keyword_score 10 5 t d)
                    JobSearchEngine.ai_ml_keywords s
                    (fun k => keyword_score_nonneg 10 5 t d k ltac:(lia) ltac:(lia))) as H2;
      set (s2 := fold_left f JobSearchEngine.ai_ml_keywords s) in *
  end.
  match type of H2 with
  | fold_left ?f ?l ?s <= _ =>
      pose proof (fold_left_add_le (JobSearchEngine.keyword_score 8 3 t d) l s
                    (fun k => keyword_score_nonneg 8 3 t d k ltac:(lia) ltac:(lia))) as H1;
      set (s1 := fold_left f l s) in *
  end.
  repeat case_match; lia.
Qed.

Lemma contains_rstrip_nonempty c needle s :
  PyStr.is_space c = false ->
  PyStr.contains (String c needle) s = true ->
  PyStr.truthy (PyStr.rstrip s) = true.
Proof.
  intros Hc. induction s as [|a r IH]; [done|].
  cbn [PyStr.contains PyStr.starts_with PyStr.rstrip].
  destruct (Ascii.eqb c a) eqn:Hca.
  - apply Ascii.eqb_eq in Hca as <-. intros _.
    destruct (PyStr.rstrip r); by rewrite ?Hc.
  - simpl. intros Hin%IH. by destruct (PyStr.rstrip r).
Qed.

Lemma contains_lstrip c needle s :
  PyStr.is_space c = false ->
  PyStr.contains (String c needle) s = true ->
  PyStr.contains (String c needle) (PyStr.lstrip s) = true.
Proof.
  intros Hc. induction s as [|a r IH]; [done|].
  cbn [PyStr.lstrip]. destruct (PyStr.is_space a) eqn:Ha; [|done].
  cbn [PyStr.contains PyStr.starts_with].
  destruct (Ascii.eqb c a) eqn:Hca; [|by simpl].
  apply Ascii.eqb_eq in Hca as <-. congruence.
Qed.

Lemma contains_present c needle s :
  PyStr.is_space c = false ->
  PyStr.contains (String c needle) s = true ->
  JobSearchEngine.present (Some s) = true.
Proof.
  intros Hc Hin. unfold JobSearchEngine.present, PyStr.strip.
  rewrite (contains_rstrip_nonempty c needle) by (done || by apply contains_lstrip).
  by destruct s.
Qed.

Lemma freshersworld_jobs_of_elem clock i organic_results j :
  j ∈ FreshersWorldAPI.jobs_of clock i organic_results ->
  ∃ k result, organic_results !! k = Some result
    ∧ PyStr.contains "freshersworld.com" (get_str (o_link result)) = true
    ∧ j = FreshersWorldAPI.job_of (clock (i + k)%nat) result.
Proof.
  revert i. induction organic_results as [|result rest IH]; intros i; simpl.
  { by intros ?%elem_of_nil. }
  assert (j ∈ FreshersWorldAPI.jobs_of clock (S i) rest ->
          ∃ k result0, (result :: rest) !! k = Some result0
            ∧ PyStr.contains "freshersworld.com" (get_str (o_link result0)) = true
            ∧ j = FreshersWorldAPI.job_of (clock (i + k)%nat) result0) as Hrest.
  { intros (k & result0 & ? & ? & ->)%IH. exists (S k), result0.
    by rewrite Nat.add_succ_r. }
  destruct (PyStr.contains _ _) eqn:Hlink; [|done].
  intros [->|Hin]%elem_of_cons; [|by auto].
  exists 0%nat, result. by rewrite Nat.add_0_r.
Qed.

(** X9: the FreshersWorld adapter returns at most 8 jobs, and none when
    the provider raises or has no organic results. Each of its jobs is
    built from a result whose link names the site; the ranking takes it
    as valid exactly when its title is not blank, and scores it at
    least 23 for every role when it ranks it within a week of the day
    on which the adapter stamped it. *)
Theorem freshersworld_jobs_in_the_ranking (clock : nat -> PyDate.datetime)
    (answer : provider_answer) (now : PyDate.datetime) (job_role : string) :
  (∀ i, PyDate.wf (clock i) ∧ 1000 <= PyDate.year (clock i)
        ∧ age_in_days now (clock i) <= 7) ->
  PyDate.wf now ->
  let jobs := FreshersWorldAPI.search_jobs clock answer in
  (length jobs ≤ 8)%nat
  ∧ (answer = ProviderRaised ∨ answer = ProviderReturned None -> jobs = [])
  ∧ Forall (λ j,
        PyStr.contains "freshersworld.com" (get_str (url j)) = true
        ∧ JobSearchEngine._is_valid_job j = JobSearchEngine.present (title j)
        ∧ 23 <= JobSearchEngine._calculate_relevance now j job_role)
      jobs.
Proof.
  intros Hclock Hnow jobs. subst jobs. split; [|split].
  - pose proof (slice_to_length_nonneg 8 (A:=job)) as Hcut.
    destruct answer as [|[organic_results|]]; simpl; [lia|..].
    + specialize (Hcut (FreshersWorldAPI.jobs_of clock 0 organic_results)). lia.
    + lia.
  - by intros [->| ->].
  - apply Forall_forall. intros j Hj.
    assert (∃ k result, PyStr.contains "freshersworld.com" (get_str (o_link result)) = true
              ∧ j = FreshersWorldAPI.job_of (clock k) result) as (k & result & Hlink & ->).
    { destruct answer as [|[organic_results|]]; simpl in Hj;
        [by apply elem_of_nil in Hj| |by apply elem_of_nil in Hj].
      apply slice_to_subseteq, freshersworld_jobs_of_elem in Hj
        as (k & result & _ & ? & ->). eauto. }
    destruct (Hclock k) as (Hwf & Hyear & Hage).
    split; [done|]. split.
    + unfold JobSearchEngine._is_valid_job. cbn [forallb title company url
        FreshersWorldAPI.job_of].
      rewrite (contains_present "f" "reshersworld.com" _ eq_refl Hlink).
      by rewrite !andb_true_r.
    + apply relevance_with_fixed_bonuses; [done..|].
      rewrite (recency_of_a_written_date (clock k) now
                 (FreshersWorldAPI.job_of (clock k) result) Hwf Hyear Hnow eq_refl). by rewrite (proj2 (Z.leb_le _ 7) Hage).
Qed.

Lemma freshersworld_jobs_in_the_ranking_witness :
  (∀ i : nat, PyDate.wf ((λ _, jan_5) i) ∧ 1000 <= PyDate.year ((λ _, jan_5) i)
              ∧ age_in_days jan_5_evening ((λ _, jan_5) i) <= 7)
  ∧ PyDate.wf jan_5_evening
  ∧ let jobs := FreshersWorldAPI.search_jobs (λ _, jan_5) three_organic_results in
    (length jobs ≤ 8)%nat
    ∧ (three_organic_results = ProviderRaised
       ∨ three_organic_results = ProviderReturned None -> jobs = [])
    ∧ Forall (λ j,
          PyStr.contains "freshersworld.com" (get_str (url j)) = true
          ∧ JobSearchEngine._is_valid_job j = JobSearchEngine.present (title j)
          ∧ 23 <= JobSearchEngine._calculate_relevance jan_5_evening j "ML Engineer")
        jobs.
Proof.
  assert (∀ i : nat, PyDate.wf ((λ _, jan_5) i) ∧ 1000 <= PyDate.year ((λ _, jan_5) i)
                     ∧ age_in_days jan_5_evening ((λ _, jan_5) i) <= 7) as Hclock.
  { intros i. split; [exact jan_5_wf|]. split; [simpl; lia|]. vm_compute. discriminate. }
  split; [exact Hclock|]. split; [exact jan_5_evening_wf|].
  apply (freshersworld_jobs_in_the_ranking (λ _, jan_5) three_organic_results
           jan_5_evening "ML Engineer" Hclock jan_5_evening_wf).
Defined.

Lemma split_on_head sep s :
  ∃ others, MonsterJobAPI.split_on sep s = before sep s :: others.
Proof.
  induction s as [|c r [others IH]]; simpl; [by exists []|].
  destruct (Ascii.eqb c sep); [by eexists|]. rewrite IH. by eexists.
Qed.

Lemma extract_company_before_dot snippet :
  MonsterJobAPI._extract_company snippet = PyStr.strip (before "." snippet).
Proof.
  unfold MonsterJobAPI._extract_company.
  by destruct (split_on_head "." snippet) as [others ->].
Qed.

Lemma monster_jobs_of_elem clock i organic_results j :
  j ∈ MonsterJobAPI.jobs_of clock i organic_results ->
  ∃ k result, organic_results !! k = Some result
    ∧ PyStr.contains "monster.co.in" (get_str (o_link result)) = true
    ∧ j = MonsterJobAPI.job_of (clock (i + k)%nat) result.
Proof.
  revert i. induction organic_results as [|result rest IH]; intros i; simpl.
  { by intros ?%elem_of_nil. }
  assert (j ∈ MonsterJobAPI.jobs_of clock (S i) rest ->
          ∃ k result0, (result :: rest) !! k = Some result0
            ∧ PyStr.contains "monster.co.in" (get_str (o_link result0)) = true
            ∧ j = MonsterJobAPI.job_of (clock (i + k)%nat) result0) as Hrest.
  { intros (k & result0 & ? & ? & ->)%IH. exists (S k), result0.
    by rewrite Nat.add_succ_r. }
  destruct (PyStr.contains _ _) eqn:Hlink; [|done].
  intros [->|Hin]%elem_of_cons; [|by auto].
  exists 0%nat, result. by rewrite Nat.add_0_r.
Qed.

(** X10: the company of a Monster job is the text of the snippet
    before its first dot, trimmed; the fallback name is never used,
    because [split] always returns a first piece. When that text is
    blank the company is empty and the ranking drops the job: a Monster
    job is valid exactly when its title is not blank and its snippet
    has a character that is not a space before its first dot. The
    adapter returns at most 8 jobs, each scored at least 23 when ranked
    within a week of the day on which it was stamped. *)
Theorem monster_jobs_in_the_ranking (clock : nat -> PyDate.datetime)
    (answer : provider_answer) (now : PyDate.datetime) (job_role : string) :
  (∀ i, PyDate.wf (clock i) ∧ 1000 <= PyDate.year (clock i)
        ∧ age_in_days now (clock i) <= 7) ->
  PyDate.wf now ->
  let jobs := MonsterJobAPI.search_jobs clock answer in
  (length jobs ≤ 8)%nat
  ∧ Forall (λ j,
        company j = Some (PyStr.strip (before "." (get_str (description j))))
        ∧ JobSearchEngine._is_valid_job j
          = JobSearchEngine.present (title j)
            && PyStr.truthy (PyStr.strip (before "." (get_str (description j))))
        ∧ 23 <= JobSearchEngine._calculate_relevance now j job_role)
      jobs.
Proof.
  intros Hclock Hnow jobs. subst jobs. split.
  - pose proof (slice_to_length_nonneg 8 (A:=job)) as Hcut.
    destruct answer as [|[organic_results|]]; simpl; [lia|..].
    + specialize (Hcut (MonsterJobAPI.jobs_of clock 0 organic_results)). lia.
    + lia.
  - apply Forall_forall. intros j Hj.
    assert (∃ k result, PyStr.contains "monster.co.in" (get_str (o_link result)) = true
              ∧ j = MonsterJobAPI.job_of (clock k) result) as (k & result & Hlink & ->).
    { destruct answer as [|[organic_results|]]; simpl in Hj;
        [by apply elem_of_nil in Hj| |by apply elem_of_nil in Hj].
      apply slice_to_subseteq, monster_jobs_of_elem in Hj
        as (k & result & _ & ? & ->). eauto. }
    destruct (Hclock k) as (Hwf & Hyear & Hage).
    cbn [company description title MonsterJobAPI.job_of get_str default from_option id].
    split; [by rewrite extract_company_before_dot|]. split.
    + unfold JobSearchEngine._is_valid_job.
      cbn [forallb title company url MonsterJobAPI.job_of].
      rewrite (contains_present "m" "onster.co.in" _ eq_refl Hlink).
      rewrite !andb_true_r, extract_company_before_dot. f_equal.
      unfold JobSearchEngine.present. rewrite strip_idempotent.
      by destruct (PyStr.truthy _).
    + apply relevance_with_fixed_bonuses; [done..|].
      rewrite (recency_of_a_written_date (clock k) now
                 (MonsterJobAPI.job_of (clock k) result) Hwf Hyear Hnow eq_refl).
      by rewrite (proj2 (Z.leb_le _ 7) Hage).
Qed.

Lemma monster_jobs_in_the_ranking_witness :
  (∀ i : nat, PyDate.wf ((λ _, jan_5) i) ∧ 1000 <= PyDate.year ((λ _, jan_5) i)
              ∧ age_in_days jan_5_evening ((λ _, jan_5) i) <= 7)
  ∧ PyDate.wf jan_5_evening
  ∧ let jobs := MonsterJobAPI.search_jobs (λ _, jan_5) three_organic_results in
    (length jobs ≤ 8)%nat
    ∧ Forall (λ j,
          company j = Some (PyStr.strip (before "." (get_str (description j))))
          ∧ JobSearchEngine._is_valid_job j
            = JobSearchEngine.present (title j)
              && PyStr.truthy (PyStr.strip (before "." (get_str (description j))))
          ∧ 23 <= JobSearchEngine._calculate_relevance jan_5_evening j "ML Engineer")
        jobs.
Proof.
  assert (∀ i : nat, PyDate.wf ((λ _, jan_5) i) ∧ 1000 <= PyDate.year ((λ _, jan_5) i)
                     ∧ age_in_days jan_5_evening ((λ _, jan_5) i) <= 7) as Hclock.
  { intros i. split; [exact jan_5_wf|]. split; [simpl; lia|]. vm_compute. discriminate. }
  split; [exact Hclock|]. split; [exact jan_5_evening_wf|].
  apply (monster_jobs_in_the_ranking (λ _, jan_5) three_organic_results
           jan_5_evening "ML Engineer" Hclock jan_5_evening_wf).
Defined.

(** A Monster job whose snippet starts with a dot has no company and
    does not reach the ranked jobs. *)
Example monster_job_without_company_is_dropped :
  MonsterJobAPI.search_jobs (λ _, jan_5) three_organic_results
  = [MonsterJobAPI.job_of jan_5
       (OrganicResult (Some "AI Engineer") (Some ". Acme Labs is hiring")
          (Some "https://www.monster.co.in/jobs/2"))]
  ∧ JobSearchEngine._remove_duplicates_and_rank (λ _, jan_5_evening)
      (MonsterJobAPI.search_jobs (λ _, jan_5) three_organic_results) "AI Engineer" = [].
Proof. split; vm_compute; reflexivity. Qed.

(** ** The credibility of the sources of questions *)

Example years_are_found_between_word_boundaries :
  QuestionSources._extract_year_from_text <$>
    ["a2024 2023x 2019, 2021"; "12021 2020_ (2025)"; "2015-2016"; "in 2014 or 2026";
     EmptyString]
  = [Some 2019; Some 2025; Some 2015; None; None].
Proof. reflexivity. Qed.

Example sources_are_rated :
  QuestionSources._analyze_source_credibility "https://LeetCode.com/problems" "Top 2024"
    = SourceInfo "coding_platform" 10
  ∧ QuestionSources._analyze_source_credibility "https://blog.example" "Interview Questions"
    = SourceInfo "interview_experience" 3
  ∧ QuestionSources._analyze_source_credibility EmptyString "Interview Questions 2024"
    = SourceInfo "unknown" 0
  ∧ QuestionSources._analyze_source_credibility "https://www.pramp.com/x" EmptyString
    = SourceInfo "interview_prep" 8
  ∧ QuestionSources._is_safe_url "https://www.pramp.com/x" = false.
Proof. repeat split. Qed.

(** One case of a chain of substring tests. *)
Ltac contains_case :=
  match goal with
  | |- context [PyStr.contains ?needle ?hay] =>
      destruct (PyStr.contains needle hay) eqn:?; simpl in *
  | H : context [PyStr.contains ?needle ?hay] |- _ =>
      destruct (PyStr.contains needle hay) eqn:?; simpl in *
  end.

Lemma credibility_range url title :
  0 <= score (QuestionSources._analyze_source_credibility url title) <= 10.
Proof.
  unfold QuestionSources._analyze_source_credibility, any_in.
  destruct (PyStr.truthy url); simpl; [|lia].
  repeat (contains_case; try lia).
Qed.

Lemma safe_url_credibility url title :
  QuestionSources._is_safe_url url = true ->
  6 <= score (QuestionSources._analyze_source_credibility url title)
  ∧ source_type (QuestionSources._analyze_source_credibility url title) ≠ "unknown".
Proof.
  unfold QuestionSources._is_safe_url, QuestionSources._analyze_source_credibility, any_in.
  destruct (PyStr.truthy url); simpl; [|discriminate].
  intros Hsafe.
  repeat (contains_case; try discriminate; try (split; [lia|discriminate])).
Qed.

Lemma unknown_source_credibility url title :
  source_type (QuestionSources._analyze_source_credibility url title) = "unknown" ->
  score (QuestionSources._analyze_source_credibility url title) <= 1.
Proof.
  unfold QuestionSources._analyze_source_credibility, any_in.
  destruct (PyStr.truthy url); simpl; [|lia].
  repeat (contains_case; try discriminate; try lia).
Qed.

(** X11: the credibility score of a source is between 0 and 10. A
    URL that the scraper takes as safe is rated at least 6 and never of
    the type [unknown]; a source of the type [unknown] is rated at
    most 1. *)
Theorem source_credibility_bounds (url title : string) :
  let info := QuestionSources._analyze_source_credibility url title in
  0 <= score info <= 10
  ∧ (QuestionSources._is_safe_url url = true ->
     6 <= score info ∧ source_type info ≠ "unknown")
  ∧ (source_type info = "unknown" -> score info <= 1).
Proof.
  split; [apply credibility_range|].
  split; [apply safe_url_credibility|apply unknown_source_credibility].
Qed.

Lemma source_credibility_bounds_witness :
  QuestionSources._is_safe_url "https://github.com/acme/questions" = true
  ∧ 6 <= score (QuestionSources._analyze_source_credibility
                  "https://github.com/acme/questions" "Questions of 2023")
  ∧ source_type (QuestionSources._analyze_source_credibility
                   "https://github.com/acme/questions" "Questions of 2023") ≠ "unknown".
Proof.
  split; [reflexivity|].
  apply (proj1 (proj2 (source_credibility_bounds "https://github.com/acme/questions"
                         "Questions of 2023"))).
  reflexivity.
Defined.

Lemma year_at_range s year :
  QuestionSources.year_at s = Some year -> 2015 <= year <= 2025.
Proof.
  unfold QuestionSources.year_at.
  destruct s as [|a [|b [|c [|d r]]]]; try discriminate.
  unfold PyDate.digit. destruct (PyStr.is_digit d) eqn:Hd; [|discriminate].
  unfold PyStr.is_digit in Hd. apply andb_prop in Hd as [Hlo%Z.leb_le Hhi%Z.leb_le].
  destruct (_ && _ && _ && _) eqn:Hmatch; [|discriminate].
  intros [= <-].
  apply andb_prop in Hmatch as [_ [Halt|Halt]%orb_prop];
    apply andb_prop in Halt as [Hc Hn]; rewrite ?Hc.
  - apply Z.leb_le in Hn. lia.
  - apply Z.leb_le in Hn. apply Ascii.eqb_eq in Hc as ->. simpl. lia.
Qed.

Lemma first_year_range after_word s year :
  QuestionSources.first_year after_word s = Some year -> 2015 <= year <= 2025.
Proof.
  revert after_word. induction s as [|c r IH]; intros after_word; [discriminate|].
  cbn [QuestionSources.first_year].
  destruct after_word; [apply IH|].
  destruct (QuestionSources.year_at (String c r)) eqn:Hat; [|apply IH].
  intros [= <-]. by eapply year_at_range.
Qed.

(** ** The questions extracted from an organic result *)

Lemma ends_with_nonempty c s : ends_with c s = true -> s ≠ EmptyString.
Proof. by destruct s. Qed.

Lemma ends_with_cons c a s : s ≠ EmptyString -> ends_with c (String a s) = ends_with c s.
Proof. by destruct s. Qed.

Lemma ends_with_rstrip c s :
  PyStr.is_space c = false -> ends_with c s = true -> ends_with c (PyStr.rstrip s) = true.
Proof.
  intros Hc. induction s as [|a r IH]; [done|].
  destruct r as [|b r'].
  - simpl. intros ->%Ascii.eqb_eq. rewrite Hc. simpl. apply Ascii.eqb_refl.
  - rewrite ends_with_cons by done. intros Hr%IH.
    pose proof (ends_with_nonempty _ _ Hr) as Hne.
    change (PyStr.rstrip (String a (String b r')))
      with (match PyStr.rstrip (String b r') with
            | EmptyString => if PyStr.is_space a then EmptyString else String a EmptyString
            | t => String a t
            end).
    destruct (PyStr.rstrip (String b r')) as [|x y]; [done|]. exact Hr.
Qed.

Lemma ends_with_lstrip c s :
  PyStr.is_space c = false -> ends_with c s = true -> ends_with c (PyStr.lstrip s) = true.
Proof.
  intros Hc. induction s as [|a r IH]; [done|].
  cbn [PyStr.lstrip]. destruct (PyStr.is_space a) eqn:Ha; [|done].
  destruct r as [|b r'].
  - simpl. intros ->%Ascii.eqb_eq. congruence.
  - rewrite ends_with_cons by done. apply IH.
Qed.

Lemma relevance_score_at_least_credibility q domain company :
  default 0 (q_credibility_score q)
  <= InterviewQuestionAPI._calculate_relevance_score q domain company.
Proof.
  unfold InterviewQuestionAPI._calculate_relevance_score.
  repeat case_match; lia.
Qed.

Lemma scored_questions_keeps l domain company q :
  q ∈ l ->
  3 < InterviewQuestionAPI._calculate_relevance_score q domain company ->
  set_q_relevance_score q (InterviewQuestionAPI._calculate_relevance_score q domain company)
  ∈ InterviewQuestionAPI.scored_questions l domain company.
Proof.
  intros Hin Hscore. induction l as [|q1 rest IH]; [by apply elem_of_nil in Hin|].
  simpl. apply elem_of_cons in Hin as [<-|Hin].
  - rewrite (proj2 (Z.ltb_lt _ _) Hscore). apply list_elem_of_here.
  - destruct (3 <? _); [apply list_elem_of_further|]; by apply IH.
Qed.

Section Extracted.
Variable _extract_questions_from_text : string -> list string.
Variable _extract_company_from_text : string -> string.

Lemma extracted_question_elem result domain company q :
  q ∈ QuestionSources._extract_questions_from_result _extract_questions_from_text
        _extract_company_from_text result domain company ->
  ∃ question_text,
    QuestionSources._is_valid_interview_question question_text = true
    ∧ q = QuestionSources.question_of _extract_company_from_text question_text domain
            company (get_str (o_link result)) (get_str (o_title result))
            (get_str (o_title result) ++ " " ++ get_str (o_snippet result)).
Proof.
  unfold QuestionSources._extract_questions_from_result.
  intros (question_text & -> & Hin)%list_elem_of_fmap.
  apply list_elem_of_In, filter_In in Hin as [_ Hvalid]. by exists question_text.
Qed.

(** X12: every question that [_extract_questions_from_result] builds
    has the requested domain and an empty solution; its text is
    trimmed, has between 10 and 1000 characters and ends with a
    question mark; its credibility score is between 0 and 10; its year,
    if any, is between 2015 and 2025; its company is the requested one
    when one is requested. *)
Theorem extracted_questions_are_well_formed (result : organic_result)
    (domain : string) (company : option string) :
  Forall (λ q,
      q_domain q = Some domain ∧ q_solution q = Some EmptyString
      ∧ q_relevance_score q = None
      ∧ (∃ text, q_question q = Some text ∧ PyStr.strip text = text
           ∧ 10 <= PyStr.len text <= 1000 ∧ ends_with "?" text = true)
      ∧ (∃ credibility, q_credibility_score q = Some credibility ∧ 0 <= credibility <= 10)
      ∧ (q_year q = None ∨ ∃ year, q_year q = Some year ∧ 2015 <= year <= 2025)
      ∧ (company = None ∨ company = Some EmptyString ∨ q_company q = company))
    (QuestionSources._extract_questions_from_result _extract_questions_from_text
       _extract_company_from_text result domain company).
Proof.
  apply Forall_forall. intros q (question_text & Hvalid & ->)%extracted_question_elem.
  unfold QuestionSources.question_of.
  cbn [q_domain q_solution q_relevance_score q_question q_credibility_score q_year
       q_company].
  split; [done|]. split; [done|]. split; [done|]. split; [|split; [|split]].
  - exists (PyStr.strip question_text).
    unfold QuestionSources._is_valid_interview_question in Hvalid.
    destruct (negb (PyStr.truthy question_text)); [discriminate|].
    destruct (_ <? 10) eqn:Hmin; [discriminate|].
    destruct (1000 <? _) eqn:Hmax; [discriminate|].
    simpl in Hvalid. destruct (ends_with "?" question_text) eqn:Hend; [|discriminate].
    apply Z.ltb_ge in Hmin, Hmax.
    split; [done|]. split; [apply strip_idempotent|]. split; [lia|].
    by apply ends_with_rstrip, ends_with_lstrip.
  - eexists. split; [done|]. apply credibility_range.
  - unfold QuestionSources._extract_year_from_text.
    destruct (QuestionSources.first_year _ _) as [year|] eqn:Hyear; [|by left].
    right. exists year. split; [done|]. by eapply first_year_range.
  - destruct company as [[|c name]|]; auto.
Qed.

(** X13: a question extracted from a result whose link is a safe URL
    has a relevance score of at least 6 for every domain and company,
    so the relevance filter, whose threshold is 3, never discards it. *)
Theorem questions_of_safe_sources_pass_the_filter (result : organic_result)
    (domain : string) (company : option string) (q : question)
    (questions : list question) (for_domain : string) (for_company : option string) :
  q ∈ QuestionSources._extract_questions_from_result _extract_questions_from_text
        _extract_company_from_text result domain company ->
  QuestionSources._is_safe_url (get_str (o_link result)) = true ->
  q ∈ questions ->
  6 <= InterviewQuestionAPI._calculate_relevance_score q for_domain for_company
  ∧ set_q_relevance_score q
      (InterviewQuestionAPI._calculate_relevance_score q for_domain for_company)
    ∈ InterviewQuestionAPI._filter_relevant_questions questions for_domain for_company.
Proof.
  intros (question_text & _ & ->)%extracted_question_elem Hsafe Hin.
  assert (6 <= InterviewQuestionAPI._calculate_relevance_score
                 (QuestionSources.question_of _extract_company_from_text question_text
                    domain company (get_str (o_link result)) (get_str (o_title result))
                    (get_str (o_title result) ++ " " ++ get_str (o_snippet result)))
                 for_domain for_company) as Hscore.
  { etrans; [|apply relevance_score_at_least_credibility].
    cbn [q_credibility_score QuestionSources.question_of default from_option id].
    by apply safe_url_credibility. }
  split; [done|].
  destruct questions as [|q1 rest]; [by apply elem_of_nil in Hin|].
  unfold InterviewQuestionAPI._filter_relevant_questions.
  rewrite sort_desc_perm. apply scored_questions_keeps; [done|lia].
Qed.

End Extracted.

Lemma questions_of_safe_sources_pass_the_filter_witness :
  heap_question
    ∈ QuestionSources._extract_questions_from_result one_question_found no_company_found
        heap_result "DSA" None
  ∧ QuestionSources._is_safe_url (get_str (o_link heap_result)) = true
  ∧ heap_question ∈ [q_2; heap_question]
  ∧ 6 <= InterviewQuestionAPI._calculate_relevance_score heap_question "SQL" None
  ∧ set_q_relevance_score heap_question
      (InterviewQuestionAPI._calculate_relevance_score heap_question "SQL" None)
    ∈ InterviewQuestionAPI._filter_relevant_questions [q_2; heap_question] "SQL" None.
Proof.
  assert (heap_question
            ∈ QuestionSources._extract_questions_from_result one_question_found
                no_company_found heap_result "DSA" None) as Hextracted.
  { vm_compute. apply list_elem_of_here. }
  assert (heap_question ∈ [q_2; heap_question]) as Hin.
  { apply list_elem_of_further, list_elem_of_here. }
  split; [exact Hextracted|]. split; [reflexivity|]. split; [exact Hin|].
  apply (questions_of_safe_sources_pass_the_filter one_question_found no_company_found
           heap_result "DSA" None heap_question [q_2; heap_question] "SQL" None
           Hextracted eq_refl Hin).
Defined.

(** ** The frequency tables *)

Section Counting.
Context {A : Type} (key : A -> string).
Implicit Types (d : JobStatistics.counts) (l : list A).

Lemma increment_keys k d :
  (JobStatistics.increment k d).*1 = if decide (k ∈ d.*1) then d.*1 else (d.*1 ++ [k])%list.
Proof.
  induction d as [|[k' n] rest IH]; [done|].
  cbn [JobStatistics.increment]. destruct (String.eqb k' k) eqn:Hk; rewrite !fmap_cons.
  - apply String.eqb_eq in Hk as ->. cbn [fst].
    by rewrite decide_True by apply list_elem_of_here.
  - apply String.eqb_neq in Hk. cbn [fst]. rewrite IH.
    destruct (decide (k ∈ rest.*1)) as [Hin|Hin].
    + by rewrite decide_True by by apply list_elem_of_further.
    + rewrite decide_False; [done|].
      intros [->|?]%elem_of_cons; done.
Qed.

Lemma increment_count k d k' :
  count_of (JobStatistics.increment k d) k'
  = count_of d k' + (if decide (k = k') then 1 else 0).
Proof.
  induction d as [|[k0 n] rest IH]; simpl.
  - destruct (decide (k = k')) as [->|Hne].
    + by rewrite String.eqb_refl.
    + by rewrite (proj2 (String.eqb_neq _ _) Hne).
  - destruct (String.eqb k0 k) eqn:Hk0; simpl.
    + apply String.eqb_eq in Hk0 as ->.
      destruct (decide (k = k')) as [->|Hne].
      * by rewrite String.eqb_refl.
      * rewrite (proj2 (String.eqb_neq _ _) Hne). lia.
    + destruct (String.eqb k0 k') eqn:Hk'; [|apply IH].
      apply String.eqb_eq in Hk' as ->. apply String.eqb_neq in Hk0.
      rewrite decide_False by done. lia.
Qed.

Lemma increment_total k d : total (JobStatistics.increment k d) = total d + 1.
Proof.
  unfold total. induction d as [|[k' n] rest IH]; [done|].
  cbn [JobStatistics.increment].
  destruct (String.eqb k' k); rewrite !fmap_cons; cbn [foldr snd]; lia.
Qed.

Lemma occurrences_snoc k l x :
  occurrences key k (l ++ [x])
  = occurrences key k l + (if decide (key x = k) then 1 else 0).
Proof.
  unfold occurrences. rewrite filter_app, length_app.
  destruct (decide (key x = k)) as [Hk|Hk].
  - rewrite filter_cons_True by done. simpl. lia.
  - rewrite filter_cons_False by done. simpl. lia.
Qed.

Lemma occurrences_pos k l :
  0 < occurrences key k l ↔ ∃ x, x ∈ l ∧ key x = k.
Proof.
  unfold occurrences. split.
  - intros Hpos. destruct (filter (λ x, key x = k) l) as [|x rest] eqn:Hf; [simpl in Hpos; lia|].
    assert (x ∈ filter (λ x, key x = k) l) as Hx by (rewrite Hf; apply list_elem_of_here).
    apply list_elem_of_filter in Hx as [? ?]. eauto.
  - intros (x & Hx & Hk).
    assert (x ∈ filter (λ x, key x = k) l) as Hin by by apply list_elem_of_filter.
    destruct (filter _ l); [by apply elem_of_nil in Hin|simpl; lia].
Qed.

(** The table built from [pre], extended with the items of [l]. *)
Lemma counting_loop pre l d :
  NoDup d.*1 ->
  (∀ k, count_of d k = occurrences key k pre) ->
  (∀ k, k ∈ d.*1 ↔ 0 < occurrences key k pre) ->
  total d = Z.of_nat (length pre) ->
  let table := fold_left (λ d x, JobStatistics.increment (key x) d) l d in
  NoDup table.*1
  ∧ (∀ k, count_of table k = occurrences key k (pre ++ l))
  ∧ (∀ k, k ∈ table.*1 ↔ 0 < occurrences key k (pre ++ l))
  ∧ total table = Z.of_nat (length (pre ++ l)).
Proof.
  revert pre d. induction l as [|x rest IH]; intros pre d Hnd Hcount Hkeys Htotal; simpl.
  { by rewrite app_nil_r. }
  replace (pre ++ x :: rest)%list with ((pre ++ [x]) ++ rest)%list
    by by rewrite <-app_assoc.
  apply IH.
  - rewrite increment_keys. destruct (decide _) as [Hin|Hin]; [done|].
    apply NoDup_app. split; [done|]. split; [|apply NoDup_singleton].
    intros k Hk ->%list_elem_of_singleton. done.
  - intros k. by rewrite increment_count, occurrences_snoc, Hcount.
  - intros k. rewrite increment_keys, occurrences_snoc.
    pose proof (Hkeys k) as Hk. pose proof (Hkeys (key x)) as Hx.
    assert (0 <= occurrences key k pre) by (unfold occurrences; lia).
    destruct (decide (key x ∈ d.*1)) as [Hin|Hin]; destruct (decide (key x = k)) as [<-|Hne].
    + split; [lia|done].
    + by rewrite Z.add_0_r.
    + split; [lia|]. intros _. apply elem_of_app. right. apply list_elem_of_here.
    + rewrite Z.add_0_r, elem_of_app, Hk, list_elem_of_singleton.
      split; [by intros [?|Heq]|by left].
  - rewrite increment_total, length_app. simpl. lia.
Qed.

Lemma counting_keys l d :
  (fold_left (λ d x, JobStatistics.increment (key x) d) l d).*1
  = (d.*1 ++ first_seen id (λ _, true) (list_to_set d.*1) (key <$> l))%list.
Proof.
  revert d. induction l as [|x rest IH]; intros d; simpl.
  { by rewrite app_nil_r. }
  rewrite IH, increment_keys, andb_true_r. unfold id at 1 3.
  destruct (decide (key x ∈ d.*1)) as [Hin|Hin].
  - rewrite bool_decide_eq_false_2; [done|].
    intros Hout. apply Hout. by apply elem_of_list_to_set.
  - rewrite bool_decide_eq_true_2 by by rewrite elem_of_list_to_set.
    rewrite <-app_assoc. simpl. do 3 f_equal.
    rewrite list_to_set_app_L. simpl. rewrite (union_empty_r_L {[key x]}).
    apply union_comm_L.
Qed.

End Counting.

Lemma count_of_elem d k n : NoDup d.*1 -> (k, n) ∈ d -> count_of d k = n.
Proof.
  induction d as [|[k' n'] rest IH]; [by intros _ ?%elem_of_nil|].
  rewrite fmap_cons. cbn [fst]. intros [Hk' Hnd]%NoDup_cons [Heq|Hin]%elem_of_cons; simpl.
  - injection Heq as <- <-. by rewrite String.eqb_refl.
  - destruct (String.eqb k' k) eqn:Hk; [|by apply IH].
    apply String.eqb_eq in Hk as ->. destruct Hk'.
    apply list_elem_of_fmap. by exists (k, n).
Qed.

Lemma distribution_of {A} (key : A -> string) (l : list A) :
  let table := fold_left (λ d x, JobStatistics.increment (key x) d) l [] in
  table.*1 = first_occurrences (key <$> l)
  ∧ NoDup table.*1
  ∧ (∀ k, count_of table k = occurrences key k l)
  ∧ (∀ k, k ∈ table.*1 ↔ 0 < occurrences key k l)
  ∧ Forall (λ entry, 0 < entry.2) table
  ∧ total table = Z.of_nat (length l).
Proof.
  intros table.
  destruct (counting_loop key [] l [] (NoDup_nil_2 : NoDup ([] : JobStatistics.counts).*1))
    as (Hnd & Hcount & Hkeys & Htotal); [done| |done|].
  { intros k. split; [by intros ?%elem_of_nil|]. unfold occurrences. simpl. lia. }
  simpl in Hnd, Hcount, Hkeys, Htotal. fold table in Hnd, Hcount, Hkeys, Htotal.
  split; [|split; [done|split; [done|split; [done|split; [|done]]]]].
  - subst table. rewrite counting_keys. simpl. unfold first_occurrences. done.
  - apply Forall_forall. intros [k n] Hin. simpl.
    rewrite <-(count_of_elem table k n Hnd Hin), Hcount. apply Hkeys.
    apply list_elem_of_fmap. by exists (k, n).
Qed.

(** X14: the tables of the job types and of the experience levels
    list the distinct values in the order of their first occurrence,
    [Unknown] standing for an absent key; the count of every value is
    the number of jobs that have it, is positive for the values listed,
    and the counts add up to the number of jobs. *)
Theorem distributions_count_the_jobs (jobs : list job) :
  let types := JobStatistics._get_job_type_distribution jobs in
  let levels := JobStatistics._get_experience_distribution jobs in
  (types.*1 = first_occurrences (job_type_of <$> jobs)
   ∧ (∀ k, count_of types k = occurrences job_type_of k jobs)
   ∧ Forall (λ entry, 0 < entry.2) types
   ∧ total types = Z.of_nat (length jobs))
  ∧ (levels.*1 = first_occurrences (experience_of <$> jobs)
     ∧ (∀ k, count_of levels k = occurrences experience_of k jobs)
     ∧ Forall (λ entry, 0 < entry.2) levels
     ∧ total levels = Z.of_nat (length jobs)).
Proof.
  split.
  - destruct (distribution_of job_type_of jobs) as (? & _ & ? & _ & ? & ?). done.
  - destruct (distribution_of experience_of jobs) as (? & _ & ? & _ & ? & ?). done.
Qed.

Example distributions_of_four_jobs :
  JobStatistics._get_job_type_distribution four_jobs = [("Full-time", 3); ("Internship", 1)]
  ∧ JobStatistics._get_experience_distribution four_jobs
    = [("Fresher", 3); ("Entry Level", 1)]
  ∧ JobStatistics._get_top_companies four_jobs 10 = [("Acme", 2); ("Various Companies", 1)].
Proof. repeat split. Qed.

Lemma company_count_filter jobs d :
  fold_left (λ company_count j,
      let company := default "Unknown" (company j) in
      if negb (String.eqb company "Company Not Specified")
         && negb (String.eqb company "Unknown")
      then JobStatistics.increment company company_count
      else company_count) jobs d
  = fold_left (λ d j, JobStatistics.increment (company_of j) d)
      (filter named_company jobs) d.
Proof.
  revert d. induction jobs as [|j rest IH]; intros d; [done|].
  cbn [fold_left]. cbv zeta. fold (company_of j).
  destruct (negb _ && negb _) eqn:Hnamed.
  - apply andb_prop in Hnamed as [H1%negb_true_iff%String.eqb_neq
                                   H2%negb_true_iff%String.eqb_neq].
    rewrite filter_cons_True by done. apply IH.
  - rewrite filter_cons_False; [apply IH|].
    intros [H1%String.eqb_neq H2%String.eqb_neq].
    by rewrite H1, H2 in Hnamed.
Qed.

Lemma occurrences_named c jobs :
  c ≠ "Company Not Specified" -> c ≠ "Unknown" ->
  occurrences company_of c (filter named_company jobs) = occurrences company_of c jobs.
Proof.
  intros H1 H2. unfold occurrences. f_equal. f_equal.
  induction jobs as [|j rest IH]; [done|].
  destruct (decide (company_of j = c)) as [Hc|Hc].
  - rewrite (filter_cons_True named_company) by (by unfold named_company; rewrite Hc).
    rewrite !filter_cons_True by done. by rewrite IH.
  - rewrite (filter_cons_False (λ x, company_of x = c) j rest) by done.
    destruct (decide (named_company j)).
    + rewrite (filter_cons_True named_company) by done.
      by rewrite filter_cons_False by done.
    + by rewrite (filter_cons_False named_company) by done.
Qed.

(** X15: the table of the top companies has at most [limit] entries,
    of distinct companies, ordered by decreasing number of jobs; it
    never lists [Company Not Specified] or [Unknown]; the count of every
    entry is the number of jobs of that company, and no named company
    that is left out has more jobs than a company that is listed. *)
Theorem top_companies_are_the_most_frequent (jobs : list job) (limit : Z) :
  0 <= limit ->
  let top := JobStatistics._get_top_companies jobs limit in
  Z.of_nat (length top) <= limit
  ∧ NoDup top.*1
  ∧ StronglySorted (desc snd) top
  ∧ Forall (λ entry,
        entry.1 ≠ "Company Not Specified" ∧ entry.1 ≠ "Unknown"
        ∧ entry.2 = occurrences company_of entry.1 jobs ∧ 0 < entry.2) top
  ∧ (∀ c entry,
       c ≠ "Company Not Specified" -> c ≠ "Unknown" -> c ∉ top.*1 -> entry ∈ top ->
       occurrences company_of c jobs <= entry.2).
Proof.
  intros Hlimit top. subst top. unfold JobStatistics._get_top_companies.
  unfold JobStatistics.company_count. rewrite company_count_filter.
  set (named := filter named_company jobs).
  pose proof (distribution_of company_of named) as Htable. cbv zeta in Htable.
  set (table := fold_left (λ d j, JobStatistics.increment (company_of j) d) named [])
    in *.
  destruct Htable as (_ & Hnd & Hcount & Hin & Hpos & _).
  assert (∀ c, c ≠ "Company Not Specified" -> c ≠ "Unknown" ->
            occurrences company_of c named = occurrences company_of c jobs) as Hnamed_occ.
  { intros c H1 H2. by apply occurrences_named. }
  assert (∀ entry, entry ∈ table ->
            entry.1 ≠ "Company Not Specified" ∧ entry.1 ≠ "Unknown"
            ∧ entry.2 = occurrences company_of entry.1 jobs ∧ 0 < entry.2) as Hentry.
  { intros [c n] Hc. cbn [fst snd].
    assert (0 < occurrences company_of c named) as Hocc.
    { apply Hin, list_elem_of_fmap. by exists (c, n). }
    apply occurrences_pos in Hocc as (j & [Hnamed _]%list_elem_of_filter & <-).
    destruct Hnamed as [H1 H2]. split; [done|]. split; [done|].
    rewrite <-(count_of_elem table _ n Hnd Hc), Hcount.
    rewrite Hnamed_occ by done. split; [done|].
    rewrite <-(Hnamed_occ (company_of j)) by done.
    rewrite <-Hcount, (count_of_elem table _ n Hnd Hc).
    rewrite Forall_forall in Hpos. apply (Hpos _ Hc). }
  pose proof (slice_to_prefix limit (sort_desc snd table)) as Hprefix.
  split; [by apply slice_to_length_nonneg|]. split; [|split; [|split]].
  - eapply sublist_NoDup; [|apply fmap_sublist, prefix_sublist, Hprefix].
    by rewrite sort_desc_perm.
  - eapply sorted_prefix; [exact Hprefix|apply sort_desc_sorted].
  - apply Forall_forall. intros entry Htop. apply Hentry.
    rewrite <-(sort_desc_perm snd table). by eapply slice_to_subseteq.
  - intros c entry H1 H2 Hout Htop.
    destruct (decide (0 < occurrences company_of c jobs)) as [Hocc|Hocc].
    + rewrite <-Hnamed_occ in Hocc by done.
      apply Hin, list_elem_of_fmap in Hocc as ([c' n] & -> & Hc). cbn [fst] in *.
      assert (n = occurrences company_of c' jobs) as <-.
      { by destruct (Hentry _ Hc) as (_ & _ & ? & _). }
      destruct Hprefix as [rest Hrest].
      assert ((c', n) ∈ rest) as Hlate.
      { rewrite <-(sort_desc_perm snd table), Hrest in Hc.
        apply elem_of_app in Hc as [Hc|Hc]; [|done].
        destruct Hout. apply list_elem_of_fmap. by exists (c', n). }
      pose proof (sort_desc_sorted snd table) as Hsorted. rewrite Hrest in Hsorted.
      apply (sorted_cut snd _ _ Hsorted entry (c', n) Htop Hlate).
    + assert (0 < entry.2); [|lia].
      apply Hentry. rewrite <-(sort_desc_perm snd table). by eapply slice_to_subseteq.
Qed.

Lemma top_companies_are_the_most_frequent_witness :
  0 <= 1
  ∧ let top := JobStatistics._get_top_companies four_jobs 1 in
    Z.of_nat (length top) <= 1
    ∧ NoDup top.*1
    ∧ StronglySorted (desc snd) top
    ∧ Forall (λ entry,
          entry.1 ≠ "Company Not Specified" ∧ entry.1 ≠ "Unknown"
          ∧ entry.2 = occurrences company_of entry.1 four_jobs ∧ 0 < entry.2) top
    ∧ (∀ c entry,
         c ≠ "Company Not Specified" -> c ≠ "Unknown" -> c ∉ top.*1 -> entry ∈ top ->
         occurrences company_of c four_jobs <= entry.2).
Proof.
  split; [lia|].
  apply (top_companies_are_the_most_frequent four_jobs 1). lia.
Defined.

(** ** The relevance check of LinkedIn and the score of the ranking *)

Lemma fold_left_add_elem {B} (f : B -> Z) (l : list B) (s : Z) (k : B) :
  (∀ k, 0 <= f k) -> k ∈ l -> s + f k <= fold_left (λ score k, score + f k) l s.
Proof.
  intros Hf. revert s. induction l as [|k' rest IH]; intros s; [by intros ?%elem_of_nil|].
  intros [<-|Hin]%elem_of_cons; simpl.
  - pose proof (fold_left_add_le f rest (s + f k) Hf). lia.
  - specialize (IH (s + f k') Hin). specialize (Hf k'). lia.
Qed.

(** X16: a job that the relevance check of the LinkedIn adapter lets
    through is scored at least 5 by the ranking, for the same role and
    at every clock reading, and at least 13 when its source is
    LinkedIn. *)
Theorem relevant_jobs_score_at_least_5 (now : PyDate.datetime) (j : job)
    (job_role : string) :
  LinkedInJobAPI._is_relevant_job j job_role = true ->
  5 <= JobSearchEngine._calculate_relevance now j job_role
  ∧ (source j = Some "LinkedIn" ->
     13 <= JobSearchEngine._calculate_relevance now j job_role).
Proof.
  unfold LinkedInJobAPI._is_relevant_job, JobSearchEngine._calculate_relevance.
  cbv zeta.
  set (t := PyStr.lower (get_str (title j))).
  set (d := PyStr.lower (get_str (description j))).
  set (role := PyStr.lower job_role).
  intros Hrelevant.
  pose proof (recency_range now j) as Hr.
  pose proof (λ k, keyword_score_nonneg 8 3 t d k ltac:(lia) ltac:(lia)) as Hf1.
  pose proof (λ k, keyword_score_nonneg 10 5 t d k ltac:(lia) ltac:(lia)) as Hf2.
  match goal with
  | |- context [fold_left ?f2 JobSearchEngine.ai_ml_keywords (fold_left ?f1 ?l ?s)] =>
      pose proof (fold_left_add_le (JobSearchEngine.keyword_score 8 3 t d) l s Hf1) as H1;
      pose proof (λ k, fold_left_add_elem (JobSearchEngine.keyword_score 8 3 t d) l s k Hf1)
        as E1;
      set (s0 := s) in *;
      set (s1 := fold_left f1 l s0) in *;
      pose proof (fold_left_add_le (JobSearchEngine.keyword_score 10 5 t d)
                    JobSearchEngine.ai_ml_keywords s1 Hf2) as H2;
      pose proof (λ k, fold_left_add_elem (JobSearchEngine.keyword_score 10 5 t d)
                         JobSearchEngine.ai_ml_keywords s1 k Hf2) as E2;
      set (s2 := fold_left f2 JobSearchEngine.ai_ml_keywords s1) in *
  end.
  assert (0 <= s0) as Hs0 by (subst s0; case_match; lia).
  assert (5 <= s2) as Hbase.
  { apply orb_prop in Hrelevant as [Hai|Hrole].
    - apply existsb_exists in Hai as (keyword & Hin & Hfound).
      assert (keyword ∈ JobSearchEngine.ai_ml_keywords) as Hkeyword.
      { apply list_elem_of_In. simpl in Hin. unfold JobSearchEngine.ai_ml_keywords. simpl.
        tauto. }
      specialize (E2 keyword Hkeyword).
      assert (5 <= JobSearchEngine.keyword_score 10 5 t d keyword).
      { unfold JobSearchEngine.keyword_score.
        destruct (PyStr.contains keyword t), (PyStr.contains keyword d);
          (discriminate || lia). }
      lia.
    - apply orb_prop in Hrole as [Hin|Hword].
      + assert (s0 = 20) by (subst s0; by rewrite Hin). lia.
      + apply existsb_exists in Hword as (word & Hin%list_elem_of_In & Hfound).
        specialize (E1 word Hin).
        assert (8 <= JobSearchEngine.keyword_score 8 3 t d word).
        { unfold JobSearchEngine.keyword_score. rewrite Hfound.
          destruct (PyStr.contains word d); lia. }
        lia. }
  clearbody s2. clear H1 H2 E1 E2.
  split.
  - repeat case_match; lia.
  - intros ->. cbn [get_str default from_option id].
    replace (PyStr.contains "linkedin" (PyStr.lower "LinkedIn")) with true by reflexivity.
    repeat case_match; lia.
Qed.

Lemma relevant_jobs_score_at_least_5_witness :
  LinkedInJobAPI._is_relevant_job analyst_job "Data Analyst" = true
  ∧ 5 <= JobSearchEngine._calculate_relevance jan_5 analyst_job "Data Analyst"
  ∧ (source analyst_job = Some "LinkedIn" ->
     13 <= JobSearchEngine._calculate_relevance jan_5 analyst_job "Data Analyst").
Proof.
  split; [reflexivity|].
  apply (relevant_jobs_score_at_least_5 jan_5 analyst_job "Data Analyst"). reflexivity.
Defined.

(** ** The queries that the question search sends *)

Example cases_of_a_text :
  PyCase.upper "node.js 3d" = "NODE.JS 3D"
  ∧ PyCase.title "aB cD" = "Ab Cd" ∧ PyCase.title "node.js" = "Node.Js"
  ∧ PyCase.title "o'neil 3d" = "O'Neil 3D".
Proof. repeat split. Qed.

(** The names tried for a company are those of the first key of the
    table that is in the name or has the name in it: Honeywell is
    searched as EY. A company that matches no key is searched under its
    own name. *)
Example variations_of_a_company :
  QuestionQueries._get_company_variations "Honeywell" = ["EY"; "Ernst & Young"]
  ∧ QuestionQueries._get_company_variations "gle" = ["Google"; "Google India"; "Alphabet"]
  ∧ QuestionQueries._get_company_variations "sap labs"
    = ["sap labs"; "SAP LABS"; "Sap Labs"; "sap labs India"].
Proof. repeat split. Qed.

Lemma find_nonempty (test : string * list string -> bool)
    (table : list (string * list string)) (fallback : list string) :
  forallb (λ entry, negb (bool_decide (entry.2 = []))) table = true ->
  fallback ≠ [] ->
  match List.find test table with
  | Some entry => entry.2
  | None => fallback
  end ≠ [].
Proof.
  intros Htable Hfallback. destruct (List.find test table) as [entry|] eqn:Hfind; [|done].
  apply find_some in Hfind as [Hin _].
  rewrite forallb_forall in Htable. specialize (Htable entry Hin).
  apply negb_true_iff, bool_decide_eq_false in Htable. done.
Qed.

Lemma domain_keywords_nonempty domain : QuestionQueries.domain_keywords domain ≠ [].
Proof. unfold QuestionQueries.domain_keywords. by apply find_nonempty. Qed.

Lemma company_variations_nonempty company :
  QuestionQueries._get_company_variations company ≠ [].
Proof. unfold QuestionQueries._get_company_variations. by apply find_nonempty. Qed.

Lemma sent_of_the_first {A} (first rest : list A) :
  (5 ≤ length first)%nat -> slice_to 5 (slice_to 15 (first ++ rest)) = take 5 first.
Proof.
  intros Hlen. rewrite !slice_to_take by lia.
  rewrite take_take. change (Z.to_nat 5 `min` Z.to_nat 15)%nat with 5%nat.
  change (Z.to_nat 5) with 5%nat. by rewrite take_app_le.
Qed.

(** X17: of the queries that are generated only those of the first
    keyword of the domain are ever sent. With a company, the five
    queries sent are the first five company queries for the first name
    of the company and the first keyword; the other names and keywords,
    and all general and site queries, are generated and cut off.
    Without a company, the five queries sent are the first five general
    queries for the first keyword. The loop of the search runs over
    these five queries in every case, and leaves it before the last when
    it has gathered enough questions; the requested difficulty has no
    part in them. *)
Theorem only_the_first_keyword_is_searched (current_year : Z) (domain : string)
    (company : option string) (difficulty : string) :
  let sent := QuestionQueries.sent_queries current_year domain company difficulty in
  length sent = 5%nat
  ∧ ∃ keyword, head (QuestionQueries.domain_keywords domain) = Some keyword
    ∧ match company with
      | Some (String c name) =>
          ∃ comp_name,
            head (QuestionQueries._get_company_variations (String c name)) = Some comp_name
            ∧ sent = take 5 (QuestionQueries.company_queries current_year comp_name keyword)
      | Some EmptyString | None =>
          sent = take 5 (QuestionQueries.general_queries current_year keyword)
      end.
Proof.
  intros sent. subst sent.
  unfold QuestionQueries.sent_queries, QuestionQueries._generate_dynamic_search_queries.
  cbv zeta.
  pose proof (domain_keywords_nonempty domain) as Hkeywords.
  destruct (QuestionQueries.domain_keywords domain) as [|keyword keywords]; [done|].
  clear Hkeywords.
  assert (∀ rest,
            slice_to 5 (slice_to 15
              (([] ++ ((keyword :: keywords)
                         ≫= λ k, QuestionQueries.general_queries current_year k))
                 ++ rest))
            = take 5 (QuestionQueries.general_queries current_year keyword)) as Hgeneral.
  { intros rest. rewrite app_nil_l, bind_cons, <-app_assoc.
    by rewrite sent_of_the_first by (simpl; lia). }
  destruct company as [[|c name]|].
  - rewrite Hgeneral. split; [done|]. by exists keyword.
  - cbn [PyStr.truthy].
    pose proof (company_variations_nonempty (String c name)) as Hvariations.
    destruct (QuestionQueries._get_company_variations (String c name))
      as [|comp_name others]; [done|].
    rewrite (slice_to_take 3), (slice_to_take 2) by lia.
    change (Z.to_nat 3) with 3%nat. change (Z.to_nat 2) with 2%nat.
    cbn [take]. rewrite app_nil_l, !bind_cons, <-!app_assoc.
    rewrite sent_of_the_first by (simpl; lia).
    split; [done|]. exists keyword. split; [done|]. by exists comp_name.
  - rewrite Hgeneral. split; [done|]. by exists keyword.
Qed.

Example queries_for_google :
  QuestionQueries.sent_queries 2024 "DSA" (Some "Google") "hard"
  = [ String (ascii_of_nat 34) "Google" ++ String (ascii_of_nat 34)
        " interview questions data structures 2024 2023";
      "Google data structures interview experience 2024";
      "Google technical interview data structures questions recent";
      String (ascii_of_nat 34) "Google" ++ String (ascii_of_nat 34)
        " coding interview data structures asked questions";
      "Google data structures interview questions asked site:leetcode.com" ]
  ∧ QuestionQueries.sent_queries 2024 "React" None "all"
    = [ "react interview questions 2024 2023 india";
        "react coding interview questions asked recently";
        "react technical interview questions and answers 2024";
        "recent react interview questions indian companies";
        "react interview preparation questions 2024" ].
Proof. split; vm_compute; reflexivity. Qed.

(** ** The route that generates the PDF *)

Example pdf_of_the_hard_questions :
  PdfRoute.generate_interview_pdf pdf_is_built no_format jan_5 (Some hard_questions_request)
  = pdf_file (PdfRequest "DSA" [hard_question] None (json_bool true) (json_str "hard"))
             "interview_prep_dsa_hard_20240105_100000.pdf".
Proof. vm_compute. reflexivity. Qed.

Lemma iterate_nonempty v items :
  PdfRoute.truthy v = true -> PdfRoute.iterate v = Routes.Ok items -> items ≠ [].
Proof.
  destruct v as [|b|z|s|l|fields]; simpl; try discriminate.
  - intros Hs [= <-]. by destruct s.
  - intros Hl [= <-]. by destruct l.
  - intros Hsize [= <-] Hnil. apply fmap_nil_inv in Hnil.
    apply (f_equal length) in Hnil. rewrite length_map_to_list in Hnil.
    simpl in Hnil. by rewrite Hnil in Hsize.
Qed.

Lemma matches_difficulty_ok difficulty_filter q keep :
  PdfRoute.matches_difficulty difficulty_filter q = Routes.Ok keep ->
  ∃ fields difficulty wanted,
    q = json_dict fields
    ∧ PdfRoute.get fields "difficulty" (json_str EmptyString) = json_str difficulty
    ∧ difficulty_filter = json_str wanted
    ∧ keep = String.eqb (PyStr.lower difficulty) (PyStr.lower wanted).
Proof.
  unfold PdfRoute.matches_difficulty. route_unfold.
  destruct q as [| | | | |fields]; try discriminate. cbn [PdfRoute.as_dict].
  destruct (PdfRoute.get fields "difficulty" _) as [| | |difficulty| |] eqn:Hd;
    try discriminate.
  destruct difficulty_filter as [| | |wanted| |]; try discriminate.
  intros [= <-]. by exists fields, difficulty, wanted.
Qed.

Lemma filter_by_difficulty_ok difficulty_filter questions kept :
  PdfRoute.filter_by_difficulty difficulty_filter questions = Routes.Ok kept ->
  (questions ≠ [] -> ∃ wanted, difficulty_filter = json_str wanted)
  ∧ kept `sublist_of` questions
  ∧ Forall (λ q, ∃ fields difficulty,
        q = json_dict fields
        ∧ PdfRoute.get fields "difficulty" (json_str EmptyString) = json_str difficulty
        ∧ ∀ wanted, difficulty_filter = json_str wanted ->
                    PyStr.lower difficulty = PyStr.lower wanted) kept.
Proof.
  revert kept. induction questions as [|q rest IH]; intros kept; simpl.
  { intros [= <-]. split; [done|]. split; constructor. }
  route_unfold.
  destruct (PdfRoute.matches_difficulty difficulty_filter q) as [keep|] eqn:Hq;
    [|discriminate].
  apply matches_difficulty_ok in Hq as (fields & difficulty & wanted & -> & Hd & -> & ->).
  destruct (PdfRoute.filter_by_difficulty (json_str wanted) rest) as [kept'|];
    [|discriminate].
  destruct (IH kept' eq_refl) as (_ & Hsub & Hall).
  intros [= <-]. split; [by eauto|].
  destruct (String.eqb _ _) eqn:Hkeep.
  - split; [by apply sublist_skip|]. constructor; [|done].
    exists fields, difficulty. split; [done|]. split; [done|].
    intros ? [= <-]. by apply String.eqb_eq.
  - split; [by apply sublist_cons|done].
Qed.

Lemma validate_ok i questions :
  PdfRoute.validate i questions = None ->
  Forall (λ q, ∃ fields,
      q = json_dict fields
      ∧ PdfRoute.truthy (PdfRoute.get fields "question" json_null) = true
      ∧ PdfRoute.truthy (PdfRoute.get fields "domain" json_null) = true) questions.
Proof.
  revert i. induction questions as [|q rest IH]; intros i; [constructor|].
  destruct q as [| | | | |fields]; try discriminate.
  cbn [PdfRoute.validate].
  destruct (PdfRoute.truthy (PdfRoute.get fields "question" json_null)) eqn:H1;
    [|discriminate].
  destruct (PdfRoute.truthy (PdfRoute.get fields "domain" json_null)) eqn:H2;
    [|discriminate].
  simpl. intros Hrest%IH. constructor; [|done]. by exists fields.
Qed.

(** X18: the PDF generator is called only with validated arguments:
    a trimmed domain that is not empty, a company that is absent or
    trimmed and not empty, a difficulty filter that is a text, and a
    list of questions that are dictionaries with a question and a domain
    that are not empty. When the filter is not [all], every question
    has a difficulty equal to the filter up to case; the list is empty
    only in that case, when no question has the difficulty asked for. *)
Theorem pdf_generator_gets_validated_questions (request : option json)
    (call : pdf_request) :
  PdfRoute.prepare request = Routes.Ok (inr call) ->
  pdf_domain call ≠ EmptyString ∧ PyStr.strip (pdf_domain call) = pdf_domain call
  ∧ (∀ name, pdf_company call = Some name ->
             name ≠ EmptyString ∧ PyStr.strip name = name)
  ∧ ∃ wanted,
      pdf_difficulty_filter call = json_str wanted
      ∧ (pdf_questions call = [] -> wanted ≠ "all")
      ∧ Forall (λ q, ∃ fields,
            q = json_dict fields
            ∧ PdfRoute.truthy (PdfRoute.get fields "question" json_null) = true
            ∧ PdfRoute.truthy (PdfRoute.get fields "domain" json_null) = true
            ∧ (wanted ≠ "all" ->
               ∃ difficulty,
                 PdfRoute.get fields "difficulty" (json_str EmptyString)
                   = json_str difficulty
                 ∧ PyStr.lower difficulty = PyStr.lower wanted))
          (pdf_questions call).
Proof.
  unfold PdfRoute.prepare. destruct request as [data|]; [|discriminate].
  destruct (negb (PdfRoute.truthy data)); [discriminate|]. route_unfold.
  destruct (PdfRoute.as_dict data) as [fields|]; [|discriminate].
  destruct (PdfRoute.as_str (PdfRoute.get fields "domain" _)) as [domain|];
    [|discriminate].
  destruct (PdfRoute.as_str (PdfRoute.get fields "company" _)) as [company|];
    [|discriminate].
  destruct (negb (PyStr.truthy (PyStr.strip domain))) eqn:Hdomain; [discriminate|].
  destruct (negb (PdfRoute.truthy (PdfRoute.get fields "questions" _))) eqn:Htruthy;
    [discriminate|].
  apply negb_false_iff in Hdomain, Htruthy.
  destruct (PdfRoute.iterate _) as [items|] eqn:Hitems; [|discriminate].
  pose proof (iterate_nonempty _ _ Htruthy Hitems) as Hnonempty.
  set (difficulty_filter := PdfRoute.get fields "difficulty_filter" (json_str "all")).
  assert (∀ questions,
            @Routes.Ok (pdf_reply + pdf_request)
              (inr (PdfRequest (PyStr.strip domain) questions
                      (if PyStr.truthy (PyStr.strip company)
                       then Some (PyStr.strip company) else None)
                      (PdfRoute.get fields "include_solutions" (json_bool true))
                      difficulty_filter))
            = Routes.Ok (inr call) ->
            pdf_domain call ≠ EmptyString
            ∧ PyStr.strip (pdf_domain call) = pdf_domain call
            ∧ (∀ name, pdf_company call = Some name ->
                       name ≠ EmptyString ∧ PyStr.strip name = name)
            ∧ pdf_difficulty_filter call = difficulty_filter
            ∧ pdf_questions call = questions) as Hcall.
  { intros questions [= <-]. cbn [pdf_domain pdf_company pdf_difficulty_filter
                                   pdf_questions].
    split; [by destruct (PyStr.strip domain)|]. split; [apply strip_idempotent|].
    split; [|done]. intros name.
    destruct (PyStr.truthy (PyStr.strip company)) eqn:Hcompany; [|discriminate].
    intros [= <-]. split; [by destruct (PyStr.strip company)|apply strip_idempotent]. }
  destruct (PdfRoute.is_all difficulty_filter) eqn:Hall.
  - destruct (PdfRoute.validate 0 items) eqn:Hvalid; [discriminate|].
    intros (? & ? & ? & Hfilter & Hquestions)%Hcall.
    split; [done|]. split; [done|]. split; [done|].
    destruct difficulty_filter as [| | |wanted| |]; try discriminate.
    apply String.eqb_eq in Hall as ->. exists "all".
    rewrite Hfilter, Hquestions. split; [done|]. split; [done|].
    eapply Forall_impl; [exact (validate_ok _ _ Hvalid)|].
    intros q (qfields & -> & ? & ?). by exists qfields.
  - destruct (PdfRoute.filter_by_difficulty difficulty_filter items) as [kept|] eqn:Hkept;
      [|discriminate].
    apply filter_by_difficulty_ok in Hkept as (Hwanted & _ & Hdifficulty).
    destruct (Hwanted Hnonempty) as [wanted Heq]. rewrite Heq in *.
    destruct (PdfRoute.validate 0 kept) eqn:Hvalid; [discriminate|].
    intros (? & ? & ? & Hfilter & Hquestions)%Hcall.
    split; [done|]. split; [done|]. split; [done|]. exists wanted.
    rewrite Hfilter, Hquestions. split; [done|]. split.
    + intros _ ->. discriminate.
    + apply validate_ok in Hvalid. rewrite Forall_forall in Hvalid, Hdifficulty.
      apply Forall_forall. intros q Hq.
      destruct (Hvalid q Hq) as (qfields & -> & ? & ?).
      destruct (Hdifficulty _ Hq) as (qfields' & difficulty & [= <-] & ? & Hsame).
      exists qfields. split; [done|]. split; [done|]. split; [done|].
      intros _. exists difficulty. split; [done|]. by apply Hsame.
Qed.

Lemma pdf_generator_gets_validated_questions_witness :
  let call := PdfRequest "DSA" [hard_question] None (json_bool true) (json_str "hard") in
  PdfRoute.prepare (Some hard_questions_request) = Routes.Ok (inr call)
  ∧ pdf_domain call ≠ EmptyString ∧ PyStr.strip (pdf_domain call) = pdf_domain call
  ∧ (∀ name, pdf_company call = Some name ->
             name ≠ EmptyString ∧ PyStr.strip name = name)
  ∧ ∃ wanted,
      pdf_difficulty_filter call = json_str wanted
      ∧ (pdf_questions call = [] -> wanted ≠ "all")
      ∧ Forall (λ q, ∃ fields,
            q = json_dict fields
            ∧ PdfRoute.truthy (PdfRoute.get fields "question" json_null) = true
            ∧ PdfRoute.truthy (PdfRoute.get fields "domain" json_null) = true
            ∧ (wanted ≠ "all" ->
               ∃ difficulty,
                 PdfRoute.get fields "difficulty" (json_str EmptyString)
                   = json_str difficulty
                 ∧ PyStr.lower difficulty = PyStr.lower wanted))
          (pdf_questions call).
Proof.
  intros call.
  assert (PdfRoute.prepare (Some hard_questions_request) = Routes.Ok (inr call))
    as Hprepared.
  { vm_compute. reflexivity. }
  split; [exact Hprepared|].
  exact (pdf_generator_gets_validated_questions (Some hard_questions_request) call
           Hprepared).
Defined.

Lemma dict_with_a_key_is_truthy (fields : gmap string json) key v :
  fields !! key = Some v -> PdfRoute.truthy (json_dict fields) = true.
Proof.
  intros Hkey. simpl. apply negb_true_iff, Nat.eqb_neq.
  intros Hsize%map_size_empty_iff. by rewrite Hsize, lookup_empty in Hkey.
Qed.

(** X19: a question that is not a dictionary is answered in two ways.
    For a request with a domain and a list of questions whose first
    item is not a dictionary, the route answers 400, naming question 1,
    when the difficulty filter is [all]; with any other filter the
    filtering of the questions raises before they are validated, and
    the answer is 500. No PDF is generated in either case. *)
Theorem question_that_is_no_dictionary (generate_enhanced_pdf : pdf_request -> bool)
    (format : json -> string) (now : PyDate.datetime) (fields : gmap string json)
    (domain : string) (q : json) (rest : list json) (wanted : string) :
  fields !! "domain" = Some (json_str domain) ->
  PyStr.strip domain ≠ EmptyString ->
  (fields !! "company" = None ∨ ∃ company, fields !! "company" = Some (json_str company)) ->
  fields !! "questions" = Some (json_list (q :: rest)) ->
  (∀ question, q ≠ json_dict question) ->
  PdfRoute.get fields "difficulty_filter" (json_str "all") = json_str wanted ->
  PdfRoute.generate_interview_pdf generate_enhanced_pdf format now (Some (json_dict fields))
  = if String.eqb wanted "all"
    then pdf_error 400 "Question 1 must be a dictionary"
    else pdf_error 500 "PDF generation failed: AttributeError".
Proof.
  intros Hdomain Hstrip Hcompany Hquestions Hq Hfilter.
  assert (PdfRoute.get fields "domain" (json_str EmptyString) = json_str domain)
    as Hget_domain by (unfold PdfRoute.get; by rewrite Hdomain).
  assert (PdfRoute.get fields "questions" (json_list []) = json_list (q :: rest))
    as Hget_questions by (unfold PdfRoute.get; by rewrite Hquestions).
  assert (∃ company, PdfRoute.as_str (PdfRoute.get fields "company" (json_str EmptyString))
                     = Routes.Ok company) as [company Hget_company].
  { unfold PdfRoute.get. destruct Hcompany as [->|[company ->]]; by eexists. }
  unfold PdfRoute.generate_interview_pdf, PdfRoute.prepare.
  rewrite (dict_with_a_key_is_truthy _ _ _ Hdomain). cbn [negb PdfRoute.as_dict].
  route_unfold. rewrite Hget_domain, Hget_questions, Hget_company, Hfilter.
  cbn [PdfRoute.as_str].
  destruct (PyStr.strip domain) eqn:Hd; [done|].
  cbn [PyStr.truthy negb PdfRoute.truthy length Nat.eqb PdfRoute.iterate PdfRoute.is_all].
  destruct (String.eqb wanted "all").
  - destruct q as [| | | | |question]; [reflexivity..|by destruct (Hq question)].
  - cbn [PdfRoute.filter_by_difficulty]. unfold PdfRoute.matches_difficulty. route_unfold.
    destruct q as [| | | | |question]; [reflexivity..|by destruct (Hq question)].
Qed.

Lemma question_that_is_no_dictionary_witness :
  text_question_fields "hard" !! "domain" = Some (json_str "DSA")
  ∧ PyStr.strip "DSA" ≠ EmptyString
  ∧ (text_question_fields "hard" !! "company" = None
     ∨ ∃ company, text_question_fields "hard" !! "company" = Some (json_str company))
  ∧ text_question_fields "hard" !! "questions"
    = Some (json_list [json_str "What is a trie?"; hard_question])
  ∧ (∀ question, json_str "What is a trie?" ≠ json_dict question)
  ∧ PdfRoute.get (text_question_fields "hard") "difficulty_filter" (json_str "all")
    = json_str "hard"
  ∧ PdfRoute.generate_interview_pdf pdf_is_built no_format jan_5
      (Some (json_dict (text_question_fields "hard")))
    = if String.eqb "hard" "all"
      then pdf_error 400 "Question 1 must be a dictionary"
      else pdf_error 500 "PDF generation failed: AttributeError".
Proof.
  split; [reflexivity|]. split; [discriminate|]. split; [left; reflexivity|].
  split; [reflexivity|]. split; [discriminate|]. split; [reflexivity|].
  apply (question_that_is_no_dictionary pdf_is_built no_format jan_5
           (text_question_fields "hard") "DSA" (json_str "What is a trie?")
           [hard_question] "hard");
    [reflexivity|discriminate|left; reflexivity|reflexivity|discriminate|reflexivity].
Defined.

Example text_question_without_filter :
  PdfRoute.generate_interview_pdf pdf_is_built no_format jan_5
    (Some (json_dict (text_question_fields "all")))
  = pdf_error 400 "Question 1 must be a dictionary".
Proof. vm_compute. reflexivity. Qed.

(** ** The relevance filter on the questions of a search *)

Lemma starts_with_refl s : PyStr.starts_with s s = true.
Proof. induction s as [|c r IH]; [done|]. simpl. by rewrite Ascii.eqb_refl. Qed.

Lemma contains_refl s : PyStr.contains s s = true.
Proof. destruct s; simpl; [done|]. by rewrite Ascii.eqb_refl, starts_with_refl. Qed.

Lemma own_domain_scores_5 q domain company :
  q_domain q = Some domain ->
  0 <= default 0 (q_credibility_score q) ->
  5 <= InterviewQuestionAPI._calculate_relevance_score q domain company.
Proof.
  intros Hdomain Hcredibility. unfold InterviewQuestionAPI._calculate_relevance_score.
  rewrite Hdomain. cbn [get_str default from_option id] in *.
  rewrite contains_refl, orb_true_r.
  repeat case_match; lia.
Qed.

Lemma scored_questions_all l domain company :
  Forall (λ q, 3 < InterviewQuestionAPI._calculate_relevance_score q domain company) l ->
  InterviewQuestionAPI.scored_questions l domain company
  = (λ q, set_q_relevance_score q
            (InterviewQuestionAPI._calculate_relevance_score q domain company)) <$> l.
Proof.
  induction 1 as [|q rest Hq _ IH]; [done|]. simpl.
  by rewrite (proj2 (Z.ltb_lt _ _) Hq), IH.
Qed.

Section OwnDomain.
Variable _extract_questions_from_text : string -> list string.
Variable _extract_company_from_text : string -> string.

(** X20: the relevance filter discards no question that was extracted
    for the domain of the search. Such a question carries the domain, so
    the domain is found in it and it scores at least 5, above the
    threshold of 3, whatever its source, year, type and company: on the
    questions of its own search the filter only scores and sorts. *)
Theorem relevance_filter_keeps_the_questions_of_the_domain (domain : string)
    (company : option string) (questions : list question) :
  Forall (λ q, ∃ result asked_company,
      q ∈ QuestionSources._extract_questions_from_result _extract_questions_from_text
            _extract_company_from_text result domain asked_company) questions ->
  let relevant := InterviewQuestionAPI._filter_relevant_questions questions domain company in
  length relevant = length questions
  ∧ Forall (λ q, 5 <= InterviewQuestionAPI.q_score_key q) relevant
  ∧ relevant
    ≡ₚ (λ q, set_q_relevance_score q
               (InterviewQuestionAPI._calculate_relevance_score q domain company))
       <$> questions.
Proof.
  intros Hextracted relevant.
  assert (Forall (λ q, 5 <= InterviewQuestionAPI._calculate_relevance_score q domain company)
            questions) as Hscores.
  { eapply Forall_impl; [exact Hextracted|]. intros q (result & asked & Hq).
    apply extracted_question_elem in Hq as (question_text & _ & ->).
    apply own_domain_scores_5; [done|].
    cbn [q_credibility_score QuestionSources.question_of default from_option id].
    apply credibility_range. }
  assert (relevant
          ≡ₚ (λ q, set_q_relevance_score q
                     (InterviewQuestionAPI._calculate_relevance_score q domain company))
             <$> questions) as Hperm.
  { subst relevant. destruct questions as [|q rest]; [done|].
    unfold InterviewQuestionAPI._filter_relevant_questions.
    rewrite sort_desc_perm, scored_questions_all; [done|].
    eapply Forall_impl; [exact Hscores|]. intros; simpl in *; lia. }
  split; [by rewrite Hperm, length_fmap|]. split; [|done].
  rewrite Hperm. apply Forall_fmap. eapply Forall_impl; [exact Hscores|]. by intros.
Qed.

End OwnDomain.

Lemma relevance_filter_keeps_the_questions_of_the_domain_witness :
  Forall (λ q, ∃ result asked_company,
      q ∈ QuestionSources._extract_questions_from_result one_question_found
            no_company_found result "DSA" asked_company) [heap_question]
  ∧ let relevant :=
      InterviewQuestionAPI._filter_relevant_questions [heap_question] "DSA" (Some "Acme") in
    length relevant = length [heap_question]
    ∧ Forall (λ q, 5 <= InterviewQuestionAPI.q_score_key q) relevant
    ∧ relevant
      ≡ₚ (λ q, set_q_relevance_score q
                 (InterviewQuestionAPI._calculate_relevance_score q "DSA" (Some "Acme")))
         <$> [heap_question].
Proof.
  assert (Forall (λ q, ∃ result asked_company,
            q ∈ QuestionSources._extract_questions_from_result one_question_found
                  no_company_found result "DSA" asked_company) [heap_question])
    as Hextracted.
  { constructor; [|constructor]. exists heap_result, None.
    vm_compute. apply list_elem_of_here. }
  split; [exact Hextracted|].
  exact (relevance_filter_keeps_the_questions_of_the_domain one_question_found
           no_company_found "DSA" (Some "Acme") [heap_question] Hextracted).
Defined.

(** ** The jobs of Indeed *)

Example texts_are_split_and_cut :
  IndeedJobAPI.split_from " - " 0 "a - b - c" = ["a"; "b"; "c"]
  ∧ IndeedJobAPI.split_from " - " 0 "a - - b" = ["a"; "- b"]
  ∧ IndeedJobAPI.split_from " - " 0 "a - " = ["a"; EmptyString]
  ∧ IndeedJobAPI.split_from " - " 0 EmptyString = [EmptyString]
  ∧ IndeedJobAPI.remove_from " - Indeed" 0 "ML Engineer - Acme - Indeed.com"
    = "ML Engineer - Acme.com"
  ∧ IndeedJobAPI._extract_company_from_title "ML Engineer - Acme Labs" = "Acme Labs"
  ∧ IndeedJobAPI._extract_company_from_title "ML Engineer" = "Company Not Specified".
Proof. repeat split. Qed.

Lemma starts_with_separator s :
  PyStr.starts_with " - " s = true ->
  ∃ rest, s = String " " (String "-" (String " " rest)).
Proof.
  destruct s as [|a [|b [|c rest]]]; cbn [PyStr.starts_with]; try discriminate.
  - by destruct (Ascii.eqb " " a).
  - destruct (Ascii.eqb " " a); [|discriminate]. by destruct (Ascii.eqb "-" b).
  - destruct (Ascii.eqb " " a) eqn:Ha; [|discriminate].
    destruct (Ascii.eqb "-" b) eqn:Hb; [|discriminate].
    destruct (Ascii.eqb " " c) eqn:Hc; [|discriminate].
    apply Ascii.eqb_eq in Ha as <-, Hb as <-, Hc as <-. by exists rest.
Qed.

Lemma ends_with_space_free c s :
  PyStr.is_space c = false -> ends_with c (String " " s) = true -> ends_with c s = true.
Proof.
  intros Hc. destruct s; [|done]. cbn [ends_with]. intros <-%Ascii.eqb_eq. discriminate.
Qed.

(** The last piece of a text that ends with a character that is not a
    space ends with that character. *)
Lemma last_piece_ends_with c n s :
  (String.length s ≤ n)%nat ->
  PyStr.is_space c = false -> ends_with c s = true ->
  ∃ piece, last (IndeedJobAPI.split_from " - " 0 s) = Some piece
           ∧ ends_with c piece = true.
Proof.
  intros Hlen Hc. revert s Hlen.
  induction n as [|n IH]; intros s Hlen Hend; [destruct s; [done|simpl in Hlen; lia]|].
  destruct s as [|a r]; [done|]. cbn [IndeedJobAPI.split_from].
  destruct (PyStr.starts_with " - " (String a r)) eqn:Hsep.
  - apply starts_with_separator in Hsep as [rest [= -> ->]].
    cbn [String.length Nat.sub IndeedJobAPI.split_from].
    assert (ends_with c rest = true) as Hrest.
    { apply ends_with_space_free in Hend; [|done].
      rewrite ends_with_cons in Hend by done. by apply ends_with_space_free in Hend. }
    destruct (IH rest) as (piece & Hlast & Hpiece); [simpl in Hlen; lia|done|].
    exists piece. split; [|done]. rewrite last_cons, Hlast. done.
  - destruct r as [|b r'].
    + simpl in Hend. apply Ascii.eqb_eq in Hend as ->. exists (String c EmptyString).
      split; [done|]. simpl. apply Ascii.eqb_refl.
    + rewrite (ends_with_cons c a) in Hend by done.
      destruct (IH (String b r')) as (piece & Hlast & Hpiece); [simpl in *; lia|done|].
      destruct (IndeedJobAPI.split_from " - " 0 (String b r')) as [|first others];
        [done|].
      destruct others as [|second others].
      * injection Hlast as ->. exists (String a piece). split; [done|].
        rewrite ends_with_cons; [done|]. by eapply ends_with_nonempty.
      * exists piece. split; [exact Hlast|done].
Qed.

Lemma rstrip_fixed_ends s :
  PyStr.rstrip s = s -> s ≠ EmptyString ->
  ∃ c, PyStr.is_space c = false ∧ ends_with c s = true.
Proof.
  induction s as [|a r IH]; [done|]. cbn [PyStr.rstrip]. intros Hfixed _.
  destruct (PyStr.rstrip r) as [|b r'] eqn:Hr.
  - destruct (PyStr.is_space a) eqn:Ha; [discriminate|].
    injection Hfixed as <-. exists a. split; [done|]. simpl. apply Ascii.eqb_refl.
  - injection Hfixed as <-. destruct IH as (c & Hc & Hend); [done|done|].
    exists c. split; [done|]. by rewrite ends_with_cons.
Qed.

Lemma strip_ends s :
  PyStr.strip s ≠ EmptyString ->
  ∃ c, PyStr.is_space c = false ∧ ends_with c (PyStr.strip s) = true.
Proof.
  intros Hs. apply rstrip_fixed_ends; [|done]. unfold PyStr.strip. apply rstrip_idempotent.
Qed.

Lemma ends_with_contains c s :
  ends_with c s = true -> PyStr.contains (String c EmptyString) s = true.
Proof.
  induction s as [|a r IH]; [done|]. destruct r as [|b r'].
  - simpl. intros ->%Ascii.eqb_eq. by rewrite Ascii.eqb_refl.
  - rewrite ends_with_cons by done. intros Hr%IH.
    cbn [PyStr.contains] in *. rewrite Hr. apply orb_true_r.
Qed.

Lemma ends_with_present c s :
  PyStr.is_space c = false -> ends_with c s = true ->
  JobSearchEngine.present (Some (PyStr.strip s)) = true.
Proof.
  intros Hc Hend. unfold JobSearchEngine.present. rewrite strip_idempotent.
  assert (PyStr.truthy (PyStr.strip s) = true) as ->; [|done].
  unfold PyStr.strip.
  apply (contains_rstrip_nonempty c EmptyString); [done|].
  apply contains_lstrip; [done|]. by apply ends_with_contains.
Qed.

Lemma extract_company_present title :
  PyStr.strip title = title -> title ≠ EmptyString ->
  JobSearchEngine.present (Some (IndeedJobAPI._extract_company_from_title title)) = true.
Proof.
  intros Hfixed Hne. unfold IndeedJobAPI._extract_company_from_title.
  destruct (PyStr.contains " - " title); [|done].
  destruct (1 <? _); [|done].
  destruct (strip_ends title) as (c & Hc & Hend); [by rewrite Hfixed|].
  rewrite Hfixed in Hend.
  destruct (last_piece_ends_with c (String.length title) title (le_n _) Hc Hend)
    as (piece & Hlast & Hpiece).
  assert (List.last (IndeedJobAPI.split_from " - " 0 title) EmptyString = piece) as ->.
  { revert Hlast. generalize (IndeedJobAPI.split_from " - " 0 title). intros parts.
    induction parts as [|p [|p' parts] IH]; [done|by intros [= ->]|].
    intros Hlast. by apply IH. }
  by eapply ends_with_present.
Qed.

Lemma indeed_jobs_of_elem clock i organic_results j :
  j ∈ IndeedJobAPI.jobs_of clock i organic_results ->
  ∃ k result,
    (PyStr.contains "indeed.co.in" (get_str (o_link result)) = true
     ∨ PyStr.contains "indeed.com" (get_str (o_link result)) = true)
    ∧ IndeedJobAPI._parse_indeed_result (clock k) result = Some j.
Proof.
  revert i. induction organic_results as [|result rest IH]; intros i; simpl.
  { by intros ?%elem_of_nil. }
  destruct (_ || _) eqn:Hlink; [|apply IH].
  destruct (IndeedJobAPI._parse_indeed_result (clock i) result) as [j'|] eqn:Hparse;
    [|apply IH].
  intros [->|Hin]%elem_of_cons; [|by eapply IH].
  exists i, result. split; [|done]. by apply orb_prop in Hlink.
Qed.

Lemma relevance_of_an_indeed_job now j job_role :
  source j = Some "Indeed" -> experience_level j = Some "Entry Level" ->
  job_type j = Some "Full-time" -> JobSearchEngine.recency now j = 8 ->
  27 <= JobSearchEngine._calculate_relevance now j job_role.
Proof.
  intros Hsource Hlevel Htype Hrecency.
  unfold JobSearchEngine._calculate_relevance. cbv zeta.
  rewrite Hsource, Hlevel, Htype, Hrecency. cbn [get_str default from_option id].
  replace (PyStr.contains "linkedin" (PyStr.lower "Indeed")) with false by reflexivity.
  replace (PyStr.contains "naukri" (PyStr.lower "Indeed")) with false by reflexivity.
  replace (PyStr.contains "indeed" (PyStr.lower "Indeed")) with true by reflexivity.
  replace (existsb (λ word, PyStr.contains word (PyStr.lower "Entry Level"))
             ["entry"; "fresher"; "0-1"; "graduate"]) with true by reflexivity.
  replace (String.eqb (PyStr.lower "Full-time") "full-time") with true by reflexivity.
  set (t := PyStr.lower (get_str (title j))).
  set (d := PyStr.lower (get_str (description j))).
  match goal with
  | |- context [fold_left ?f JobSearchEngine.ai_ml_keywords ?s] =>
      pose proof (fold_left_add_le (JobSearchEngine.keyword_score 10 5 t d)
                    JobSearchEngine.ai_ml_keywords s
                    (fun k => keyword_score_nonneg 10 5 t d k ltac:(lia) ltac:(lia))) as H2;
      set (s2 := fold_left f JobSearchEngine.ai_ml_keywords s) in *
  end.
  match type of H2 with
  | fold_left ?f ?l ?s <= _ =>
      pose proof (fold_left_add_le (JobSearchEngine.keyword_score 8 3 t d) l s
                    (fun k => keyword_score_nonneg 8 3 t d k ltac:(lia) ltac:(lia))) as H1;
      set (s1 := fold_left f l s) in *
  end.
  repeat case_match; lia.
Qed.

(** X21: every job that the Indeed adapter returns passes the validity
    check of the engine: its title is trimmed and not empty, its link
    names the site, and its company, the trimmed text after the last
    separator of the title or the fallback name, is never blank, because
    a trimmed title cannot end with the separator. The adapter returns
    at most 10 jobs, each scored at least 27 when it is ranked within a
    week of the day on which it was stamped. *)
Theorem indeed_jobs_are_valid (clock1 clock2 : nat -> PyDate.datetime)
    (answer1 answer2 : provider_answer) (now : PyDate.datetime) (job_role : string) :
  (∀ i, PyDate.wf (clock1 i) ∧ 1000 <= PyDate.year (clock1 i)
        ∧ age_in_days now (clock1 i) <= 7) ->
  (∀ i, PyDate.wf (clock2 i) ∧ 1000 <= PyDate.year (clock2 i)
        ∧ age_in_days now (clock2 i) <= 7) ->
  PyDate.wf now ->
  let jobs := IndeedJobAPI.search_jobs clock1 clock2 answer1 answer2 in
  (length jobs ≤ 10)%nat
  ∧ Forall (λ j,
        JobSearchEngine._is_valid_job j = true
        ∧ 27 <= JobSearchEngine._calculate_relevance now j job_role)
      jobs.
Proof.
  intros Hclock1 Hclock2 Hnow jobs. subst jobs. unfold IndeedJobAPI.search_jobs. split.
  - pose proof (slice_to_length_nonneg 10
      (IndeedJobAPI.jobs_of_query clock1 answer1
         ++ IndeedJobAPI.jobs_of_query clock2 answer2)). lia.
  - apply Forall_forall. intros j Hj%slice_to_subseteq.
    assert (∃ t result,
              (PyDate.wf t ∧ 1000 <= PyDate.year t ∧ age_in_days now t <= 7)
              ∧ (PyStr.contains "indeed.co.in" (get_str (o_link result)) = true
                 ∨ PyStr.contains "indeed.com" (get_str (o_link result)) = true)
              ∧ IndeedJobAPI._parse_indeed_result t result = Some j)
      as (t & result & (Hwf & Hyear & Hage) & Hlink & Hparse).
    { apply elem_of_app in Hj as [Hj|Hj].
      - destruct answer1 as [|[organic_results|]]; simpl in Hj;
          [by apply elem_of_nil in Hj| |by apply elem_of_nil in Hj].
        apply indeed_jobs_of_elem in Hj as (k & result & ? & ?).
        exists (clock1 k), result. by split.
      - destruct answer2 as [|[organic_results|]]; simpl in Hj;
          [by apply elem_of_nil in Hj| |by apply elem_of_nil in Hj].
        apply indeed_jobs_of_elem in Hj as (k & result & ? & ?).
        exists (clock2 k), result. by split. }
    unfold IndeedJobAPI._parse_indeed_result in Hparse.
    set (job_title := PyStr.strip (IndeedJobAPI.remove_from " - Indeed" 0
                                     (get_str (o_title result)))) in *.
    destruct (PyStr.truthy job_title) eqn:Htitle; [|discriminate].
    injection Hparse as <-. split.
    + unfold JobSearchEngine._is_valid_job.
      cbn [forallb JobSearchEngine.present title company url].
      assert (job_title ≠ EmptyString) as Hne by (by destruct job_title).
      assert (PyStr.strip job_title = job_title) as Hfixed by apply strip_idempotent.
      rewrite Hfixed, Htitle.
      pose proof (extract_company_present job_title Hfixed Hne) as Hcompany.
      cbn [JobSearchEngine.present] in Hcompany. rewrite Hcompany.
      assert (JobSearchEngine.present (Some (get_str (o_link result))) = true) as Hurl.
      { destruct Hlink as [Hlink|Hlink].
        - by apply (contains_present "i" "ndeed.co.in").
        - by apply (contains_present "i" "ndeed.com"). }
      cbn [JobSearchEngine.present] in Hurl. by rewrite Hurl.
    + apply relevance_of_an_indeed_job; [done..|].
      erewrite (recency_of_a_written_date t now) by done.
      by rewrite (proj2 (Z.leb_le _ 7) Hage).
Qed.

Lemma indeed_jobs_are_valid_witness :
  (∀ i : nat, PyDate.wf ((λ _, jan_5) i) ∧ 1000 <= PyDate.year ((λ _, jan_5) i)
              ∧ age_in_days jan_5_evening ((λ _, jan_5) i) <= 7)
  ∧ PyDate.wf jan_5_evening
  ∧ let jobs := IndeedJobAPI.search_jobs (λ _, jan_5) (λ _, jan_5) indeed_answer
                  ProviderRaised in
    (length jobs ≤ 10)%nat
    ∧ Forall (λ j,
          JobSearchEngine._is_valid_job j = true
          ∧ 27 <= JobSearchEngine._calculate_relevance jan_5_evening j "ML Engineer")
        jobs.
Proof.
  assert (∀ i : nat, PyDate.wf ((λ _, jan_5) i) ∧ 1000 <= PyDate.year ((λ _, jan_5) i)
                     ∧ age_in_days jan_5_evening ((λ _, jan_5) i) <= 7) as Hclock.
  { intros i. split; [exact jan_5_wf|]. split; [simpl; lia|]. vm_compute. discriminate. }
  split; [exact Hclock|]. split; [exact jan_5_evening_wf|].
  apply (indeed_jobs_are_valid (λ _, jan_5) (λ _, jan_5) indeed_answer ProviderRaised
           jan_5_evening "ML Engineer" Hclock Hclock jan_5_evening_wf).
Defined.

(** A result whose title is only the name of the site gives no job. *)
Example indeed_jobs_of_three_results :
  title <$> IndeedJobAPI.search_jobs (λ _, jan_5) (λ _, jan_5) indeed_answer ProviderRaised
    = [Some "ML Engineer - Acme Labs"]
  ∧ company <$> IndeedJobAPI.search_jobs (λ _, jan_5) (λ _, jan_5) indeed_answer
                  ProviderRaised
    = [Some "Acme Labs"].
Proof. split; vm_compute; reflexivity. Qed.
